(** * words: the static-site build script

    A shallow embedding of the site generator (the version with waveform
    images, preview videos and the podcast feed): strings are
    [String.string] read as sequences of code units, the optional fields of
    an entry are JavaScript values ([undefined], [null] or a string), dates
    are a time value or the invalid date, and the asynchronous, effectful
    functions live in a small monad over an event trace and the state of
    the file system.  The platform (node:path, node:fs, child processes,
    front-matter, marked, Date formatting, JSON text) is a parameter of the
    whole development. *)

From Stdlib Require Import String Ascii List ZArith Lia Bool.
From Stdlib Require Import Permutation Sorted DecimalString.
Import ListNotations.
Local Open Scope string_scope.

(** ** Strings *)

(** The double-quote character, and [qq], which turns every apostrophe of a
    literal into a double quote.  The script's literals contain double quotes
    and no apostrophe, so they are written here with apostrophes inside
    [qq]; interpolated values never pass through [qq]. *)
Definition dq : ascii := ascii_of_nat 34.

Fixpoint qq (s : string) : string :=
  match s with
  | EmptyString => EmptyString
  | String c s' => String (if Ascii.eqb c "'" then dq else c) (qq s')
  end.

(** [String.prototype.endsWith]. *)
Definition endsWith (s suffix : string) : bool :=
  let n := String.length s in
  let m := String.length suffix in
  (m <=? n)%nat && (substring (n - m) m s =? suffix).

(** [String.prototype.includes]. *)
Fixpoint includes (s sub : string) : bool :=
  if prefix sub s then true
  else match s with
       | EmptyString => false
       | String _ s' => includes s' sub
       end.

(** [Array.prototype.includes] on an array of strings. *)
Definition arr_includes (l : list string) (x : string) : bool :=
  existsb (String.eqb x) l.

(** [s.substring(0, n)]. *)
Definition substring0 (n : nat) (s : string) : string := substring 0 n s.

Fixpoint drop (n : nat) (s : string) : string :=
  match n, s with
  | O, _ => s
  | S n', EmptyString => EmptyString
  | S n', String _ s' => drop n' s'
  end.

(** ASCII lower-casing, for the [i] flag of the extension patterns: without
    the [u] flag no character outside ASCII folds onto an ASCII one. *)
Definition lower (c : ascii) : ascii :=
  let n := nat_of_ascii c in
  if ((65 <=? n) && (n <=? 90))%nat then ascii_of_nat (n + 32) else c.

Fixpoint lowerStr (s : string) : string :=
  match s with
  | EmptyString => EmptyString
  | String c s' => String (lower c) (lowerStr s')
  end.

(** [s.replace(/\.(e1|e2|...)$/, repl)] for three-letter extensions, with the
    [i] flag when [ci] is set: the last four characters are replaced when
    they are a dot and one of the extensions, otherwise [s] is returned. *)
Definition replaceExt (ci : bool) (exts : list string) (repl s : string) : string :=
  let n := String.length s in
  if (n <? 4)%nat then s
  else
    let stem := substring 0 (n - 4) s in
    let dot := substring (n - 4) 1 s in
    let ext := substring (n - 3) 3 s in
    let ext' := if ci then lowerStr ext else ext in
    if (dot =? ".") && existsb (String.eqb ext') exts then stem ++ repl else s.

Definition audioExt : list string := ["mp3"; "wav"; "ogg"; "m4a"].
Definition imageExt : list string := ["jpg"; "png"].

(** [s.replace(/<[^>]*>/g, '')]: every maximal-left match runs from a [<] to
    the first [>] after it; a [<] with no [>] after it is kept. *)
Fixpoint hasGt (s : string) : bool :=
  match s with
  | EmptyString => false
  | String c s' => if Ascii.eqb c ">" then true else hasGt s'
  end.

Fixpoint stripFrom (inTag : bool) (s : string) : string :=
  match s with
  | EmptyString => EmptyString
  | String c s' =>
      if inTag then
        if Ascii.eqb c ">" then stripFrom false s' else stripFrom true s'
      else if Ascii.eqb c "<" && hasGt s' then stripFrom true s'
      else String c (stripFrom false s')
  end.

Definition stripTags (s : string) : string := stripFrom false s.

(** [s.replace(pattern, replacement)] with a string pattern: the first
    occurrence is replaced, and in the replacement [$$], [$&], [$`] and [$']
    stand for a dollar, the match, the text before it and the text after it
    (there are no groups, so [$1] and the like stay as they are). *)
Fixpoint findFirst (pat s : string) : option (string * string) :=
  if prefix pat s then Some (EmptyString, drop (String.length pat) s)
  else match s with
       | EmptyString => None
       | String c s' =>
           match findFirst pat s' with
           | Some (before, after) => Some (String c before, after)
           | None => None
           end
       end.

Fixpoint expandReplacement (before matched after r : string) : string :=
  match r with
  | EmptyString => EmptyString
  | String c r' =>
      if Ascii.eqb c "$" then
        match r' with
        | String d r'' =>
            if Ascii.eqb d "$" then
              String "$" (expandReplacement before matched after r'')
            else if Ascii.eqb d "&" then
              matched ++ expandReplacement before matched after r''
            else if Ascii.eqb d "`" then
              before ++ expandReplacement before matched after r''
            else if Ascii.eqb d "'" then
              after ++ expandReplacement before matched after r''
            else String c (expandReplacement before matched after r')
        | EmptyString => String c EmptyString
        end
      else String c (expandReplacement before matched after r')
  end.

Definition replaceFirst (s pat r : string) : string :=
  match findFirst pat s with
  | Some (before, after) => before ++ expandReplacement before pat after r ++ after
  | None => s
  end.

(** [s.split('x')]. *)
Fixpoint splitX (cur s : string) : list string :=
  match s with
  | EmptyString => [cur]
  | String c s' =>
      if Ascii.eqb c "x" then cur :: splitX EmptyString s'
      else splitX (cur ++ String c EmptyString) s'
  end.

(** [path.basename(file, ext)] on a bare file name, as [fs.readdir] returns
    them (no separator): the name without the suffix [ext] when it ends
    with it. *)
Definition basename (file ext : string) : string :=
  if endsWith file ext
  then substring 0 (String.length file - String.length ext) file
  else file.

(** ** Tags to look for in the generated markup *)

(** A [meta] tag with a [property] attribute, as the templates write it. *)
Definition metaProperty (property content : string) : string :=
  (qq "<meta property='" ++ property ++ qq "' content='") ++ content ++ qq "' />".

(** The [source] tag of the audio player and the [enclosure] of a feed
    item. *)
Definition sourceTag (src : string) : string :=
  qq "<source src='" ++ src ++ qq "' type='audio/mpeg'>".

Definition enclosureTag (url : string) : string :=
  qq "<enclosure url='" ++ url ++ qq "' type='audio/mpeg' />".

(** ** JavaScript values *)

(** An optional string field of an object: never assigned, [null], or a
    string. *)
Inductive JsVal : Type :=
| JUndefined
| JNull
| JStr (s : string).

(** Truthiness: [undefined], [null] and the empty string are falsy. *)
Definition truthy (v : JsVal) : bool :=
  match v with
  | JStr s => negb (s =? "")
  | _ => false
  end.

(** [a || b]. *)
Definition jsOr (a b : JsVal) : JsVal := if truthy a then a else b.

(** The text a template literal interpolates. *)
Definition toStr (v : JsVal) : string :=
  match v with
  | JUndefined => "undefined"
  | JNull => "null"
  | JStr s => s
  end.

(** A [Date]: a time value in milliseconds, or the invalid date (time value
    NaN). *)
Inductive JsDate : Type :=
| ValidDate (t : Z)
| InvalidDate.

(** [b - a] on two dates: a number, or NaN ([None]). *)
Definition dateMinus (b a : JsDate) : option Z :=
  match b, a with
  | ValidDate tb, ValidDate ta => Some (tb - ta)%Z
  | _, _ => None
  end.

Record JsError : Type := mkError { message : string }.

(** The result of evaluating a call: a value, or a thrown error. *)
Inductive Completion (A : Type) : Type :=
| Normal (a : A)
| Throw (e : JsError).
Arguments Normal {A} a.
Arguments Throw {A} e.

(** ** The entry model *)

(** The front-matter attributes that reach a field the script reads.  The
    keys [title], [date], [description], [tags], [music-source] and
    [cover-image] are read by name.  The spread [...attributes] copies every
    other key onto the entry as well; the properties written after the
    spread overwrite those named [content], [date], [tags], [slug],
    [filename], [musicSource] and [coverImage], and of the keys that
    survive the script later reads [title], [description], [videoSource]
    and [waveformImage]. *)
Record Attributes : Type := mkAttributes {
  attr_title : JsVal;
  attr_date : JsVal;
  attr_description : JsVal;
  attr_tags : option (list string);
  attr_music_source : JsVal;
  attr_cover_image : JsVal;
  attr_videoSource : JsVal;
  attr_waveformImage : JsVal
}.

Record Entry : Type := mkEntry {
  title : JsVal;
  description : JsVal;
  content : string;
  date : JsDate;
  tags : list string;
  slug : string;
  filename : string;
  musicSource : JsVal;
  coverImage : JsVal;
  videoSource : JsVal;
  waveformImage : JsVal
}.

Definition set_videoSource (v : JsVal) (e : Entry) : Entry :=
  mkEntry (title e) (description e) (content e) (date e) (tags e) (slug e)
          (filename e) (musicSource e) (coverImage e) v (waveformImage e).

Definition set_waveformImage (v : JsVal) (e : Entry) : Entry :=
  mkEntry (title e) (description e) (content e) (date e) (tags e) (slug e)
          (filename e) (musicSource e) (coverImage e) (videoSource e) v.

Module SITE_CONFIG.

Definition title : string := "Aubrey McCarthy - Words".

Definition description : string :=
  "A collection of thoughts about making, game development, and life.".

Definition url : string := "https://words.aubrey.page".

Definition author : string := "Aubrey McCarthy".

End SITE_CONFIG.

Definition CONTENT_DIR : string := "./content".
Definition OUTPUT_DIR : string := "./docs".
Definition TEMPLATE_PATH : string := "./template.html".
Definition POST_TEMPLATE_PATH : string := "./template-post.html".
Definition AUDIO_COVER_IMAGE : string := "./audio-cover.jpg".

(** ** Sorting: [entries.sort((a, b) => b.date - a.date)] *)

(** The comparator, and the number [Array.prototype.sort] makes of it: a NaN
    result counts as +0. *)
Definition comparefn (a b : Entry) : option Z := dateMinus (date b) (date a).

Definition sortCompare (a b : Entry) : Z :=
  match comparefn a b with
  | Some v => v
  | None => 0%Z
  end.

(** [Array.prototype.sort] is stable; with a comparator that is a consistent
    order every stable sort returns the same array, modelled here by
    insertion: an element passes the elements it has to come after (the
    comparator is positive) and stops before the first one it does not.
    With the invalid date among the entries the comparator is not a
    consistent order and the result is the engine's; no property below
    depends on it. *)
Fixpoint insertEntry (x : Entry) (l : list Entry) : list Entry :=
  match l with
  | [] => [x]
  | y :: l' =>
      if (0 <? sortCompare x y)%Z then y :: insertEntry x l'
      else x :: y :: l'
  end.

Definition sortEntries (l : list Entry) : list Entry :=
  fold_right insertEntry [] l.

(** ** Dates and positions in a list of entries *)

Definition validDate (d : JsDate) : bool :=
  match d with
  | ValidDate _ => true
  | InvalidDate => false
  end.

(** The time value of an entry (0 stands in for NaN; the lemmas that use it
    ask for valid dates). *)
Definition time (e : Entry) : Z :=
  match date e with
  | ValidDate t => t
  | InvalidDate => 0%Z
  end.

Definition allValid (l : list Entry) : bool :=
  forallb (fun e => validDate (date e)) l.


(** [a] is at an earlier position than [b]. *)
Definition before (l : list Entry) (a b : Entry) : Prop :=
  exists i j, (i < j)%nat /\ nth_error l i = Some a /\ nth_error l j = Some b.

Definition descending (l : list Entry) : Prop :=
  StronglySorted (fun a b => (time b <= time a)%Z) l.

(** ** JSON *)

#[warnings="-register-all"]
Inductive Json : Type :=
| JsonNull
| JsonString (s : string)
| JsonArray (items : list Json)
| JsonObject (members : list (string * Json)).

(** A property value of a manifest record: a scalar, or the array of tags. *)
Inductive PropVal : Type :=
| PScalar (v : JsVal)
| PStrings (l : list string).

(** What [JSON.stringify] makes of a property value; a property whose value
    is [undefined] is left out of the object. *)
Definition jsonOfProp (v : PropVal) : option Json :=
  match v with
  | PScalar JUndefined => None
  | PScalar JNull => Some JsonNull
  | PScalar (JStr s) => Some (JsonString s)
  | PStrings l => Some (JsonArray (map JsonString l))
  end.

Definition jsonOfObject (o : list (string * PropVal)) : Json :=
  JsonObject
    (flat_map (fun kv => match jsonOfProp (snd kv) with
                         | Some j => [(fst kv, j)]
                         | None => []
                         end) o).

Definition keysOf (j : Json) : list string :=
  match j with
  | JsonObject members => map fst members
  | _ => []
  end.

(** The string under the key [slug] of a record. *)
Definition recordSlug (j : Json) : option string :=
  match j with
  | JsonObject members =>
      match find (fun kv => fst kv =? "slug") members with
      | Some (_, JsonString s) => Some s
      | _ => None
      end
  | _ => None
  end.

(** The value under a key of a record, and the value [JSON.stringify] gives
    a field of an entry ([None]: the key is left out). *)
Definition recordField (key : string) (j : Json) : option Json :=
  match j with
  | JsonObject members =>
      match find (fun kv => fst kv =? key) members with
      | Some kv => Some (snd kv)
      | None => None
      end
  | _ => None
  end.

Definition jsonOfVal (v : JsVal) : option Json := jsonOfProp (PScalar v).

Definition allKeys : list string :=
  ["title"; "date"; "tags"; "slug"; "description"; "musicSource";
   "videoSource"; "waveformImage"].

(** ** The platform *)

(** Everything the script calls and does not define.  [FS] is the state of
    the file system; a call that changes it returns the new state, also when
    it throws. *)
Class Host : Type := mkHost {
  FS : Type;
  (* node:path *)
  path_join : string -> string -> string;
  path_dirname : string -> string;
  (* front-matter, marked *)
  frontMatter : string -> Completion (Attributes * string);
  marked : string -> string;
  (* Date *)
  Date_new : JsVal -> JsDate;
  Date_now : JsDate;
  isoString : Z -> string;
  toUTCString : JsDate -> string;
  toLocaleDateString : JsDate -> string;
  (* String.prototype.trim; Number(s) followed by a truthiness test: the
     text of the number when it is neither 0 nor NaN *)
  String_trim : string -> string;
  Number_truthy : string -> option string;
  (* the text of JSON.stringify(value, null, 2) *)
  JSON_text : Json -> string;
  (* child_process.exec, promisified: the standard output, or a failure *)
  host_exec : string -> FS -> Completion string * FS;
  (* node:fs/promises; stat gives the modification time *)
  host_stat : string -> FS -> Completion Z;
  host_readFile : string -> FS -> Completion string;
  host_readdir : string -> FS -> Completion (list string);
  host_mkdir : string -> FS -> Completion unit * FS;
  host_unlink : string -> FS -> Completion unit * FS;
  host_writeFile : string -> string -> FS -> Completion unit * FS
}.

(** ** Effects *)

Definition isNormal {A : Type} (c : Completion A) : bool :=
  match c with
  | Normal _ => true
  | Throw _ => false
  end.

(** What a run does to the outside, in order; [ok] tells whether the call
    completed normally. *)
Inductive Event : Type :=
| EvLog (msg : string)
| EvError (msg : string)
| EvExec (cmd : string) (ok : bool)
| EvMkdir (path : string) (ok : bool)
| EvUnlink (path : string) (ok : bool)
| EvWriteFile (path data : string) (ok : bool).

Definition succeeded (ev : Event) : bool :=
  match ev with
  | EvLog _ | EvError _ => true
  | EvExec _ ok | EvMkdir _ ok | EvUnlink _ ok | EvWriteFile _ _ ok => ok
  end.

Definition isExec (ev : Event) : bool :=
  match ev with
  | EvExec _ _ => true
  | _ => false
  end.

Definition isWrite (ev : Event) : bool :=
  match ev with
  | EvWriteFile _ _ _ => true
  | _ => false
  end.

Definition isConsole (ev : Event) : bool :=
  match ev with
  | EvLog _ | EvError _ => true
  | _ => false
  end.

Section Build.

Context {H : Host}.

Record World : Type := mkWorld {
  fs : FS;
  trace : list Event
}.

(** An asynchronous function, awaited: it changes the world and completes
    with a value or a thrown error (a rejected promise). *)
Definition M (A : Type) : Type := World -> Completion A * World.

Definition ret {A : Type} (a : A) : M A := fun w => (Normal a, w).

Definition bind {A B : Type} (m : M A) (k : A -> M B) : M B :=
  fun w =>
    match m w with
    | (Normal a, w') => k a w'
    | (Throw e, w') => (Throw e, w')
    end.

(** [try { m } catch (error) { handler }]. *)
Definition tryCatch {A : Type} (m : M A) (handler : JsError -> M A) : M A :=
  fun w =>
    match m w with
    | (Normal a, w') => (Normal a, w')
    | (Throw e, w') => handler e w'
    end.

(** A call to an asynchronous function whose promise is dropped: its
    effects are started, its completion is never looked at. *)
Definition detach {A : Type} (m : M A) : M unit :=
  fun w => (Normal tt, snd (m w)).

Definition liftC {A : Type} (c : Completion A) : M A := fun w => (c, w).

Notation "x <- m ;; k" := (bind m (fun x => k))
  (at level 61, m at next level, right associativity).
Notation "m ;; k" := (bind m (fun _ => k))
  (at level 61, right associativity).

Fixpoint mapM {A B : Type} (f : A -> M B) (l : list A) : M (list B) :=
  match l with
  | [] => ret []
  | x :: l' => y <- f x ;; ys <- mapM f l' ;; ret (y :: ys)
  end.

Definition emit (e : Event) : M unit :=
  fun w => (Normal tt, mkWorld (fs w) (trace w ++ [e])).

Definition console_log (msg : string) : M unit := emit (EvLog msg).
Definition console_error (msg : string) : M unit := emit (EvError msg).

Definition execAsync (cmd : string) : M string :=
  fun w =>
    let (r, fs') := host_exec cmd (fs w) in
    (r, mkWorld fs' (trace w ++ [EvExec cmd (isNormal r)])).

Definition fs_stat (path : string) : M Z :=
  fun w => (host_stat path (fs w), w).

Definition fs_readFile (path : string) : M string :=
  fun w => (host_readFile path (fs w), w).

Definition fs_readdir (path : string) : M (list string) :=
  fun w => (host_readdir path (fs w), w).

Definition fs_mkdir (path : string) : M unit :=
  fun w =>
    let (r, fs') := host_mkdir path (fs w) in
    (r, mkWorld fs' (trace w ++ [EvMkdir path (isNormal r)])).

Definition fs_unlink (path : string) : M unit :=
  fun w =>
    let (r, fs') := host_unlink path (fs w) in
    (r, mkWorld fs' (trace w ++ [EvUnlink path (isNormal r)])).

Definition fs_writeFile (path data : string) : M unit :=
  fun w =>
    let (r, fs') := host_writeFile path data (fs w) in
    (r, mkWorld fs' (trace w ++ [EvWriteFile path data (isNormal r)])).

(** ** Derived media *)

(** [width || 1200] and [height || 630], as template literals print them. *)
Definition targetSize (dimensions : string) : string * string :=
  let parts := splitX EmptyString (String_trim dimensions) in
  let dim (i : nat) (dflt : string) :=
    match nth_error parts i with
    | Some p => match Number_truthy p with Some t => t | None => dflt end
    | None => dflt
    end in
  (dim 0%nat "1200", dim 1%nat "630").

(** Returns the output path, or [None] for [false]. *)
Definition generateWaveformImage (audioPath outputImagePath coverImage : string)
  : M (option string) :=
  tryCatch
    (console_log ("Generating waveform image for " ++ audioPath ++ "...") ;;
     fs_mkdir (path_dirname outputImagePath) ;;
     let probeCmd :=
       qq "ffprobe -v error -select_streams v:0 -show_entries stream=width,height -of csv=s=x:p=0 '"
          ++ coverImage ++ qq "'" in
     dimensions <- execAsync probeCmd ;;
     let targetWidth := fst (targetSize dimensions) in
     let targetHeight := snd (targetSize dimensions) in
     let tempAudio := replaceExt false imageExt "-temp.mp3" outputImagePath in
     let extractCmd :=
       qq "ffmpeg -y -i '" ++ audioPath ++ qq "' -t 50 -q:a 0 '" ++ tempAudio ++ qq "'" in
     execAsync extractCmd ;;
     let tempWaveform := replaceExt false imageExt "-waveform-temp.png" outputImagePath in
     let waveformCmd :=
       qq "ffmpeg -y -i '" ++ tempAudio
          ++ qq "' -filter_complex 'compand=gain=3,showwavespic=s="
          ++ targetWidth ++ "x" ++ targetHeight
          ++ qq ":colors=white' -frames:v 1 '" ++ tempWaveform ++ qq "'" in
     execAsync waveformCmd ;;
     let compositeCmd :=
       qq "ffmpeg -y -i '" ++ coverImage ++ qq "' -i '" ++ tempWaveform
          ++ qq "' -filter_complex '[1:v]colorchannelmixer=aa=0.5[wave];[0:v][wave]overlay=0:0' -q:v 2 '"
          ++ outputImagePath ++ qq "'" in
     execAsync compositeCmd ;;
     fs_unlink tempWaveform ;;
     fs_unlink tempAudio ;;
     console_log ("✓ Generated waveform image: " ++ outputImagePath
                    ++ " (" ++ targetWidth ++ "x" ++ targetHeight ++ ")") ;;
     ret (Some outputImagePath))
    (fun error =>
       console_error ("Failed to generate waveform image for " ++ audioPath
                        ++ ": " ++ message error) ;;
       ret None).

(** The encoder command of [generateVideoFromAudio]. *)
Definition ffmpegCmd (audioPath outputVideoPath coverImage : string) : string :=
  qq "ffmpeg -y -loop 1 -i '" ++ coverImage ++ qq "' -i '" ++ audioPath
     ++ qq "' -c:v libx264 -tune stillimage -c:a aac -b:a 192k -pix_fmt yuv420p -shortest -t 600 '"
     ++ outputVideoPath ++ qq "'".

(** The inner [try] of [generateVideoFromAudio]: [true] when it returns from
    the function because the video is newer than the audio. *)
Definition videoUpToDate (audioPath outputVideoPath : string) : M bool :=
  tryCatch
    (audioStat <- fs_stat audioPath ;;
     videoStat <- fs_stat outputVideoPath ;;
     if (audioStat <? videoStat)%Z
     then console_log ("Video " ++ outputVideoPath ++ " is up to date") ;; ret true
     else ret false)
    (fun _ => ret false).

Definition generateVideoFromAudio (audioPath outputVideoPath coverImage : string)
  : M unit :=
  tryCatch
    (execAsync "ffmpeg -version" ;;
     upToDate <- videoUpToDate audioPath outputVideoPath ;;
     if upToDate : bool then ret tt
     else
       console_log ("Generating video for " ++ audioPath ++ "...") ;;
       fs_mkdir (path_dirname outputVideoPath) ;;
       execAsync (ffmpegCmd audioPath outputVideoPath coverImage) ;;
       console_log ("✓ Generated video: " ++ outputVideoPath))
    (fun error =>
       console_error ("Failed to generate video for " ++ audioPath
                        ++ ": " ++ message error) ;;
       if includes (message error) "ffmpeg"
       then console_error
              "ffmpeg not found. Please install ffmpeg to generate videos for Discord preview."
       else ret tt).

(** Truthiness of what [generateWaveformImage] returns. *)
Definition truthyPath (p : option string) : bool :=
  match p with
  | Some s => negb (s =? "")
  | None => false
  end.

(** The body of the loop over the entries: an eligible entry gets its
    waveform image and its video, and the two fields. *)
Definition eligible (entry : Entry) : bool :=
  truthy (musicSource entry) && arr_includes (tags entry) "music".

Definition generateMedia (entry : Entry) : M Entry :=
  if eligible entry then
    let audioPath := path_join OUTPUT_DIR (toStr (musicSource entry)) in
    let videoPath := replaceExt true audioExt ".mp4" audioPath in
    let waveformImagePath := replaceExt true audioExt "-waveform.jpg" audioPath in
    let coverImage :=
      if truthy (coverImage entry)
      then path_join OUTPUT_DIR (toStr (coverImage entry))
      else AUDIO_COVER_IMAGE in
    generatedImagePath <- generateWaveformImage audioPath waveformImagePath coverImage ;;
    let videoSourceImage :=
      match generatedImagePath with
      | Some p => if truthyPath generatedImagePath then p else coverImage
      | None => coverImage
      end in
    generateVideoFromAudio audioPath videoPath videoSourceImage ;;
    let entry1 :=
      set_videoSource
        (JStr (replaceExt true audioExt ".mp4" (toStr (musicSource entry)))) entry in
    ret (set_waveformImage
           (if truthyPath generatedImagePath
            then JStr (replaceExt true audioExt "-waveform.jpg" (toStr (musicSource entry)))
            else JNull)
           entry1)
  else ret entry.

(** ** Pages, manifest and feed *)

Definition nl : string := String (ascii_of_nat 10) EmptyString.

(** [entry.description || entry.content.substring(0, 200).replace(/<[^>]*>/g, '')]. *)
Definition descriptionOr (entry : Entry) (fallback : string) : string :=
  if truthy (description entry) then toStr (description entry) else fallback.

Definition tagsHTML (entry : Entry) : string :=
  if (0 <? List.length (tags entry))%nat then
    qq "<div class='portfolio-tags'>
           "
    ++ String.concat " "
         (map (fun tag => qq "<span class='tag' data-tag='" ++ tag ++ qq "'>"
                            ++ tag ++ "</span>") (tags entry))
    ++ "
         </div>"
  else EmptyString.

Definition generateAudioPlayer (entry : Entry) : string :=
  if negb (truthy (musicSource entry)) then EmptyString
  else
    qq "
    <div class='audio-player'>
      <audio controls preload='metadata'>
        <source src='"
    ++ toStr (musicSource entry)
    ++ qq "' type='audio/mpeg'>
        Your browser does not support the audio element.
      </audio>
    </div>
  ".

(** The pieces [generateOpenGraphTags] appends to [ogTags]. *)
Definition ogBase (entry : Entry) (description postUrl : string) : string :=
    qq "
    <meta property='og:title' content='"
    ++ toStr (title entry)
    ++ qq "' />
    <meta property='og:description' content='"
    ++ description
    ++ qq "' />
    <meta property='og:url' content='"
    ++ postUrl
    ++ qq "' />
    <meta property='og:site_name' content='"
    ++ SITE_CONFIG.title
    ++ qq "' />
    <meta name='twitter:card' content='summary_large_image' />
    <meta name='twitter:title' content='"
    ++ toStr (title entry)
    ++ qq "' />
    <meta name='twitter:description' content='"
    ++ description
    ++ qq "' />
  ".

Definition ogImage (imageUrl : string) : string :=
    qq "
    <meta property='og:image' content='"
    ++ imageUrl
    ++ qq "' />
    <meta property='og:image:width' content='1200' />
    <meta property='og:image:height' content='1200' />
    <meta name='twitter:image' content='"
    ++ imageUrl
    ++ qq "' />
      ".

Definition ogVideo (videoUrl audioUrl : string) : string :=
    qq "
    <meta property='og:type' content='video.other' />
    <meta property='og:video' content='"
    ++ videoUrl
    ++ qq "' />
    <meta property='og:video:secure_url' content='"
    ++ videoUrl
    ++ qq "' />
    <meta property='og:video:type' content='video/mp4' />
    <meta property='og:audio' content='"
    ++ audioUrl
    ++ qq "' />
    <meta property='og:audio:type' content='audio/mpeg' />
    <meta property='music:musician' content='"
    ++ SITE_CONFIG.author
    ++ qq "' />
      ".

Definition ogPlayer (videoUrl : string) : string :=
    qq "
    <meta name='twitter:player' content='"
    ++ videoUrl
    ++ qq "' />
      ".

Definition ogArticle : string :=
  qq "<meta property='og:type' content='article' />".

Definition isMusicPost (entry : Entry) : bool :=
  arr_includes (tags entry) "music" && truthy (musicSource entry).

Definition generateOpenGraphTags (entry : Entry) : string :=
  let postUrl := SITE_CONFIG.url ++ "/posts/" ++ slug entry in
  let description :=
    descriptionOr entry (stripTags (substring0 200 (content entry))) in
  let ogTags := ogBase entry description postUrl in
  if isMusicPost entry then
    let ogTags :=
      if truthy (waveformImage entry)
      then ogTags ++ ogImage (SITE_CONFIG.url ++ toStr (waveformImage entry))
      else ogTags in
    if truthy (videoSource entry) then
      let videoUrl := SITE_CONFIG.url ++ toStr (videoSource entry) in
      let audioUrl := SITE_CONFIG.url ++ toStr (musicSource entry) in
      (ogTags ++ ogVideo videoUrl audioUrl) ++ ogPlayer videoUrl
    else ogTags
  else ogTags ++ ogArticle.

(** The card of an entry on the home page. *)
Definition portfolioItem (entry : Entry) : string :=
  let tagsHTML := tagsHTML entry in
  let audioPlayer := generateAudioPlayer entry in
    qq "
      <div class='portfolio-item' data-tags='"
    ++ String.concat " " (tags entry)
    ++ qq "'>
        <div class='portfolio-header'>
          <div class='portfolio-date'>"
    ++ toLocaleDateString (date entry)
    ++ qq "</div>
          <header class='portfolio-title'><a href='/posts/"
    ++ slug entry
    ++ qq "'>"
    ++ toStr (title entry)
    ++ "</a></header>
          "
    ++ tagsHTML
    ++ "
        </div>
        "
    ++ audioPlayer
    ++ qq "
        <div class='portfolio-content'>
          "
    ++ content entry
    ++ "
        </div>
      </div>
    ".

(** The card of an entry on its own page ([post] in [writePost]). *)
Definition postItem (entry : Entry) (tagsHTML : string) : string :=
  let audioPlayer := generateAudioPlayer entry in
    qq "
      <div class='portfolio-item'>
        <div class='portfolio-header'>
          <div class='portfolio-date'>"
    ++ toLocaleDateString (date entry)
    ++ qq "</div>
          <header class='portfolio-title'>"
    ++ toStr (title entry)
    ++ "</header>
          "
    ++ tagsHTML
    ++ "
        </div>
        "
    ++ audioPlayer
    ++ qq "
        <div class='portfolio-content'>
          "
    ++ content entry
    ++ "
        </div>
      </div>
    ".

Definition postHTML (entry : Entry) (postTemplate tagsHTML : string) : string :=
  let ogTags := generateOpenGraphTags entry in
  let outputHTML := replaceFirst postTemplate "<!-- BLOG_ITEM -->" (postItem entry tagsHTML) in
  let outputHTML := replaceFirst outputHTML "<!-- BLOG_TITLE -->" (toStr (title entry)) in
  replaceFirst outputHTML "<!-- OG_TAGS -->" ogTags.

Definition postPath (entry : Entry) : string :=
  path_join (path_join OUTPUT_DIR "posts") (slug entry ++ ".html").

Definition writePost (entry : Entry) (postTemplate tagsHTML : string) : M unit :=
  fs_writeFile (postPath entry) (postHTML entry postTemplate tagsHTML).

(** [date.toISOString()]: a RangeError on the invalid date. *)
Definition toISOString (d : JsDate) : Completion string :=
  match d with
  | ValidDate t => Normal (isoString t)
  | InvalidDate => Throw (mkError "Invalid time value")
  end.

(** One object of [postsMetadata]. *)
Definition postMetadata (entry : Entry) : Completion (list (string * PropVal)) :=
  match toISOString (date entry) with
  | Normal iso =>
      Normal [ ("title", PScalar (title entry));
               ("date", PScalar (JStr iso));
               ("tags", PStrings (tags entry));
               ("slug", PScalar (JStr (slug entry)));
               ("description", PScalar (jsOr (description entry) (JStr EmptyString)));
               ("musicSource", PScalar (musicSource entry));
               ("videoSource", PScalar (videoSource entry));
               ("waveformImage", PScalar (waveformImage entry)) ]
  | Throw e => Throw e
  end.

(** [entries.map(entry => ({...}))]: the first throwing callback ends it. *)
Fixpoint postsMetadata (entries : list Entry)
  : Completion (list (list (string * PropVal))) :=
  match entries with
  | [] => Normal []
  | entry :: rest =>
      match postMetadata entry with
      | Normal o =>
          match postsMetadata rest with
          | Normal os => Normal (o :: os)
          | Throw e => Throw e
          end
      | Throw e => Throw e
      end
  end.

Definition postsJson (objects : list (list (string * PropVal))) : string :=
  JSON_text (JsonArray (map jsonOfObject objects)).

(** [[...new Set(l)]]: the first occurrence of each string, in order. *)
Fixpoint uniq (seen l : list string) : list string :=
  match l with
  | [] => []
  | x :: l' =>
      if arr_includes seen x then uniq seen l' else x :: uniq (x :: seen) l'
  end.

(** [.sort()] on strings: ascending by code units. *)
Fixpoint insertTag (x : string) (l : list string) : list string :=
  match l with
  | [] => [x]
  | y :: l' => if String.ltb y x then y :: insertTag x l' else x :: y :: l'
  end.

Definition allTags (entries : list Entry) : list string :=
  fold_right insertTag [] (uniq [] (flat_map tags entries)).

Definition tagFilterHTML (allTags : list string) : string :=
  if (0 <? List.length allTags)%nat then
    qq "<div class='tag-filters'>
         <button class='tag-filter active' data-filter='all'>All</button>
         "
    ++ String.concat " "
         (map (fun tag => qq "<button class='tag-filter' data-filter='" ++ tag
                            ++ qq "'>" ++ tag ++ "</button>") allTags)
    ++ "
       </div>"
  else EmptyString.

Definition indexHTML (template : string) (entries : list Entry) : string :=
  let portfolioItems := String.concat nl (map portfolioItem entries) in
  let outputHTML := replaceFirst template "<!-- PORTFOLIO_ITEMS -->" portfolioItems in
  replaceFirst outputHTML "<!-- TAG_FILTERS -->" (tagFilterHTML (allTags entries)).

(** One item of the feed. *)
Definition rssDescription (entry : Entry) : string :=
  descriptionOr entry (stripTags (substring0 200 (content entry)) ++ "...").

Definition rssEnclosure (entry : Entry) : string :=
  if truthy (musicSource entry) then
    qq "      <enclosure url='"
    ++ SITE_CONFIG.url
    ++ toStr (musicSource entry)
    ++ qq "' type='audio/mpeg' />"
  else EmptyString.

Definition rssItunesTags (entry : Entry) : string :=
  if truthy (musicSource entry) then
    "      <itunes:duration></itunes:duration>
      <itunes:author>"
    ++ SITE_CONFIG.author
    ++ "</itunes:author>"
  else EmptyString.

Definition rssItem (entry : Entry) : string :=
  let pubDate := toUTCString (date entry) in
  let description := rssDescription entry in
  let postUrl := SITE_CONFIG.url ++ "/posts/" ++ slug entry in
  let enclosure := rssEnclosure entry in
  let itunesTags := rssItunesTags entry in
    "    <item>
      <title><![CDATA["
    ++ toStr (title entry)
    ++ "]]></title>
      <description><![CDATA["
    ++ description
    ++ "]]></description>
      <content:encoded><![CDATA["
    ++ content entry
    ++ "]]></content:encoded>
      <link>"
    ++ postUrl
    ++ qq "</link>
      <guid isPermaLink='true'>"
    ++ postUrl
    ++ "</guid>
      <pubDate>"
    ++ pubDate
    ++ "</pubDate>
"
    ++ enclosure
    ++ "
"
    ++ itunesTags
    ++ "
    </item>".

(** [entries.slice(0, 20)]. *)
Definition feedEntries (entries : list Entry) : list Entry := firstn 20 entries.

Definition rssXML (entries : list Entry) : string :=
  let rssItems := String.concat nl (map rssItem (feedEntries entries)) in
    qq "<?xml version='1.0' encoding='UTF-8'?>
<rss version='2.0' 
     xmlns:content='http://purl.org/rss/1.0/modules/content/'
     xmlns:itunes='http://www.itunes.com/dtds/podcast-1.0.dtd'>
  <channel>
    <title>"
    ++ SITE_CONFIG.title
    ++ "</title>
    <description>"
    ++ SITE_CONFIG.description
    ++ "</description>
    <link>"
    ++ SITE_CONFIG.url
    ++ "</link>
    <lastBuildDate>"
    ++ toUTCString Date_now
    ++ "</lastBuildDate>
    <generator>Custom Static Site Generator</generator>
    <language>en-US</language>
    <itunes:author>"
    ++ SITE_CONFIG.author
    ++ "</itunes:author>
    <itunes:summary>"
    ++ SITE_CONFIG.description
    ++ "</itunes:summary>

"
    ++ rssItems
    ++ "
  </channel>
</rss>".

Definition generateRSSFeed (entries : list Entry) : M unit :=
  fs_writeFile (path_join OUTPUT_DIR "rss.xml") (rssXML entries).

(** ** The build *)

(** The callback of [markdownFiles.map]: one entry per file.  The spread of
    the attributes brings [title] and [description], and [videoSource] and
    [waveformImage] when the front matter of the post has keys of these
    names; the fields written after the spread do not depend on it. *)
Definition parseEntry (file : string) : M Entry :=
  content <- fs_readFile (path_join CONTENT_DIR file) ;;
  parsed <- liftC (frontMatter content) ;;
  let attributes := fst parsed in
  let body := snd parsed in
  let slug := basename file ".md" in
  ret (mkEntry (attr_title attributes)
               (attr_description attributes)
               (marked body)
               (Date_new (attr_date attributes))
               (match attr_tags attributes with Some l => l | None => [] end)
               slug
               file
               (jsOr (attr_music_source attributes) JNull)
               (jsOr (attr_cover_image attributes) JNull)
               (attr_videoSource attributes)
               (attr_waveformImage attributes)).

(** [Promise.all] over the markdown files.  Reading changes nothing, so the
    order in which the reads complete does not show in the entries. *)
Definition readEntries : M (list Entry) :=
  files <- fs_readdir CONTENT_DIR ;;
  let markdownFiles := filter (fun file => endsWith file ".md") files in
  mapM parseEntry markdownFiles.

(** The callback of the [entries.map] that builds the home page: the page of
    the entry is written by [writePost], which is not awaited. *)
Definition renderEntry (postTemplate : string) (entry : Entry) : M string :=
  detach (writePost entry postTemplate (tagsHTML entry)) ;;
  ret (portfolioItem entry).

(** [generateSite] from the sort to the end. *)
Definition assemble (template postTemplate : string) (entries : list Entry) : M unit :=
  let entries := sortEntries entries in
  postsMetadata <- liftC (postsMetadata entries) ;;
  fs_writeFile (path_join OUTPUT_DIR "posts.json") (postsJson postsMetadata) ;;
  let allTags := allTags entries in
  portfolioItems <- mapM (renderEntry postTemplate) entries ;;
  let outputHTML :=
    replaceFirst template "<!-- PORTFOLIO_ITEMS -->" (String.concat nl portfolioItems) in
  let outputHTML := replaceFirst outputHTML "<!-- TAG_FILTERS -->" (tagFilterHTML allTags) in
  fs_writeFile (path_join OUTPUT_DIR "index.html") outputHTML ;;
  generateRSSFeed entries ;;
  console_log "Site generated successfully!" ;;
  console_log ("Generated " ++ NilZero.string_of_uint (Nat.to_uint (List.length entries))
                 ++ " posts with tags: " ++ String.concat ", " allTags).

Definition generateSite : M unit :=
  fs_mkdir OUTPUT_DIR ;;
  template <- fs_readFile TEMPLATE_PATH ;;
  postTemplate <- fs_readFile POST_TEMPLATE_PATH ;;
  entries <- readEntries ;;
  entries <- mapM generateMedia entries ;;
  assemble template postTemplate entries.

(** ** The vocabulary of the properties *)

(** Two properties of an operation that compose along [bind]: it never
    throws; it only adds events to the trace, none of them a file write. *)
Definition total {A : Type} (m : M A) : Prop :=
  forall w, exists a w', m w = (Normal a, w').

Definition quiet {A : Type} (m : M A) : Prop :=
  forall w, exists new,
    trace (snd (m w)) = (trace w ++ new)%list /\ filter isWrite new = [].

(** The paths the loop computes for an entry. *)
Definition audioPathOf (entry : Entry) : string :=
  path_join OUTPUT_DIR (toStr (musicSource entry)).

Definition videoPathOf (entry : Entry) : string :=
  replaceExt true audioExt ".mp4" (audioPathOf entry).

Definition waveformPathOf (entry : Entry) : string :=
  replaceExt true audioExt "-waveform.jpg" (audioPathOf entry).

Definition coverOf (entry : Entry) : string :=
  if truthy (coverImage entry)
  then path_join OUTPUT_DIR (toStr (coverImage entry))
  else AUDIO_COVER_IMAGE.

Definition videoImageOf (entry : Entry) (r : option string) : string :=
  match r with
  | Some p => if truthyPath r then p else coverOf entry
  | None => coverOf entry
  end.

(** The entry the loop leaves behind when the waveform step returned [r]. *)
Definition withMedia (entry : Entry) (r : option string) : Entry :=
  set_waveformImage
    (if truthyPath r
     then JStr (replaceExt true audioExt "-waveform.jpg" (toStr (musicSource entry)))
     else JNull)
    (set_videoSource
       (JStr (replaceExt true audioExt ".mp4" (toStr (musicSource entry)))) entry).

Definition markdownFilesOf (files : list string) : list string :=
  filter (fun file => endsWith file ".md") files.

(** What [parseEntry] makes of a file, read in the file system [f]. *)
Definition parsedFrom (f : FS) (file : string) (e : Entry) : Prop :=
  filename e = file
  /\ slug e = basename file ".md"
  /\ musicSource e <> JUndefined
  /\ exists text attributes body,
      host_readFile (path_join CONTENT_DIR file) f = Normal text
      /\ frontMatter text = Normal (attributes, body)
      /\ date e = Date_new (attr_date attributes)
      /\ title e = attr_title attributes
      /\ musicSource e = jsOr (attr_music_source attributes) JNull
      /\ videoSource e = attr_videoSource attributes
      /\ waveformImage e = attr_waveformImage attributes.

(** What the media loop makes of an entry. *)
Definition mediaOf (e0 e : Entry) : Prop :=
  if eligible e0 then exists r, e = withMedia e0 r else e = e0.

(** The page of an entry, as an event of the trace. *)
Definition pageEvent (postTemplate : string) (e : Entry) (ev : Event) : Prop :=
  exists ok,
    ev = EvWriteFile (postPath e) (postHTML e postTemplate (tagsHTML e)) ok.

Definition summaryLine (entries : list Entry) : string :=
  "Generated " ++ NilZero.string_of_uint (Nat.to_uint (List.length entries))
  ++ " posts with tags: " ++ String.concat ", " (allTags entries).

(** The events of [assemble] after the page writes, on a normal run. *)
Definition closingEvents (template : string) (s : list Entry) : list Event :=
  [ EvWriteFile (path_join OUTPUT_DIR "index.html") (indexHTML template s) true;
    EvWriteFile (path_join OUTPUT_DIR "rss.xml") (rssXML s) true;
    EvLog "Site generated successfully!";
    EvLog (summaryLine s) ].

(** [generateSite] up to the parsed entries: the output directory, the two
    templates, the entries. *)
Definition setup : M (string * string * list Entry) :=
  bind (fs_mkdir OUTPUT_DIR) (fun _ =>
  bind (fs_readFile TEMPLATE_PATH) (fun template =>
  bind (fs_readFile POST_TEMPLATE_PATH) (fun postTemplate =>
  bind readEntries (fun entries =>
  ret (template, postTemplate, entries))))).

(** The description [generateOpenGraphTags] puts in its tags. *)
Definition ogDescription (entry : Entry) : string :=
  descriptionOr entry (stripTags (substring0 200 (content entry))).

(** [ogTags] before the type is decided: the common tags, then the image
    tags of an entry with a waveform image. *)
Definition ogWithImage (entry : Entry) : string :=
  let base :=
    ogBase entry (ogDescription entry) (SITE_CONFIG.url ++ "/posts/" ++ slug entry) in
  if truthy (waveformImage entry)
  then base ++ ogImage (SITE_CONFIG.url ++ toStr (waveformImage entry))
  else base.

(** The keys of the object built for an entry, and those its record keeps:
    a property whose value is [undefined] is not serialised. *)
Definition present (key : string) (v : JsVal) : list string :=
  match v with
  | JUndefined => []
  | _ => [key]
  end.

Definition recordKeys (e : Entry) : list string :=
  (present "title" (title e)
     ++ ["date"; "tags"; "slug"; "description"; "musicSource"]
     ++ present "videoSource" (videoSource e)
     ++ present "waveformImage" (waveformImage e))%list.

(** The two paths the media loop stores on an entry. *)
Definition videoSourceOf (e : Entry) : string :=
  replaceExt true audioExt ".mp4" (toStr (musicSource e)).

Definition waveformImageOf (e : Entry) : string :=
  replaceExt true audioExt "-waveform.jpg" (toStr (musicSource e)).

End Build.

(** ** A concrete platform

    A small platform to run the build on: a table of posts (file name, text,
    and what front-matter makes of the text), a table of modification times,
    and an encoder that is installed or not.  With the encoder installed
    every command succeeds; without it every command fails the way a shell
    reports a missing program. *)
Module Demo.

Record Post : Type := mkPost {
  post_file : string;
  post_text : string;
  post_attributes : Attributes;
  post_body : string
}.

Definition noAttributes : Attributes :=
  mkAttributes JUndefined JUndefined JUndefined None JUndefined JUndefined
               JUndefined JUndefined.

(** [path.join] on the paths of the examples: the leading [./] goes and
    doubled separators collapse. *)
Fixpoint collapse (s : string) : string :=
  match s with
  | EmptyString => EmptyString
  | String c s' =>
      match s' with
      | String d _ =>
          if Ascii.eqb c "/" && Ascii.eqb d "/" then collapse s'
          else String c (collapse s')
      | EmptyString => String c EmptyString
      end
  end.

Definition join (a b : string) : string :=
  let p := collapse (a ++ "/" ++ b) in
  if prefix "./" p then drop 2 p else p.

Fixpoint beforeLastSlash (s : string) : option string :=
  match s with
  | EmptyString => None
  | String c s' =>
      match beforeLastSlash s' with
      | Some d => Some (String c d)
      | None => if Ascii.eqb c "/" then Some EmptyString else None
      end
  end.

Definition dirname (p : string) : string :=
  match beforeLastSlash p with
  | Some EmptyString => "/"
  | Some d => d
  | None => "."
  end.

Definition parseDate (v : JsVal) : JsDate :=
  match v with
  | JStr s =>
      if s =? "2024-01-01" then ValidDate 1704067200000
      else if s =? "2024-02-01" then ValidDate 1706745600000
      else if s =? "2024-03-01" then ValidDate 1709251200000
      else InvalidDate
  | JNull => ValidDate 0
  | JUndefined => InvalidDate
  end.

Definition dayOf (t : Z) : string :=
  if (t =? 1704067200000)%Z then "2024-01-01"
  else if (t =? 1706745600000)%Z then "2024-02-01"
  else if (t =? 1709251200000)%Z then "2024-03-01"
  else "1970-01-01".

Definition showDate (d : JsDate) : string :=
  match d with
  | ValidDate t => dayOf t
  | InvalidDate => "Invalid Date"
  end.

Definition isDigit (c : ascii) : bool :=
  let n := nat_of_ascii c in ((48 <=? n) && (n <=? 57))%nat.

Fixpoint allDigits (s : string) : bool :=
  match s with
  | EmptyString => true
  | String c s' => isDigit c && allDigits s'
  end.

Fixpoint allZeros (s : string) : bool :=
  match s with
  | EmptyString => true
  | String c s' => Ascii.eqb c "0" && allZeros s'
  end.

Definition numberTruthy (s : string) : option string :=
  if allDigits s && negb (allZeros s) then Some s else None.

Fixpoint trimEnd (s : string) : string :=
  match s with
  | EmptyString => EmptyString
  | String c s' =>
      match trimEnd s' with
      | EmptyString =>
          if Ascii.eqb c " " || Ascii.eqb c (ascii_of_nat 10) then EmptyString
          else String c EmptyString
      | t => String c t
      end
  end.

(** JSON text, on one line and without escapes. *)
Fixpoint jsonText (j : Json) : string :=
  match j with
  | JsonNull => "null"
  | JsonString s => String dq s ++ String dq EmptyString
  | JsonArray items => "[" ++ String.concat "," (map jsonText items) ++ "]"
  | JsonObject members =>
      "{" ++ String.concat ","
               (map (fun kv => String dq (fst kv) ++ String dq ":" ++ jsonText (snd kv))
                    members)
          ++ "}"
  end.

Definition indexTemplate : string :=
  "<main><!-- TAG_FILTERS --><!-- PORTFOLIO_ITEMS --></main>".

Definition pageTemplate : string :=
  "<head><title><!-- BLOG_TITLE --></title><!-- OG_TAGS --></head><main><!-- BLOG_ITEM --></main>".

Section Platform.

Variable ffmpegInstalled : bool.
Variable posts : list Post.

Definition Files : Type := list (string * Z).

Definition exec (cmd : string) (files : Files) : Completion string * Files :=
  if ffmpegInstalled then
    (Normal (if prefix "ffprobe" cmd then "1200x630" ++ nl else EmptyString), files)
  else
    (Throw (mkError ("Command failed: " ++ cmd ++ nl ++ "/bin/sh: 1: "
                       ++ (if prefix "ffprobe" cmd then "ffprobe" else "ffmpeg")
                       ++ ": not found" ++ nl)),
     files).

Definition stat (path : string) (files : Files) : Completion Z :=
  match find (fun f => fst f =? path) files with
  | Some f => Normal (snd f)
  | None => Throw (mkError ("ENOENT: no such file or directory, stat " ++ path))
  end.

Definition readFile (path : string) (files : Files) : Completion string :=
  if path =? TEMPLATE_PATH then Normal indexTemplate
  else if path =? POST_TEMPLATE_PATH then Normal pageTemplate
  else match find (fun p => join CONTENT_DIR (post_file p) =? path) posts with
       | Some p => Normal (post_text p)
       | None => Throw (mkError ("ENOENT: no such file or directory, open " ++ path))
       end.

Definition parse (text : string) : Completion (Attributes * string) :=
  match find (fun p => post_text p =? text) posts with
  | Some p => Normal (post_attributes p, post_body p)
  | None => Normal (noAttributes, text)
  end.

Definition platform : Host :=
  mkHost Files
         join dirname
         parse (fun body => "<p>" ++ body ++ "</p>" ++ nl)
         parseDate (ValidDate 1709251200000)
         (fun t => dayOf t ++ "T00:00:00.000Z") showDate showDate
         trimEnd numberTruthy
         jsonText
         exec stat readFile
         (fun _ _ => Normal (map post_file posts))
         (fun _ files => (Normal tt, files))
         (fun _ files => (Normal tt, files))
         (fun _ _ files => (Normal tt, files)).

Definition start (files : Files) : @World platform := @mkWorld platform files [].

End Platform.

Definition hello : Post :=
  mkPost "hello.md" "hello"
         (mkAttributes (JStr "Hello") (JStr "2024-01-01") JUndefined
                       (Some ["music"]) (JStr "/audio/a.mp3") JUndefined
                       JUndefined JUndefined)
         "Hello, world.".

Definition note : Post :=
  mkPost "note.md" "note"
         (mkAttributes (JStr "Note") (JStr "2024-02-01") JUndefined
                       (Some ["words"]) JUndefined JUndefined
                       JUndefined JUndefined)
         "A note.".

Definition undated : Post :=
  mkPost "undated.md" "undated"
         (mkAttributes (JStr "Undated") (JStr "soon") JUndefined
                       None JUndefined JUndefined
                       JUndefined JUndefined)
         "No date yet.".

Definition readme : Post :=
  mkPost "README.txt" "readme" noAttributes "Not a post.".



(** A post without audio whose front matter has a [videoSource] key. *)
Definition pinned : Post :=
  mkPost "pinned.md" "pinned"
         (mkAttributes (JStr "Pinned") (JStr "2024-03-01") JUndefined
                       (Some ["words"]) JUndefined JUndefined
                       (JStr "/video/intro.mp4") JUndefined)
         "Pinned.".

(** *** Sites and entries of the examples *)

(** The platform without the encoder, with the music post alone. *)
Definition bare : Host := platform false [hello].

Definition bare0 : @World bare := start false [hello] [].

(** A run without the encoder over a music post, a plain post and a file
    that is not a post. *)
Definition site : Host := platform false [hello; note; readme].

Definition site0 : @World site := start false [hello; note; readme] [].

(** The platform with the encoder, and a video newer than its audio. *)
Definition studio : Host := platform true [hello].

Definition studio0 : @World studio :=
  start true [hello] [("docs/audio/a.mp3", 100%Z); ("docs/audio/a.mp4", 200%Z)].

(** The plain post alone. *)
Definition plain : Host := platform false [note].

Definition plain0 : @World plain := start false [note] [].

(** The plain post and the post with a [videoSource] key of its own. *)
Definition pinboard : Host := platform false [note; pinned].

Definition pinboard0 : @World pinboard := start false [note; pinned] [].



(** A site with a post whose date cannot be read. *)
Definition draft : Host := platform false [note; undated].

Definition draft0 : @World draft := start false [note; undated] [].

(** The three posts as parsed, and the world after the waveform step of the
    music post on the platform without the encoder. *)
Definition helloEntry : Entry :=
  mkEntry (JStr "Hello") JUndefined ("<p>Hello, world.</p>" ++ nl)
          (ValidDate 1704067200000) ["music"] "hello" "hello.md"
          (JStr "/audio/a.mp3") JNull JUndefined JUndefined.

Definition noteEntry : Entry :=
  mkEntry (JStr "Note") JUndefined ("<p>A note.</p>" ++ nl)
          (ValidDate 1706745600000) ["words"] "note" "note.md"
          JNull JNull JUndefined JUndefined.

Definition pinnedEntry : Entry :=
  mkEntry (JStr "Pinned") JUndefined ("<p>Pinned.</p>" ++ nl)
          (ValidDate 1709251200000) ["words"] "pinned" "pinned.md"
          JNull JNull (JStr "/video/intro.mp4") JUndefined.

Definition undatedEntry : Entry :=
  mkEntry (JStr "Undated") JUndefined ("<p>No date yet.</p>" ++ nl)
          InvalidDate [] "undated" "undated.md"
          JNull JNull JUndefined JUndefined.

Definition afterWaveform : @World bare :=
  snd (@generateWaveformImage bare (@audioPathOf bare helloEntry)
         (@waveformPathOf bare helloEntry) (@coverOf bare helloEntry) bare0).

(** Two entries with the same date. *)
Definition first : Entry :=
  mkEntry (JStr "First") JUndefined ("<p>one</p>" ++ nl) (ValidDate 1704067200000) []
          "first" "first.md" JNull JNull JUndefined JUndefined.


(** A music post whose video field is not set, and a post with an audio
    file that is not tagged as music. *)
Definition silent : Entry :=
  mkEntry (JStr "Song") JUndefined "<p>la</p>" (ValidDate 1704067200000) ["music"]
          "song" "song.md" (JStr "/audio/a.mp3") JNull JUndefined JNull.

Definition memo : Entry :=
  mkEntry (JStr "Memo") JUndefined "<p>memo</p>" (ValidDate 1704067200000) ["words"]
          "memo" "memo.md" (JStr "/audio/memo.mp3") JNull JUndefined JUndefined.

(** The character [c], [n] times. *)
Fixpoint copies (n : nat) (c : ascii) : string :=
  match n with
  | O => EmptyString
  | S n' => String c (copies n' c)
  end.

End Demo.

(** ** Further vocabulary *)

(** A tag is left in [s]: some [<] has a [>] after it, which is when the
    pattern of [stripTags] matches. *)
Fixpoint hasTag (s : string) : bool :=
  match s with
  | EmptyString => false
  | String c s' => (Ascii.eqb c "<" && hasGt s') || hasTag s'
  end.

(** No dollar sign in a replacement text. *)
Fixpoint noDollar (s : string) : bool :=
  match s with
  | EmptyString => true
  | String c s' => negb (Ascii.eqb c "$") && noDollar s'
  end.

(** No [x] in a string. *)
Fixpoint noX (s : string) : bool :=
  match s with
  | EmptyString => true
  | String c s' => negb (Ascii.eqb c "x") && noX s'
  end.

Definition isUnlink (ev : Event) : bool :=
  match ev with
  | EvUnlink _ _ => true
  | _ => false
  end.

(** The number of commands among some events. *)
Definition execs (l : list Event) : nat := List.length (filter isExec l).

(** Strictly ascending, by code units. *)
Definition ascending (l : list string) : Prop :=
  StronglySorted (fun a b => String.ltb a b = true) l.

(** The badge of a tag in [tagsHTML] and its button in [tagFilterHTML]. *)
Definition tagBadge (tag : string) : string :=
  qq "<span class='tag' data-tag='" ++ tag ++ qq "'>" ++ tag ++ "</span>".

Definition tagButton (tag : string) : string :=
  qq "<button class='tag-filter' data-filter='" ++ tag ++ qq "'>" ++ tag ++ "</button>".

(** A [meta] tag with a [name] attribute. *)
Definition metaName (name content : string) : string :=
  (qq "<meta name='" ++ name ++ qq "' content='") ++ content ++ qq "' />".

(** The transient files and the four commands of [generateWaveformImage]. *)
Definition tempAudioOf (outputImagePath : string) : string :=
  replaceExt false imageExt "-temp.mp3" outputImagePath.

Definition tempWaveformOf (outputImagePath : string) : string :=
  replaceExt false imageExt "-waveform-temp.png" outputImagePath.

Definition probeCmd (coverImage : string) : string :=
  qq "ffprobe -v error -select_streams v:0 -show_entries stream=width,height -of csv=s=x:p=0 '"
     ++ coverImage ++ qq "'".

Definition extractCmd (audioPath outputImagePath : string) : string :=
  qq "ffmpeg -y -i '" ++ audioPath ++ qq "' -t 50 -q:a 0 '"
     ++ tempAudioOf outputImagePath ++ qq "'".

Definition waveformCmd (outputImagePath targetWidth targetHeight : string) : string :=
  qq "ffmpeg -y -i '" ++ tempAudioOf outputImagePath
     ++ qq "' -filter_complex 'compand=gain=3,showwavespic=s="
     ++ targetWidth ++ "x" ++ targetHeight
     ++ qq ":colors=white' -frames:v 1 '" ++ tempWaveformOf outputImagePath ++ qq "'".

Definition compositeCmd (outputImagePath coverImage : string) : string :=
  qq "ffmpeg -y -i '" ++ coverImage ++ qq "' -i '" ++ tempWaveformOf outputImagePath
     ++ qq "' -filter_complex '[1:v]colorchannelmixer=aa=0.5[wave];[0:v][wave]overlay=0:0' -q:v 2 '"
     ++ outputImagePath ++ qq "'".

(** What [generateVideoFromAudio] prints when it has caught an error with
    the message [msg]. *)
Definition videoFailure (audioPath msg : string) : list Event :=
  EvError ("Failed to generate video for " ++ audioPath ++ ": " ++ msg)
  :: (if includes msg "ffmpeg"
      then [EvError
              "ffmpeg not found. Please install ffmpeg to generate videos for Discord preview."]
      else []).

(** The number of entries the media loop works on. *)
Definition eligibleCount (entries : list Entry) : nat :=
  List.length (filter eligible entries).

(** An operation that only adds events to the trace, at most [n] commands
    among them. *)
Definition spends {H : Host} {A : Type} (n : nat) (m : M A) : Prop :=
  forall w, exists new,
    trace (snd (m w)) = (trace w ++ new)%list /\ (execs new <= n)%nat.

(** ** The earlier script (videos, no waveform images)

    [generateOpenGraphTags] as the same file has it in its earlier
    version. *)
Module Earlier.

Definition ogBase (entry : Entry) (description postUrl : string) : string :=
    qq "
    <meta property='og:title' content='"
    ++ toStr (title entry)
    ++ qq "' />
    <meta property='og:description' content='"
    ++ description
    ++ qq "' />
    <meta property='og:url' content='"
    ++ postUrl
    ++ qq "' />
    <meta property='og:site_name' content='"
    ++ SITE_CONFIG.title
    ++ qq "' />
    <meta name='twitter:card' content='summary' />
    <meta name='twitter:title' content='"
    ++ toStr (title entry)
    ++ qq "' />
    <meta name='twitter:description' content='"
    ++ description
    ++ qq "' />
  ".

Definition ogVideo (videoUrl audioUrl : string) : string :=
    qq "
    <meta property='og:type' content='video.other' />
    <meta property='og:video' content='"
    ++ videoUrl
    ++ qq "' />
    <meta property='og:video:secure_url' content='"
    ++ videoUrl
    ++ qq "' />
    <meta property='og:video:type' content='video/mp4' />
    <meta property='og:audio' content='"
    ++ audioUrl
    ++ qq "' />
    <meta property='og:audio:type' content='audio/mpeg' />
    <meta property='music:musician' content='"
    ++ SITE_CONFIG.author
    ++ qq "' />
    ".

Definition ogPlayer (videoUrl : string) : string :=
    qq "
    <meta name='twitter:card' content='player' />
    <meta name='twitter:player' content='"
    ++ videoUrl
    ++ qq "' />
    ".

Definition generateOpenGraphTags (entry : Entry) : string :=
  let postUrl := SITE_CONFIG.url ++ "/posts/" ++ slug entry in
  let description :=
    descriptionOr entry (stripTags (substring0 200 (content entry))) in
  let ogTags := ogBase entry description postUrl in
  if isMusicPost entry && truthy (videoSource entry) then
    let videoUrl := SITE_CONFIG.url ++ toStr (videoSource entry) in
    let audioUrl := SITE_CONFIG.url ++ toStr (musicSource entry) in
    (ogTags ++ ogVideo videoUrl audioUrl) ++ ogPlayer videoUrl
  else ogTags ++ ogArticle.

End Earlier.

(** ** A platform with a malformed post

    The platform of the examples with the encoder, except that front-matter
    rejects the text of one post. *)
Module Broken.

Definition torn : Demo.Post :=
  Demo.mkPost "torn.md" "torn" Demo.noAttributes "Unfinished.".

Definition parse (posts : list Demo.Post) (text : string)
  : Completion (Attributes * string) :=
  if text =? "torn"
  then Throw (mkError "bad indentation of a mapping entry")
  else Demo.parse posts text.

Definition platform (posts : list Demo.Post) : Host :=
  mkHost Demo.Files
         Demo.join Demo.dirname
         (parse posts) (fun body => "<p>" ++ body ++ "</p>" ++ nl)
         Demo.parseDate (ValidDate 1709251200000)
         (fun t => Demo.dayOf t ++ "T00:00:00.000Z") Demo.showDate Demo.showDate
         Demo.trimEnd Demo.numberTruthy
         Demo.jsonText
         (Demo.exec true) Demo.stat (Demo.readFile posts)
         (fun _ _ => Normal (map Demo.post_file posts))
         (fun _ files => (Normal tt, files))
         (fun _ files => (Normal tt, files))
         (fun _ _ files => (Normal tt, files)).

Definition site : Host := platform [Demo.hello; torn; Demo.note].

Definition site0 : @World site := @mkWorld site [] [].

End Broken.

(** ** Further examples *)
Module Samples.

(** The platform with the encoder, and a video older than its audio. *)
Definition stale0 : @World Demo.studio :=
  Demo.start true [Demo.hello]
             [("docs/audio/a.mp3", 200%Z); ("docs/audio/a.mp4", 100%Z)].

(** A music post as the loop leaves it when both media were made. *)
Definition track : Entry :=
  mkEntry (JStr "Track") JUndefined "<p>la</p>" (ValidDate 1704067200000) ["music"]
          "track" "track.md" (JStr "/audio/a.mp3") JNull
          (JStr "/audio/a.mp4") (JStr "/audio/a-waveform.jpg").

(** A post with a description of its own and a long content. *)
Definition essay : Entry :=
  mkEntry (JStr "Essay") JUndefined
          ("<p>" ++ Demo.copies 300 "a" ++ "</p>")
          (ValidDate 1706745600000) ["words"; "life"] "essay" "essay.md"
          JNull JNull JUndefined JUndefined.

End Samples.

(** * Properties *)

(** ** Strings *)

Lemma prefix_app (s t : string) : prefix s (s ++ t) = true.
Proof.
  induction s as [|c s IH]; simpl.
  - destruct t; reflexivity.
  - destruct (ascii_dec c c) as [_|n]; [exact IH | contradiction].
Qed.

Lemma includes_cons (c : ascii) (t s : string) :
  includes (String c t) s = if prefix s (String c t) then true else includes t s.
Proof. reflexivity. Qed.

Lemma includes_here (s t : string) : includes (s ++ t) s = true.
Proof.
  destruct (s ++ t) as [|c u] eqn:E.
  - destruct s; [reflexivity | discriminate].
  - rewrite includes_cons, <- E, prefix_app. reflexivity.
Qed.

Lemma includes_app_r (a b s : string) :
  includes b s = true -> includes (a ++ b) s = true.
Proof.
  intros Hb. induction a as [|c a IH]; [exact Hb|].
  change (String c a ++ b) with (String c (a ++ b)).
  rewrite includes_cons, IH. now destruct (prefix s (String c (a ++ b))).
Qed.

Lemma includes_mid (a s b : string) : includes (a ++ s ++ b) s = true.
Proof. apply includes_app_r, includes_here. Qed.

Lemma append_assoc (a b c : string) : (a ++ b) ++ c = a ++ b ++ c.
Proof. induction a; simpl; congruence. Qed.

Lemma prefix_split (s u : string) :
  prefix s u = true -> u = s ++ drop (String.length s) u.
Proof.
  revert u. induction s as [|d s IHs]; intros u Hp.
  - reflexivity.
  - destruct u as [|e u]; [discriminate|].
    simpl in Hp. destruct (ascii_dec d e) as [->|]; [|discriminate].
    simpl. f_equal. now apply IHs.
Qed.

Lemma includes_app_l (a b s : string) :
  includes a s = true -> includes (a ++ b) s = true.
Proof.
  induction a as [|c a IH]; intros Ha.
  - destruct s; [|discriminate]. destruct b; reflexivity.
  - rewrite includes_cons in Ha.
    destruct (prefix s (String c a)) eqn:Hp.
    + rewrite (prefix_split _ _ Hp), append_assoc. apply includes_here.
    + change (String c a ++ b) with (String c (a ++ b)).
      rewrite includes_cons, (IH Ha).
      now destruct (prefix s (String c (a ++ b))).
Qed.

Lemma substring_split (s : string) (k : nat) :
  (k <= String.length s)%nat ->
  substring 0 k s ++ substring k (String.length s - k) s = s.
Proof.
  revert k. induction s as [|c s IH]; intros k Hk; simpl in *.
  - assert (k = 0)%nat by lia. subst. reflexivity.
  - destruct k as [|k]; simpl.
    + f_equal. specialize (IH 0%nat). simpl in IH.
      assert (H0 : substring 0 0 s = EmptyString) by (destruct s; reflexivity).
      rewrite H0 in IH. simpl in IH. rewrite Nat.sub_0_r in IH.
      apply IH. lia.
    + f_equal. apply IH. lia.
Qed.

Lemma basename_stem (file ext : string) :
  endsWith file ext = true -> basename file ext ++ ext = file.
Proof.
  intros He. unfold basename. rewrite He.
  unfold endsWith in He. apply andb_prop in He as [Hle Heq].
  apply Nat.leb_le in Hle. apply String.eqb_eq in Heq.
  rewrite <- Heq at 2.
  replace (String.length ext) with
    (String.length file - (String.length file - String.length ext))%nat at 3 by lia.
  apply substring_split. lia.
Qed.

(** ** Derived media *)

Section Media.

Context {H : Host}.

Ltac host_step :=
  match goal with
  | |- context [host_exec ?c ?f] =>
      let r := fresh "r" in let f' := fresh "fs" in let E := fresh "E" in
      destruct (host_exec c f) as [r f'] eqn:E; destruct r
  | |- context [host_mkdir ?c ?f] =>
      let r := fresh "r" in let f' := fresh "fs" in let E := fresh "E" in
      destruct (host_mkdir c f) as [r f'] eqn:E; destruct r
  | |- context [host_unlink ?c ?f] =>
      let r := fresh "r" in let f' := fresh "fs" in let E := fresh "E" in
      destruct (host_unlink c f) as [r f'] eqn:E; destruct r
  | |- context [host_stat ?c ?f] =>
      let r := fresh "r" in let E := fresh "E" in
      destruct (host_stat c f) as [r|r] eqn:E
  end.

Ltac run :=
  unfold bind, tryCatch, ret, console_log, console_error, emit, execAsync,
    fs_mkdir, fs_unlink, fs_stat;
  cbn [fs trace fst snd isNormal].

Ltac close_trace :=
  cbn [fs trace]; repeat rewrite <- app_assoc; cbn [app]; reflexivity.

Lemma generateWaveformImage_spec (audioPath outputImagePath coverImage : string)
      (w : World) :
  exists r w' new,
    generateWaveformImage audioPath outputImagePath coverImage w = (Normal r, w')
    /\ trace w' = (trace w ++ new)%list
    /\ ((r = Some outputImagePath
         /\ forallb succeeded new = true
         /\ List.length (filter isExec new) = 4%nat)
        \/ (r = None /\ forallb succeeded new = false)).
Proof.
  unfold generateWaveformImage. run.
  host_step; run.
  2:{ do 3 eexists. split; [reflexivity|]. split; [close_trace|].
      right. split; reflexivity. }
  host_step; run.
  2:{ do 3 eexists. split; [reflexivity|]. split; [close_trace|].
      right. split; reflexivity. }
  host_step; run.
  2:{ do 3 eexists. split; [reflexivity|]. split; [close_trace|].
      right. split; reflexivity. }
  host_step; run.
  2:{ do 3 eexists. split; [reflexivity|]. split; [close_trace|].
      right. split; reflexivity. }
  host_step; run.
  2:{ do 3 eexists. split; [reflexivity|]. split; [close_trace|].
      right. split; reflexivity. }
  host_step; run.
  2:{ do 3 eexists. split; [reflexivity|]. split; [close_trace|].
      right. split; reflexivity. }
  host_step; run.
  2:{ do 3 eexists. split; [reflexivity|]. split; [close_trace|].
      right. split; reflexivity. }
  do 3 eexists. split; [reflexivity|]. split; [close_trace|].
  left. repeat split; reflexivity.
Qed.

Lemma total_ret {A : Type} (a : A) : total (ret a).
Proof. intros w. unfold ret. eauto. Qed.

Lemma total_bind {A B : Type} (m : M A) (k : A -> M B) :
  total m -> (forall a, total (k a)) -> total (bind m k).
Proof.
  intros Hm Hk w. unfold bind.
  destruct (Hm w) as (a & w1 & ->). apply Hk.
Qed.

Lemma total_tryCatch {A : Type} (m : M A) (h : JsError -> M A) :
  (forall e, total (h e)) -> total (tryCatch m h).
Proof.
  intros Hh w. unfold tryCatch.
  destruct (m w) as [[a|e] w1]; [eauto | apply Hh].
Qed.

Lemma total_emit (ev : Event) : total (emit ev).
Proof. intros w. unfold emit. eauto. Qed.

Lemma total_mapM {A B : Type} (f : A -> M B) (l : list A) :
  (forall a, total (f a)) -> total (mapM f l).
Proof.
  intros Hf. induction l as [|x l IH]; simpl.
  - apply total_ret.
  - apply total_bind; [apply Hf|]. intros y.
    apply total_bind; [exact IH|]. intros ys. apply total_ret.
Qed.

Lemma quiet_ret {A : Type} (a : A) : quiet (ret a).
Proof. intros w. exists []. split; [symmetry; apply app_nil_r | reflexivity]. Qed.

Lemma quiet_liftC {A : Type} (c : Completion A) : quiet (liftC c).
Proof. intros w. exists []. split; [symmetry; apply app_nil_r | reflexivity]. Qed.

Lemma quiet_bind {A B : Type} (m : M A) (k : A -> M B) :
  quiet m -> (forall a, quiet (k a)) -> quiet (bind m k).
Proof.
  intros Hm Hk w. unfold bind.
  destruct (Hm w) as (n1 & H1 & F1).
  destruct (m w) as [[a|e] w1]; cbn [snd] in *.
  - destruct (Hk a w1) as (n2 & H2 & F2).
    exists (n1 ++ n2)%list. split.
    + rewrite H2, H1. symmetry. apply app_assoc.
    + rewrite filter_app, F1, F2. reflexivity.
  - exists n1. split; assumption.
Qed.

Lemma quiet_tryCatch {A : Type} (m : M A) (h : JsError -> M A) :
  quiet m -> (forall e, quiet (h e)) -> quiet (tryCatch m h).
Proof.
  intros Hm Hh w. unfold tryCatch.
  destruct (Hm w) as (n1 & H1 & F1).
  destruct (m w) as [[a|e] w1]; cbn [snd] in *.
  - exists n1. split; assumption.
  - destruct (Hh e w1) as (n2 & H2 & F2).
    exists (n1 ++ n2)%list. split.
    + rewrite H2, H1. symmetry. apply app_assoc.
    + rewrite filter_app, F1, F2. reflexivity.
Qed.

Lemma quiet_emit (ev : Event) : isWrite ev = false -> quiet (emit ev).
Proof.
  intros Hev w. exists [ev]. split; [reflexivity|].
  cbn [filter]. now rewrite Hev.
Qed.

Lemma quiet_execAsync (cmd : string) : quiet (execAsync cmd).
Proof.
  intros w. unfold execAsync. destruct (host_exec cmd (fs w)) as [r f].
  eexists. split; reflexivity.
Qed.

Lemma quiet_mkdir (path : string) : quiet (fs_mkdir path).
Proof.
  intros w. unfold fs_mkdir. destruct (host_mkdir path (fs w)) as [r f].
  eexists. split; reflexivity.
Qed.

Lemma quiet_unlink (path : string) : quiet (fs_unlink path).
Proof.
  intros w. unfold fs_unlink. destruct (host_unlink path (fs w)) as [r f].
  eexists. split; reflexivity.
Qed.

Lemma quiet_stat (path : string) : quiet (fs_stat path).
Proof. intros w. exists []. split; [symmetry; apply app_nil_r | reflexivity]. Qed.

Lemma quiet_readFile (path : string) : quiet (fs_readFile path).
Proof. intros w. exists []. split; [symmetry; apply app_nil_r | reflexivity]. Qed.

Lemma quiet_readdir (path : string) : quiet (fs_readdir path).
Proof. intros w. exists []. split; [symmetry; apply app_nil_r | reflexivity]. Qed.

Lemma quiet_mapM {A B : Type} (f : A -> M B) (l : list A) :
  (forall a, quiet (f a)) -> quiet (mapM f l).
Proof.
  intros Hf. induction l as [|x l IH]; simpl.
  - apply quiet_ret.
  - apply quiet_bind; [apply Hf|]. intros y.
    apply quiet_bind; [exact IH|]. intros ys. apply quiet_ret.
Qed.

Ltac quiet_tac :=
  repeat first
    [ apply quiet_ret | apply quiet_liftC
    | apply quiet_execAsync | apply quiet_mkdir | apply quiet_unlink
    | apply quiet_stat | apply quiet_readFile | apply quiet_readdir
    | (apply quiet_emit; reflexivity)
    | (apply quiet_bind; [| intro])
    | (apply quiet_tryCatch; [| intro])
    | match goal with |- quiet (if ?b then _ else _) => destruct b end
    | match goal with |- quiet (match ?o with _ => _ end) => destruct o end ].

Lemma generateWaveformImage_quiet (audioPath outputImagePath coverImage : string) :
  quiet (generateWaveformImage audioPath outputImagePath coverImage).
Proof. unfold generateWaveformImage, console_log, console_error. quiet_tac. Qed.

Lemma videoUpToDate_quiet (audioPath outputVideoPath : string) :
  quiet (videoUpToDate audioPath outputVideoPath).
Proof. unfold videoUpToDate, console_log. quiet_tac. Qed.

Lemma generateVideoFromAudio_quiet (audioPath outputVideoPath coverImage : string) :
  quiet (generateVideoFromAudio audioPath outputVideoPath coverImage).
Proof.
  unfold generateVideoFromAudio, console_log, console_error.
  apply quiet_tryCatch.
  - apply quiet_bind; [apply quiet_execAsync|]. intros _.
    apply quiet_bind; [apply videoUpToDate_quiet|]. intros b. quiet_tac.
  - intros e. quiet_tac.
Qed.

Lemma generateMedia_quiet (entry : Entry) : quiet (generateMedia entry).
Proof.
  unfold generateMedia. destruct (eligible entry); [|apply quiet_ret].
  apply quiet_bind; [apply generateWaveformImage_quiet|]. intros r.
  apply quiet_bind; [apply generateVideoFromAudio_quiet|]. intros _.
  apply quiet_ret.
Qed.

Lemma generateWaveformImage_total (audioPath outputImagePath coverImage : string) :
  total (generateWaveformImage audioPath outputImagePath coverImage).
Proof.
  apply total_tryCatch. intros e.
  apply total_bind; [apply total_emit | intros _; apply total_ret].
Qed.

Lemma generateVideoFromAudio_total (audioPath outputVideoPath coverImage : string) :
  total (generateVideoFromAudio audioPath outputVideoPath coverImage).
Proof.
  apply total_tryCatch. intros e.
  apply total_bind; [apply total_emit | intros _].
  destruct (includes (message e) "ffmpeg"); [apply total_emit | apply total_ret].
Qed.

Lemma generateMedia_total (entry : Entry) : total (generateMedia entry).
Proof.
  unfold generateMedia. destruct (eligible entry); [|apply total_ret].
  apply total_bind; [apply generateWaveformImage_total|]. intros r.
  apply total_bind; [apply generateVideoFromAudio_total|]. intros _.
  apply total_ret.
Qed.

Lemma generateMedia_run (entry : Entry) (w : World) :
  eligible entry = true ->
  exists r w1 w2,
    generateWaveformImage (audioPathOf entry) (waveformPathOf entry) (coverOf entry) w
      = (Normal r, w1)
    /\ generateVideoFromAudio (audioPathOf entry) (videoPathOf entry)
                              (videoImageOf entry r) w1 = (Normal tt, w2)
    /\ generateMedia entry w = (Normal (withMedia entry r), w2).
Proof.
  intros He. unfold generateMedia. rewrite He.
  fold (audioPathOf entry) (coverOf entry).
  fold (videoPathOf entry) (waveformPathOf entry).
  destruct (generateWaveformImage_total (audioPathOf entry) (waveformPathOf entry)
              (coverOf entry) w) as (r & w1 & Hr).
  destruct (generateVideoFromAudio_total (audioPathOf entry) (videoPathOf entry)
              (videoImageOf entry r) w1) as ([] & w2 & Hv).
  exists r, w1, w2. split; [exact Hr|]. split; [exact Hv|].
  unfold bind. rewrite Hr. fold (videoImageOf entry r). rewrite Hv. reflexivity.
Qed.

Lemma generateMedia_skip (entry : Entry) (w : World) :
  eligible entry = false -> generateMedia entry w = (Normal entry, w).
Proof. intros He. unfold generateMedia. now rewrite He. Qed.

(** Claim C3.  When the output video exists and is newer than the audio
    file, [generateVideoFromAudio] runs the version query and nothing else:
    the encoder command is not run, no directory is made, the file system
    is as it was, and so is the modification time of the video.  (The
    version query is taken not to touch the file system.) *)
Theorem generateVideoFromAudio_skips (audioPath outputVideoPath coverImage : string)
        (w : World) (ta tv : Z) :
  host_stat audioPath (fs w) = Normal ta ->
  host_stat outputVideoPath (fs w) = Normal tv ->
  (ta < tv)%Z ->
  (forall f, snd (host_exec "ffmpeg -version" f) = f) ->
  exists w' ok logs,
    generateVideoFromAudio audioPath outputVideoPath coverImage w = (Normal tt, w')
    /\ fs w' = fs w
    /\ host_stat outputVideoPath (fs w') = Normal tv
    /\ trace w' = (trace w ++ EvExec "ffmpeg -version" ok :: logs)%list
    /\ forallb isConsole logs = true
    /\ (ok = true ->
        logs = [EvLog ("Video " ++ outputVideoPath ++ " is up to date")]).
Proof.
  intros Ha Hv Hlt Hpure.
  unfold generateVideoFromAudio, videoUpToDate. run.
  specialize (Hpure (fs w)).
  destruct (host_exec "ffmpeg -version" (fs w)) as [r f] eqn:E.
  cbn [snd] in Hpure. subst f. destruct r as [out|e]; run.
  - rewrite Ha, Hv. apply Z.ltb_lt in Hlt. rewrite Hlt. cbn [fs trace].
    do 3 eexists. split; [reflexivity|]. split; [reflexivity|].
    split; [exact Hv|].
    split; [close_trace|]. split; [reflexivity|]. reflexivity.
  - destruct (includes (message e) "ffmpeg").
    + do 3 eexists. split; [reflexivity|]. split; [reflexivity|].
      split; [exact Hv|].
      split; [close_trace|]. split; [reflexivity|]. discriminate.
    + do 3 eexists. split; [reflexivity|]. split; [reflexivity|].
      split; [exact Hv|].
      split; [close_trace|]. split; [reflexivity|]. discriminate.
Qed.

End Media.

(** ** The order of the entries *)

Lemma sortCompare_valid (x y : Entry) :
  validDate (date x) = true -> validDate (date y) = true ->
  sortCompare x y = (time y - time x)%Z.
Proof.
  unfold sortCompare, comparefn, dateMinus, time.
  destruct (date x), (date y); simpl; intros; congruence.
Qed.

Lemma insertEntry_perm (x : Entry) (l : list Entry) :
  Permutation (insertEntry x l) (x :: l).
Proof.
  induction l as [|y l IH]; simpl; [apply Permutation_refl|].
  destruct (0 <? sortCompare x y)%Z.
  - eapply perm_trans; [apply perm_skip, IH | apply perm_swap].
  - apply Permutation_refl.
Qed.

Lemma sortEntries_perm (l : list Entry) : Permutation (sortEntries l) l.
Proof.
  induction l as [|x l IH]; simpl; [constructor|].
  eapply perm_trans; [apply insertEntry_perm | now apply perm_skip].
Qed.

Lemma allValid_perm (l l' : list Entry) :
  Permutation l l' -> allValid l = true -> allValid l' = true.
Proof.
  unfold allValid. intros Hp Hv. rewrite forallb_forall in *.
  intros e He. apply Hv. eapply Permutation_in; [symmetry; exact Hp | exact He].
Qed.

Lemma insertEntry_descending (x : Entry) (l : list Entry) :
  validDate (date x) = true -> allValid l = true ->
  descending l -> descending (insertEntry x l).
Proof.
  intros Hx Hl Hs. induction l as [|y l IH]; simpl.
  - repeat constructor.
  - simpl in Hl. apply andb_prop in Hl as [Hy Hl].
    apply StronglySorted_inv in Hs as [Hs Hall].
    rewrite (sortCompare_valid x y Hx Hy).
    destruct (0 <? time y - time x)%Z eqn:Hc.
    + apply Z.ltb_lt in Hc. constructor; [now apply IH|].
      rewrite Forall_forall in *. intros z Hz.
      apply (Permutation_in _ (insertEntry_perm x l)) in Hz.
      destruct Hz as [<-|Hz]; [lia | now apply Hall].
    + apply Z.ltb_ge in Hc. constructor; [now constructor|].
      constructor; [lia|].
      rewrite Forall_forall in *. intros z Hz. specialize (Hall z Hz). lia.
Qed.

Lemma sortEntries_descending (l : list Entry) :
  allValid l = true -> descending (sortEntries l).
Proof.
  induction l as [|x l IH]; simpl; intros Hv; [constructor|].
  apply andb_prop in Hv as [Hx Hl].
  apply insertEntry_descending; auto.
  apply (allValid_perm l); [symmetry; apply sortEntries_perm | exact Hl].
Qed.





(** ** The build, phase by phase *)

Section Pipeline.

Context {H : Host}.

Lemma jsOr_null_defined (v : JsVal) : jsOr v JNull <> JUndefined.
Proof. unfold jsOr. destruct v as [| |s]; simpl; try discriminate.
       destruct (negb (s =? "")); discriminate. Qed.

Lemma parseEntry_inv (file : string) (w w' : World) (e : Entry) :
  parseEntry file w = (Normal e, w') -> w' = w /\ parsedFrom (fs w) file e.
Proof.
  unfold parseEntry, bind, fs_readFile, liftC, ret.
  destruct (host_readFile (path_join CONTENT_DIR file) (fs w)) as [text|err] eqn:Er;
    [|discriminate].
  destruct (frontMatter text) as [[attributes body]|err] eqn:Ef; [|discriminate].
  cbn [fst snd]. intros E. injection E as <- <-.
  split; [reflexivity|]. unfold parsedFrom. cbn [filename slug videoSource
    waveformImage musicSource date title].
  do 2 (split; [reflexivity|]). split; [apply jsOr_null_defined|].
  exists text, attributes, body. repeat split; assumption.
Qed.

Lemma mapM_parseEntry_inv (files : list string) (w w' : World) (es : list Entry) :
  mapM parseEntry files w = (Normal es, w') ->
  w' = w /\ Forall2 (parsedFrom (fs w)) files es.
Proof.
  revert w w' es. induction files as [|f files IH]; intros w w' es; simpl.
  - unfold ret. intros E. injection E as <- <-. split; constructor.
  - unfold bind at 1.
    destruct (parseEntry f w) as [[e|err] w1] eqn:Ep; [|discriminate].
    apply parseEntry_inv in Ep as [-> Hp].
    unfold bind at 1.
    destruct (mapM parseEntry files w) as [[es'|err] w2] eqn:Em; [|discriminate].
    apply IH in Em as [-> Hall].
    unfold ret. intros E. injection E as <- <-.
    split; [reflexivity | now constructor].
Qed.

Lemma readEntries_inv (w w' : World) (es : list Entry) :
  readEntries w = (Normal es, w') ->
  w' = w /\ exists files,
    host_readdir CONTENT_DIR (fs w) = Normal files
    /\ Forall2 (parsedFrom (fs w)) (markdownFilesOf files) es.
Proof.
  unfold readEntries, bind at 1, fs_readdir.
  destruct (host_readdir CONTENT_DIR (fs w)) as [files|err]; [|discriminate].
  intros Em. apply mapM_parseEntry_inv in Em as [-> Hall].
  split; [reflexivity|]. exists files. split; [reflexivity | exact Hall].
Qed.

Lemma generateMedia_inv (e0 : Entry) (w : World) :
  exists e w' new,
    generateMedia e0 w = (Normal e, w')
    /\ trace w' = (trace w ++ new)%list
    /\ filter isWrite new = []
    /\ mediaOf e0 e.
Proof.
  destruct (generateMedia_quiet e0 w) as (new & Hn & Hq).
  unfold mediaOf. destruct (eligible e0) eqn:He.
  - destruct (generateMedia_run e0 w He) as (r & w1 & w2 & _ & _ & Hg).
    rewrite Hg in Hn. cbn [snd] in Hn.
    exists (withMedia e0 r), w2, new. eauto.
  - rewrite (generateMedia_skip e0 w He) in *. cbn [snd] in Hn.
    exists e0, w, new. auto.
Qed.

Lemma mapM_generateMedia_inv (es0 : list Entry) (w : World) :
  exists es w' new,
    mapM generateMedia es0 w = (Normal es, w')
    /\ trace w' = (trace w ++ new)%list
    /\ filter isWrite new = []
    /\ Forall2 mediaOf es0 es.
Proof.
  revert w. induction es0 as [|e0 es0 IH]; intros w; simpl.
  - exists [], w, []. unfold ret. rewrite app_nil_r. repeat split; constructor.
  - destruct (generateMedia_inv e0 w) as (e & w1 & n1 & Hg & Ht1 & Hq1 & Hm).
    destruct (IH w1) as (es & w2 & n2 & Hgs & Ht2 & Hq2 & Hms).
    exists (e :: es), w2, (n1 ++ n2)%list.
    unfold bind, ret. rewrite Hg, Hgs.
    split; [reflexivity|]. split; [now rewrite Ht2, Ht1, app_assoc|].
    split; [now rewrite filter_app, Hq1, Hq2|]. now constructor.
Qed.

(** The manifest. *)
Lemma postsMetadata_inv (l : list Entry) (objs : list (list (string * PropVal))) :
  postsMetadata l = Normal objs ->
  allValid l = true /\ Forall2 (fun e o => postMetadata e = Normal o) l objs.
Proof.
  revert objs. induction l as [|e l IH]; intros objs; simpl.
  - intros E. injection E as <-. split; constructor.
  - destruct (postMetadata e) as [o|err] eqn:Eo; [|discriminate].
    destruct (postsMetadata l) as [os|err]; [|discriminate].
    intros E. injection E as <-. destruct (IH os eq_refl) as [Hv Hall].
    split; [|now constructor].
    rewrite Hv, andb_true_r. unfold postMetadata, toISOString in Eo.
    destruct (date e); [reflexivity | discriminate].
Qed.

Lemma postsMetadata_invalid (l : list Entry) :
  allValid l = false ->
  postsMetadata l = Throw (mkError "Invalid time value").
Proof.
  induction l as [|e l IH]; simpl; [discriminate|].
  unfold postMetadata, toISOString. destruct (date e); simpl.
  - intros Hl. now rewrite (IH Hl).
  - reflexivity.
Qed.

Lemma mapM_renderEntry (postTemplate : string) (l : list Entry) (w : World) :
  exists w' pages,
    mapM (renderEntry postTemplate) l w = (Normal (map portfolioItem l), w')
    /\ trace w' = (trace w ++ pages)%list
    /\ Forall2 (pageEvent postTemplate) l pages.
Proof.
  revert w. induction l as [|e l IH]; intros w; simpl.
  - exists w, []. unfold ret. rewrite app_nil_r. repeat split; constructor.
  - unfold bind at 1. unfold renderEntry at 1.
    unfold bind at 1, detach, writePost, fs_writeFile, ret at 1.
    destruct (host_writeFile (postPath e) (postHTML e postTemplate (tagsHTML e)) (fs w))
      as [r f] eqn:Ew. cbn [snd].
    match goal with |- context [bind _ _ ?w1] => destruct (IH w1) as (w2 & pages & Hm & Ht & Hp) end.
    unfold bind, ret. rewrite Hm.
    eexists w2, (_ :: pages). split; [reflexivity|].
    split; [rewrite Ht; cbn [trace]; now rewrite <- app_assoc|].
    constructor; [eexists; reflexivity | exact Hp].
Qed.

Lemma assemble_normal (template postTemplate : string) (es : list Entry)
      (w w' : World) :
  assemble template postTemplate es w = (Normal tt, w') ->
  exists objs pages,
    postsMetadata (sortEntries es) = Normal objs
    /\ Forall2 (pageEvent postTemplate) (sortEntries es) pages
    /\ trace w' =
       (trace w
          ++ [EvWriteFile (path_join OUTPUT_DIR "posts.json") (postsJson objs) true]
          ++ pages ++ closingEvents template (sortEntries es))%list.
Proof.
  unfold assemble. unfold bind at 1, liftC.
  destruct (postsMetadata (sortEntries es)) as [objs|err]; [|discriminate].
  unfold bind at 1, fs_writeFile at 1.
  destruct (host_writeFile (path_join OUTPUT_DIR "posts.json") (postsJson objs) (fs w))
    as [r1 f1]. destruct r1 as [[]|err]; [|discriminate].
  unfold bind at 1.
  match goal with |- context [mapM _ _ ?w1] =>
    destruct (mapM_renderEntry postTemplate (sortEntries es) w1)
      as (w2 & pages & Hm & Ht & Hp) end.
  rewrite Hm.
  unfold bind at 1, fs_writeFile at 1.
  match goal with |- context [host_writeFile ?p ?d (fs w2)] =>
    destruct (host_writeFile p d (fs w2)) as [r2 f2] end.
  destruct r2 as [[]|err]; [|discriminate].
  unfold bind at 1, generateRSSFeed, fs_writeFile.
  cbn [fs trace].
  match goal with |- context [host_writeFile ?p ?d f2] =>
    destruct (host_writeFile p d f2) as [r3 f3] end.
  destruct r3 as [[]|err]; [|discriminate].
  unfold bind, console_log, emit. cbn [fs trace isNormal].
  intros E. injection E as <-. exists objs, pages.
  split; [reflexivity|]. split; [exact Hp|].
  cbn [trace]. rewrite Ht. cbn [trace isNormal].
  unfold closingEvents, summaryLine, indexHTML.
  repeat rewrite <- app_assoc. reflexivity.
Qed.

Lemma assemble_throw (template postTemplate : string) (es : list Entry)
      (w : World) (err : JsError) :
  postsMetadata (sortEntries es) = Throw err ->
  assemble template postTemplate es w = (Throw err, w).
Proof. intros E. unfold assemble, bind at 1, liftC. now rewrite E. Qed.

End Pipeline.

(** ** The whole run *)

Section Site.

Context {H : Host}.

Lemma generateSite_setup (w : World) :
  generateSite w =
  match setup w with
  | (Normal (template, postTemplate, entries), w1) =>
      bind (mapM generateMedia entries) (assemble template postTemplate) w1
  | (Throw e, w1) => (Throw e, w1)
  end.
Proof.
  unfold generateSite, setup.
  unfold bind at 1. unfold bind at 5.
  destruct (fs_mkdir OUTPUT_DIR w) as [[[]|e] w1]; [|reflexivity].
  unfold bind at 1. unfold bind at 4.
  destruct (fs_readFile TEMPLATE_PATH w1) as [[t|e] w2]; [|reflexivity].
  unfold bind at 1. unfold bind at 3.
  destruct (fs_readFile POST_TEMPLATE_PATH w2) as [[pt|e] w3]; [|reflexivity].
  unfold bind at 1. unfold bind at 2.
  destruct (readEntries w3) as [[es|e] w4]; reflexivity.
Qed.

Lemma readEntries_quiet : quiet readEntries.
Proof.
  unfold readEntries. apply quiet_bind; [apply quiet_readdir|]. intros files.
  apply quiet_mapM. intros f. unfold parseEntry.
  apply quiet_bind; [apply quiet_readFile|]. intros c.
  apply quiet_bind; [apply quiet_liftC|]. intros p. apply quiet_ret.
Qed.

Lemma setup_quiet : quiet setup.
Proof.
  unfold setup.
  apply quiet_bind; [apply quiet_mkdir|]. intros _.
  apply quiet_bind; [apply quiet_readFile|]. intros t.
  apply quiet_bind; [apply quiet_readFile|]. intros pt.
  apply quiet_bind; [apply readEntries_quiet|]. intros es. apply quiet_ret.
Qed.

Lemma setup_inv (w w1 : World) (template postTemplate : string) (es0 : list Entry) :
  setup w = (Normal (template, postTemplate, es0), w1) ->
  exists files,
    host_readdir CONTENT_DIR (snd (host_mkdir OUTPUT_DIR (fs w))) = Normal files
    /\ Forall2 (parsedFrom (snd (host_mkdir OUTPUT_DIR (fs w))))
               (markdownFilesOf files) es0.
Proof.
  unfold setup, bind at 1, fs_mkdir.
  destruct (host_mkdir OUTPUT_DIR (fs w)) as [r f]. cbn [snd].
  destruct r as [[]|e]; [|discriminate].
  unfold bind at 1, fs_readFile at 1. cbn [fs].
  destruct (host_readFile TEMPLATE_PATH f) as [t|e]; [|discriminate].
  unfold bind at 1, fs_readFile at 1. cbn [fs].
  destruct (host_readFile POST_TEMPLATE_PATH f) as [pt|e]; [|discriminate].
  unfold bind at 1.
  match goal with |- context [readEntries ?w0] =>
    destruct (readEntries w0) as [[es|e] w2] eqn:Er end; [|discriminate].
  apply readEntries_inv in Er as [-> (files & Hd & Hp)]. cbn [fs] in Hd, Hp.
  unfold ret. intros E. injection E as <- <- <- <-.
  exists files. split; assumption.
Qed.

Lemma mediaOf_date (e0 e : Entry) : mediaOf e0 e -> date e = date e0.
Proof.
  unfold mediaOf. destruct (eligible e0).
  - intros (r & ->). reflexivity.
  - now intros ->.
Qed.

Lemma mediaOf_allValid (es0 es : list Entry) :
  Forall2 mediaOf es0 es -> allValid es = allValid es0.
Proof.
  induction 1 as [|e0 e l0 l Hm _ IH]; [reflexivity|].
  simpl. rewrite IH, (mediaOf_date _ _ Hm). reflexivity.
Qed.

Lemma allValid_sort (l : list Entry) : allValid (sortEntries l) = allValid l.
Proof.
  destruct (allValid l) eqn:E.
  - apply (allValid_perm l); [symmetry; apply sortEntries_perm | exact E].
  - destruct (allValid (sortEntries l)) eqn:E'; [|reflexivity].
    rewrite <- E. symmetry.
    apply (allValid_perm (sortEntries l)); [apply sortEntries_perm | exact E'].
Qed.

(** A normal run, as a trace: nothing is written before the manifest, then
    come the pages in the order of the sorted entries, the home page and
    the feed. *)
Lemma generateSite_normal (w w' : World) :
  generateSite w = (Normal tt, w') ->
  exists files es0 es template postTemplate pre objs pages,
    host_readdir CONTENT_DIR (snd (host_mkdir OUTPUT_DIR (fs w))) = Normal files
    /\ Forall2 (parsedFrom (snd (host_mkdir OUTPUT_DIR (fs w))))
               (markdownFilesOf files) es0
    /\ Forall2 mediaOf es0 es
    /\ filter isWrite pre = []
    /\ postsMetadata (sortEntries es) = Normal objs
    /\ Forall2 (pageEvent postTemplate) (sortEntries es) pages
    /\ trace w' =
       (trace w ++ pre
          ++ [EvWriteFile (path_join OUTPUT_DIR "posts.json") (postsJson objs) true]
          ++ pages ++ closingEvents template (sortEntries es))%list.
Proof.
  rewrite generateSite_setup.
  destruct (setup_quiet w) as (n1 & Ht1 & Hq1).
  destruct (setup w) as [[[[t pt] es0]|e] w1] eqn:Es; [|discriminate].
  cbn [snd] in Ht1. apply setup_inv in Es as (files & Hd & Hp).
  destruct (mapM_generateMedia_inv es0 w1) as (es & w2 & n2 & Hm & Ht2 & Hq2 & Hmed).
  unfold bind. rewrite Hm. intros Ha.
  apply assemble_normal in Ha as (objs & pages & Ho & Hpg & Ht3).
  exists files, es0, es, t, pt, (n1 ++ n2)%list, objs, pages.
  repeat (split; [assumption|]).
  split; [now rewrite filter_app, Hq1, Hq2|].
  repeat (split; [assumption|]).
  rewrite Ht3, Ht2, Ht1. now rewrite <- !app_assoc.
Qed.

(** A run whose entries include an invalid date stops when the manifest
    records are built, before any file is written. *)
Lemma generateSite_invalid (w w1 : World) (template postTemplate : string)
      (es0 : list Entry) :
  setup w = (Normal (template, postTemplate, es0), w1) ->
  allValid es0 = false ->
  exists w' new,
    generateSite w = (Throw (mkError "Invalid time value"), w')
    /\ trace w' = (trace w ++ new)%list
    /\ filter isWrite new = [].
Proof.
  intros Es Hv. rewrite generateSite_setup.
  destruct (setup_quiet w) as (n1 & Ht1 & Hq1). rewrite Es in *. cbn [snd] in Ht1.
  destruct (mapM_generateMedia_inv es0 w1) as (es & w2 & n2 & Hm & Ht2 & Hq2 & Hmed).
  unfold bind. rewrite Hm.
  rewrite (assemble_throw template postTemplate es w2 (mkError "Invalid time value")).
  - exists w2, (n1 ++ n2)%list. split; [reflexivity|].
    split; [now rewrite Ht2, Ht1, app_assoc | now rewrite filter_app, Hq1, Hq2].
  - apply postsMetadata_invalid.
    now rewrite allValid_sort, (mediaOf_allValid _ _ Hmed).
Qed.

End Site.

(** ** Finding a tag in a template *)

Lemma endsWith_split (s suffix : string) :
  endsWith s suffix = true ->
  s = substring 0 (String.length s - String.length suffix) s ++ suffix.
Proof.
  intros He. pose proof (basename_stem s suffix He) as Hb.
  unfold basename in Hb. rewrite He in Hb. now symmetry.
Qed.

(** [l1 ++ v ++ l2 ++ rest] contains [t1 ++ v ++ t2] when the literal [l1]
    ends with [t1] and the literal [l2] starts with [t2]. *)
Lemma includes_interp (l1 l2 t1 t2 v rest : string) :
  endsWith l1 t1 = true -> prefix t2 l2 = true ->
  includes (l1 ++ v ++ l2 ++ rest) (t1 ++ v ++ t2) = true.
Proof.
  intros H1 H2.
  rewrite (endsWith_split _ _ H1), (prefix_split _ _ H2).
  rewrite !append_assoc.
  rewrite <- (append_assoc v t2), <- (append_assoc t1 (v ++ t2)).
  apply includes_mid.
Qed.

Lemma append_nil_r (s : string) : s ++ EmptyString = s.
Proof. induction s; simpl; congruence. Qed.

Lemma includes_refl (s : string) : includes s s = true.
Proof. rewrite <- (append_nil_r s) at 1. apply includes_here. Qed.

Lemma includes_interp_end (l1 l2 t1 t2 v : string) :
  endsWith l1 t1 = true -> prefix t2 l2 = true ->
  includes (l1 ++ v ++ l2) (t1 ++ v ++ t2) = true.
Proof.
  intros H1 H2. rewrite <- (append_nil_r l2). now apply includes_interp.
Qed.

Lemma ogVideo_tags (videoUrl audioUrl : string) :
  includes (ogVideo videoUrl audioUrl) (metaProperty "og:type" "video.other") = true
  /\ includes (ogVideo videoUrl audioUrl) (metaProperty "og:video" videoUrl) = true
  /\ includes (ogVideo videoUrl audioUrl) (metaProperty "og:audio" audioUrl) = true.
Proof.
  unfold ogVideo. split; [|split].
  - apply includes_app_l. reflexivity.
  - unfold metaProperty. apply includes_interp; reflexivity.
  - do 4 apply includes_app_r.
    unfold metaProperty. apply includes_interp; reflexivity.
Qed.

(** ** Stripping tags, cutting and replacing *)

Lemma hasGt_stripFrom (inTag : bool) (s : string) :
  hasGt (stripFrom inTag s) = true -> hasGt s = true.
Proof.
  revert inTag. induction s as [|c s IH]; intros inTag; [intros E; exact E|].
  cbn [stripFrom hasGt]. destruct inTag.
  - destruct (Ascii.eqb c ">"); [reflexivity | apply IH].
  - destruct (Ascii.eqb c "<" && hasGt s).
    + intros E. apply IH in E. rewrite E. now destruct (Ascii.eqb c ">").
    + cbn [hasGt]. destruct (Ascii.eqb c ">"); [reflexivity | apply IH].
Qed.

Lemma hasTag_stripFrom (inTag : bool) (s : string) :
  hasTag (stripFrom inTag s) = false.
Proof.
  revert inTag. induction s as [|c s IH]; intros inTag; [reflexivity|].
  cbn [stripFrom]. destruct inTag.
  - destruct (Ascii.eqb c ">"); apply IH.
  - destruct (Ascii.eqb c "<" && hasGt s) eqn:E; [apply IH|].
    cbn [hasTag]. rewrite IH, orb_false_r.
    destruct (Ascii.eqb c "<"); [|reflexivity]. cbn [andb] in *.
    destruct (hasGt (stripFrom false s)) eqn:G; [|reflexivity].
    apply hasGt_stripFrom in G. congruence.
Qed.

Lemma length_stripFrom (inTag : bool) (s : string) :
  (String.length (stripFrom inTag s) <= String.length s)%nat.
Proof.
  revert inTag. induction s as [|c s IH]; intros inTag; [apply Nat.le_refl|].
  cbn [stripFrom]. destruct inTag.
  - destruct (Ascii.eqb c ">"); cbn [String.length];
      match goal with |- context [stripFrom ?b s] => specialize (IH b) end; lia.
  - destruct (Ascii.eqb c "<" && hasGt s); cbn [String.length];
      match goal with |- context [stripFrom ?b s] => specialize (IH b) end; lia.
Qed.

Lemma stripFrom_without_tag (s : string) :
  hasTag s = false -> stripFrom false s = s.
Proof.
  induction s as [|c s IH]; [reflexivity|].
  cbn [hasTag stripFrom]. intros E. apply orb_false_elim in E as [E1 E2].
  rewrite E1. f_equal. now apply IH.
Qed.

Lemma length_substring_le (n m : nat) (s : string) :
  (String.length (substring n m s) <= m)%nat.
Proof.
  revert n m. induction s as [|c s IH]; intros n m.
  - destruct n, m; cbn; lia.
  - destruct n as [|n].
    + destruct m as [|m]; cbn [substring String.length]; [lia|].
      specialize (IH 0%nat m). lia.
    + cbn [substring]. apply IH.
Qed.

Lemma length_append (a b : string) :
  String.length (a ++ b) = (String.length a + String.length b)%nat.
Proof. induction a; cbn; congruence. Qed.

Lemma findFirst_cons (pat : string) (c : ascii) (s : string) :
  findFirst pat (String c s) =
  if prefix pat (String c s)
  then Some (EmptyString, drop (String.length pat) (String c s))
  else match findFirst pat s with
       | Some (before, after) => Some (String c before, after)
       | None => None
       end.
Proof. reflexivity. Qed.

Lemma findFirst_some (pat s before after : string) :
  findFirst pat s = Some (before, after) ->
  s = before ++ pat ++ after
  /\ forall k, (k < String.length before)%nat -> prefix pat (drop k s) = false.
Proof.
  revert before after. induction s as [|c s IH]; intros before after.
  - cbn [findFirst]. destruct (prefix pat EmptyString) eqn:Hp; [|discriminate].
    intros E. injection E as <- <-. split; [|intros k Hk; cbn in Hk; lia].
    now apply prefix_split.
  - rewrite findFirst_cons. destruct (prefix pat (String c s)) eqn:Hp.
    + intros E. injection E as <- <-. split; [|intros k Hk; cbn in Hk; lia].
      now apply prefix_split.
    + destruct (findFirst pat s) as [[b a]|] eqn:Ef; [|discriminate].
      intros E. injection E as <- <-.
      destruct (IH b a eq_refl) as [Hs Hk]. split.
      * cbn [append]. now rewrite <- Hs.
      * intros k Hlt. destruct k as [|k]; [exact Hp|].
        cbn [drop]. apply Hk. cbn [String.length] in Hlt. lia.
Qed.

Lemma findFirst_includes (pat s : string) :
  includes s pat = match findFirst pat s with Some _ => true | None => false end.
Proof.
  induction s as [|c s IH].
  - cbn [includes findFirst]. now destruct (prefix pat EmptyString).
  - rewrite includes_cons, findFirst_cons.
    destruct (prefix pat (String c s)); [reflexivity|].
    rewrite IH. now destruct (findFirst pat s) as [[b a]|].
Qed.

Lemma replaceFirst_absent (s pat r : string) :
  includes s pat = false -> replaceFirst s pat r = s.
Proof.
  rewrite findFirst_includes. unfold replaceFirst.
  now destruct (findFirst pat s) as [[b a]|].
Qed.

Lemma expandReplacement_cons (before matched after : string) (c : ascii) (r : string) :
  Ascii.eqb c "$" = false ->
  expandReplacement before matched after (String c r)
  = String c (expandReplacement before matched after r).
Proof. intros E. cbn [expandReplacement]. now rewrite E. Qed.

Lemma expandReplacement_plain (before matched after r1 r : string) :
  noDollar r1 = true ->
  expandReplacement before matched after (r1 ++ r)
  = r1 ++ expandReplacement before matched after r.
Proof.
  induction r1 as [|c r1 IH]; [reflexivity|].
  cbn [noDollar]. intros E. apply andb_prop in E as [Ec E1].
  apply negb_true_iff in Ec.
  change (String c r1 ++ r) with (String c (r1 ++ r)).
  rewrite expandReplacement_cons by exact Ec. cbn [append]. f_equal. now apply IH.
Qed.

Lemma expandReplacement_noDollar (before matched after r : string) :
  noDollar r = true -> expandReplacement before matched after r = r.
Proof.
  intros E. rewrite <- (append_nil_r r) at 1.
  rewrite expandReplacement_plain by exact E. cbn. apply append_nil_r.
Qed.

Lemma substring_nil (n m : nat) : substring n m EmptyString = EmptyString.
Proof. destruct n, m; reflexivity. Qed.

Lemma substring_add (s : string) (k a b : nat) :
  substring k (a + b) s = substring k a s ++ substring (k + a) b s.
Proof.
  revert k a. induction s as [|c s IH]; intros k a.
  - now rewrite !substring_nil.
  - destruct k as [|k].
    + destruct a as [|a]; [reflexivity|].
      cbn [Nat.add substring append]. f_equal. apply (IH 0%nat a).
    + cbn [Nat.add substring]. apply IH.
Qed.

Lemma length_substring (s : string) (k m : nat) :
  (k + m <= String.length s)%nat -> String.length (substring k m s) = m.
Proof.
  revert k m. induction s as [|c s IH]; intros k m Hl; cbn [String.length] in Hl.
  - assert (k = 0 /\ m = 0)%nat as [-> ->] by lia. reflexivity.
  - destruct k as [|k].
    + destruct m as [|m]; [reflexivity|].
      cbn [substring String.length]. f_equal. apply (IH 0%nat). cbn. lia.
    + cbn [substring]. apply IH. lia.
Qed.

Lemma substring_app_l (a b : string) :
  substring 0 (String.length a) (a ++ b) = a.
Proof.
  induction a as [|c a IH]; [destruct b; reflexivity|].
  cbn [String.length append substring]. now rewrite IH.
Qed.

Lemma substring_app_r (a b : string) (k m : nat) :
  substring (String.length a + k) m (a ++ b) = substring k m b.
Proof. induction a as [|c a IH]; [reflexivity | exact IH]. Qed.

(** The test of [replaceExt]: the last four characters are a dot and one of
    the extensions. *)
Lemma replaceExt_cases (ci : bool) (exts : list string) (s : string) :
  (exists stem ext,
      s = stem ++ "." ++ ext
      /\ String.length ext = 3%nat
      /\ existsb (String.eqb (if ci then lowerStr ext else ext)) exts = true
      /\ forall repl, replaceExt ci exts repl s = stem ++ repl)
  \/ ((forall stem ext,
          s = stem ++ "." ++ ext -> String.length ext = 3%nat ->
          existsb (String.eqb (if ci then lowerStr ext else ext)) exts = false)
      /\ forall repl, replaceExt ci exts repl s = s).
Proof.
  destruct (String.length s <? 4)%nat eqn:Hn.
  - right. split.
    + intros stem ext -> Hl. apply Nat.ltb_lt in Hn.
      rewrite length_append in Hn. cbn [append String.length] in Hn. lia.
    + intros repl. unfold replaceExt. now rewrite Hn.
  - apply Nat.ltb_ge in Hn.
    pose (n := String.length s).
    assert (Hs : s = substring 0 (n - 4) s
                       ++ substring (n - 4) 1 s ++ substring (n - 3) 3 s).
    { rewrite <- (substring_split s (n - 4)) at 1 by (unfold n; lia).
      f_equal. replace (String.length s - (n - 4))%nat with (1 + 3)%nat by (unfold n; lia).
      rewrite substring_add. do 2 f_equal. unfold n. lia. }
    assert (Hl : String.length (substring (n - 3) 3 s) = 3%nat)
      by (apply length_substring; unfold n; lia).
    destruct ((substring (n - 4) 1 s =? ".")
              && existsb (String.eqb (if ci then lowerStr (substring (n - 3) 3 s)
                                      else substring (n - 3) 3 s)) exts) eqn:Hc.
    + left. apply andb_prop in Hc as [Hdot Hext]. apply String.eqb_eq in Hdot.
      exists (substring 0 (n - 4) s), (substring (n - 3) 3 s).
      split; [now rewrite Hdot in Hs|]. split; [exact Hl|]. split; [exact Hext|].
      intros repl. unfold replaceExt. fold n.
      destruct (n <? 4)%nat eqn:Hn'; [apply Nat.ltb_lt in Hn'; unfold n in Hn'; lia|].
      cbv zeta. apply String.eqb_eq in Hdot. now rewrite Hdot, Hext.
    + right. split.
      * intros stem ext E Hle.
        assert (Hlen : n = (String.length stem + 4)%nat).
        { unfold n. rewrite E, length_append. cbn [append String.length]. lia. }
        assert (Hdot : substring (n - 4) 1 s = ".").
        { rewrite E. replace (n - 4)%nat with (String.length stem + 0)%nat by lia.
          rewrite substring_app_r. cbn. now destruct ext. }
        assert (Hext : substring (n - 3) 3 s = ext).
        { rewrite E. replace (n - 3)%nat with (String.length stem + 1)%nat by lia.
          rewrite substring_app_r. cbn [append substring].
          rewrite <- Hle. rewrite <- (append_nil_r ext) at 2. apply substring_app_l. }
        rewrite Hdot, Hext in Hc. exact Hc.
      * intros repl. unfold replaceExt. fold n.
        destruct (n <? 4)%nat; [reflexivity|]. cbv zeta. now rewrite Hc.
Qed.

Lemma includes_concat (sep x : string) (l : list string) :
  In x l -> includes (String.concat sep l) x = true.
Proof.
  induction l as [|y l IH]; [contradiction|].
  intros Hx. destruct l as [|z l].
  - destruct Hx as [->|[]]. apply includes_refl.
  - change (String.concat sep (y :: z :: l))
      with (y ++ sep ++ String.concat sep (z :: l)).
    destruct Hx as [->|Hx].
    + apply includes_app_l, includes_refl.
    + do 2 apply includes_app_r. now apply IH.
Qed.

(** * The claims *)

Section Claims.

Context {H : Host}.

Ltac find_part :=
  repeat first [ apply includes_here | apply includes_mid | apply includes_app_r ].

(** ** Open-Graph tags *)

Lemma generateOpenGraphTags_article (entry : Entry) :
  isMusicPost entry = false ->
  generateOpenGraphTags entry =
    ogBase entry (ogDescription entry) (SITE_CONFIG.url ++ "/posts/" ++ slug entry)
      ++ metaProperty "og:type" "article"
  /\ includes (generateOpenGraphTags entry) (metaProperty "og:type" "article") = true.
Proof.
  intros Hm.
  assert (E : generateOpenGraphTags entry =
              ogBase entry (ogDescription entry)
                     (SITE_CONFIG.url ++ "/posts/" ++ slug entry)
                ++ metaProperty "og:type" "article").
  { unfold generateOpenGraphTags, ogDescription. rewrite Hm. reflexivity. }
  split; [exact E|]. rewrite E. apply includes_app_r, includes_refl.
Qed.

Lemma hasGt_substring0 (n : nat) (s : string) :
  hasGt (substring 0 n s) = true -> hasGt s = true.
Proof.
  revert n. induction s as [|c s IH]; intros n.
  - now rewrite substring_nil.
  - destruct n as [|n]; [discriminate|].
    cbn [substring hasGt]. destruct (Ascii.eqb c ">"); [reflexivity | apply IH].
Qed.

Lemma hasTag_substring0 (n : nat) (s : string) :
  hasTag s = false -> hasTag (substring 0 n s) = false.
Proof.
  revert n. induction s as [|c s IH]; intros n.
  - now rewrite substring_nil.
  - destruct n as [|n]; [reflexivity|].
    cbn [substring hasTag]. intros E. apply orb_false_elim in E as [E1 E2].
    rewrite (IH n E2), orb_false_r.
    destruct (Ascii.eqb c "<"); [|reflexivity]. cbn [andb] in *.
    destruct (hasGt (substring 0 n s)) eqn:G; [|reflexivity].
    apply hasGt_substring0 in G. congruence.
Qed.

(** Claim C5, as amended.  For an entry without a description (absent, or
    empty), the description of its feed item is made in this order: the
    first 200 characters of the rendered HTML content are taken, tags
    included; the tags are stripped from that slice; three dots are added.
    The item carries this text in its [description] element, and the feed
    carries the item when the entry is among its first twenty.  The text
    has at most 203 characters and no tag.  When the content has no tag at
    all it is the first 200 characters of the stripped content and the
    dots, as the claim has it. *)
Theorem rss_description_fallback (entry : Entry) :
  truthy (description entry) = false ->
  rssDescription entry = stripTags (substring0 200 (content entry)) ++ "..."
  /\ includes (rssItem entry)
              ("<description><![CDATA["
                 ++ (stripTags (substring0 200 (content entry)) ++ "...")
                 ++ "]]></description>") = true
  /\ (forall entries, In entry (firstn 20 entries) ->
                      includes (rssXML entries) (rssItem entry) = true)
  /\ (String.length (rssDescription entry) <= 203)%nat
  /\ hasTag (stripTags (substring0 200 (content entry))) = false
  /\ (hasTag (content entry) = false ->
      rssDescription entry = substring0 200 (stripTags (content entry)) ++ "...").
Proof.
  intros Hd.
  assert (E : rssDescription entry
              = stripTags (substring0 200 (content entry)) ++ "...").
  { unfold rssDescription, descriptionOr. now rewrite Hd. }
  split; [exact E|]. split; [|split; [|split; [|split]]].
  - unfold rssItem. cbv zeta. rewrite E.
    do 2 apply includes_app_r.
    apply includes_interp; reflexivity.
  - intros entries Hin. unfold rssXML, feedEntries. cbv zeta.
    do 13 apply includes_app_r. apply includes_app_l, includes_concat.
    now apply in_map.
  - rewrite E, length_append. cbn [String.length].
    unfold stripTags, substring0.
    pose proof (length_stripFrom false (substring 0 200 (content entry))).
    pose proof (length_substring_le 0 200 (content entry)). lia.
  - apply hasTag_stripFrom.
  - intros Ht. rewrite E. unfold stripTags, substring0.
    rewrite (stripFrom_without_tag (content entry) Ht).
    now rewrite (stripFrom_without_tag _ (hasTag_substring0 200 _ Ht)).
Qed.

(** ** The audio player and the enclosure *)

(** Claim C10.  An entry whose musicSource is present gets the audio
    player, in its card on the home page and in the card of its own page,
    and the enclosure and the iTunes tags in its feed item, whatever its
    tags are.  When the tags do not contain "music" the same entry is
    neither eligible for derived media (the loop leaves it and the world
    alone) nor a music post for the Open-Graph tags, which give it
    og:type article. *)
Theorem audio_player_gate (entry : Entry) :
  truthy (musicSource entry) = true ->
  includes (generateAudioPlayer entry) (sourceTag (toStr (musicSource entry))) = true
  /\ includes (portfolioItem entry) (generateAudioPlayer entry) = true
  /\ (forall tagsHTML, includes (postItem entry tagsHTML) (generateAudioPlayer entry) = true)
  /\ includes (rssItem entry)
              (enclosureTag (SITE_CONFIG.url ++ toStr (musicSource entry))) = true
  /\ includes (rssItem entry) "<itunes:duration></itunes:duration>" = true
  /\ includes (rssItem entry)
              ("<itunes:author>" ++ SITE_CONFIG.author ++ "</itunes:author>") = true
  /\ (arr_includes (tags entry) "music" = false ->
      eligible entry = false
      /\ isMusicPost entry = false
      /\ (forall w, generateMedia entry w = (Normal entry, w))
      /\ includes (generateOpenGraphTags entry) (metaProperty "og:type" "article") = true).
Proof.
  intros Hm.
  split; [|split; [|split; [|split; [|split; [|split]]]]].
  - unfold generateAudioPlayer, sourceTag. rewrite Hm. cbn [negb].
    apply includes_interp_end; reflexivity.
  - unfold portfolioItem. cbv zeta. find_part.
  - intros t. unfold postItem. cbv zeta. find_part.
  - unfold rssItem, rssEnclosure, enclosureTag. cbv zeta. rewrite Hm.
    do 13 apply includes_app_r. apply includes_app_l.
    rewrite <- (append_assoc SITE_CONFIG.url).
    apply includes_interp_end; reflexivity.
  - unfold rssItem, rssItunesTags. cbv zeta. rewrite Hm.
    do 15 apply includes_app_r. apply includes_app_l. reflexivity.
  - unfold rssItem, rssItunesTags. cbv zeta. rewrite Hm.
    do 15 apply includes_app_r. apply includes_app_l. reflexivity.
  - intros Ht.
    assert (He : eligible entry = false) by (unfold eligible; now rewrite Ht, andb_false_r).
    assert (Hp : isMusicPost entry = false) by (unfold isMusicPost; now rewrite Ht).
    split; [exact He|]. split; [exact Hp|].
    split; [intros w; now apply generateMedia_skip|].
    now apply generateOpenGraphTags_article.
Qed.

End Claims.

(** ** Lists related element by element *)

Lemma Forall2_map_eq {A B C : Type} (f : A -> C) (g : B -> C)
      (l1 : list A) (l2 : list B) :
  Forall2 (fun a b => f a = g b) l1 l2 -> map f l1 = map g l2.
Proof. induction 1; simpl; congruence. Qed.

Lemma Forall2_weaken {A B : Type} (P Q : A -> B -> Prop)
      (l1 : list A) (l2 : list B) :
  (forall a b, P a b -> Q a b) -> Forall2 P l1 l2 -> Forall2 Q l1 l2.
Proof. intros HPQ. induction 1; constructor; auto. Qed.

Lemma Forall2_In_r {A B : Type} (P : A -> B -> Prop)
      (l1 : list A) (l2 : list B) (b : B) :
  Forall2 P l1 l2 -> In b l2 -> exists a, In a l1 /\ P a b.
Proof.
  induction 1 as [|x y l1 l2 Hxy _ IH]; intros Hb; [contradiction|].
  destruct Hb as [<-|Hb].
  - exists x. split; [now left | exact Hxy].
  - destruct (IH Hb) as (a & Ha & Hp). exists a. split; [now right | exact Hp].
Qed.

Lemma Forall2_strengthen {A B : Type} (P Q : A -> B -> Prop)
      (l1 : list A) (l2 : list B) :
  (forall a b, In a l1 -> P a b -> Q a b) -> Forall2 P l1 l2 -> Forall2 Q l1 l2.
Proof.
  intros HPQ Hall. induction Hall as [|x y l1 l2 Hxy _ IH]; constructor.
  - apply HPQ; [now left | exact Hxy].
  - apply IH. intros a b Ha. apply HPQ. now right.
Qed.



(** ** The manifest records *)

Section Manifest.

Context {H : Host}.

Lemma recordSlug_postMetadata (e : Entry) (o : list (string * PropVal)) :
  postMetadata e = Normal o -> recordSlug (jsonOfObject o) = Some (slug e).
Proof.
  unfold postMetadata. destruct (toISOString (date e)) as [iso|err]; [|discriminate].
  intros E. injection E as <-.
  unfold jsonOfObject. cbn [flat_map fst snd jsonOfProp].
  destruct (title e); reflexivity.
Qed.

Lemma mediaOf_slug (e0 e : Entry) : mediaOf e0 e -> slug e = slug e0.
Proof.
  unfold mediaOf. destruct (eligible e0); [intros (r & ->) | intros ->]; reflexivity.
Qed.


Lemma mediaOf_eligible (e0 e : Entry) : mediaOf e0 e -> eligible e = eligible e0.
Proof.
  unfold mediaOf. destruct (eligible e0) eqn:E.
  - intros (r & ->). exact E.
  - now intros ->.
Qed.

Lemma postMetadata_record (e : Entry) (o : list (string * PropVal)) :
  musicSource e <> JUndefined -> postMetadata e = Normal o ->
  map fst o = allKeys
  /\ keysOf (jsonOfObject o) = recordKeys e
  /\ recordField "musicSource" (jsonOfObject o) = jsonOfVal (musicSource e)
  /\ recordField "videoSource" (jsonOfObject o) = jsonOfVal (videoSource e)
  /\ recordField "waveformImage" (jsonOfObject o) = jsonOfVal (waveformImage e).
Proof.
  intros Hm. unfold recordKeys, present, jsonOfVal.
  unfold postMetadata. destruct (toISOString (date e)) as [iso|err]; [|discriminate].
  intros E. injection E as <-. split; [reflexivity|].
  unfold jsonOfObject, keysOf, recordField. cbn [flat_map fst snd].
  assert (Hd : exists j, jsonOfProp (PScalar (jsOr (description e) (JStr EmptyString)))
                         = Some j).
  { unfold jsOr. destruct (description e) as [| |d]; cbn; eauto.
    destruct (negb (d =? "")); cbn; eauto. }
  destruct Hd as (jd & ->).
  destruct (title e), (musicSource e), (videoSource e), (waveformImage e);
    try contradiction; repeat split; reflexivity.
Qed.

(** The fields of an entry after the loop, from the front matter of its
    post. *)
Lemma mediaOf_fields (f : FS) (file : string) (e0 e : Entry) :
  parsedFrom f file e0 -> mediaOf e0 e ->
  musicSource e <> JUndefined
  /\ exists text attributes body,
      host_readFile (path_join CONTENT_DIR file) f = Normal text
      /\ frontMatter text = Normal (attributes, body)
      /\ title e = attr_title attributes
      /\ musicSource e = jsOr (attr_music_source attributes) JNull
      /\ (eligible e = true ->
          videoSource e = JStr (videoSourceOf e)
          /\ (waveformImage e = JNull \/ waveformImage e = JStr (waveformImageOf e)))
      /\ (eligible e = false ->
          videoSource e = attr_videoSource attributes
          /\ waveformImage e = attr_waveformImage attributes).
Proof.
  intros (_ & _ & Hm & text & attributes & body & Hr & Hf & _ & Ht & Hs & Hv & Hw) Hmed.
  pose proof (mediaOf_eligible _ _ Hmed) as He.
  unfold mediaOf in Hmed. destruct (eligible e0) eqn:E0.
  - destruct Hmed as (r & ->). split; [exact Hm|].
    exists text, attributes, body.
    split; [exact Hr|]. split; [exact Hf|]. split; [exact Ht|]. split; [exact Hs|].
    split; [|intros E; rewrite He in E; discriminate].
    intros _. split; [reflexivity|].
    cbn [withMedia set_waveformImage set_videoSource waveformImage].
    destruct (truthyPath r); [right; reflexivity | left; reflexivity].
  - subst e. split; [exact Hm|]. exists text, attributes, body.
    split; [exact Hr|]. split; [exact Hf|]. split; [exact Ht|]. split; [exact Hs|].
    split; [intros E; rewrite E0 in E; discriminate|].
    intros _. split; assumption.
Qed.

End Manifest.

(** ** The run as a whole *)

Section Run.

Context {H : Host}.

(** The entries a run hands to [generateOpenGraphTags] are those the loop
    leaves behind.  For such an entry the block is decided by the tags and
    the musicSource alone: a music post has its [videoSource] set by the
    loop whatever became of the video, and gets the video block; every
    other entry gets og:type article. *)
Lemma generateOpenGraphTags_after_loop (e0 e : Entry) :
  mediaOf e0 e ->
  (isMusicPost e = true ->
   truthy (videoSource e) = true
   /\ includes (generateOpenGraphTags e) (metaProperty "og:type" "video.other") = true
   /\ includes (generateOpenGraphTags e)
               (metaProperty "og:video" (SITE_CONFIG.url ++ toStr (videoSource e))) = true
   /\ includes (generateOpenGraphTags e)
               (metaProperty "og:audio" (SITE_CONFIG.url ++ toStr (musicSource e))) = true)
  /\ (isMusicPost e = false ->
      includes (generateOpenGraphTags e) (metaProperty "og:type" "article") = true).
Proof.
  intros Hmed. split; [|intros Hm; now apply generateOpenGraphTags_article].
  intros Hm.
  assert (He : eligible e0 = true).
  { rewrite <- (mediaOf_eligible _ _ Hmed). unfold eligible.
    unfold isMusicPost in Hm. now rewrite andb_comm. }
  unfold mediaOf in Hmed. rewrite He in Hmed. destruct Hmed as (r & ->).
  assert (Hv : truthy (videoSource (withMedia e0 r)) = true).
  { cbn [withMedia set_waveformImage set_videoSource videoSource truthy].
    unfold eligible in He. apply andb_prop in He as [Hs _].
    destruct (replaceExt_cases true audioExt (toStr (musicSource e0)))
      as [(stem & ext & _ & _ & _ & Hr)|(_ & Hr)]; rewrite Hr.
    - destruct stem; reflexivity.
    - destruct (musicSource e0) as [| |m]; try discriminate. exact Hs. }
  split; [exact Hv|].
  assert (E : generateOpenGraphTags (withMedia e0 r) =
              (ogWithImage (withMedia e0 r)
                 ++ ogVideo (SITE_CONFIG.url ++ toStr (videoSource (withMedia e0 r)))
                            (SITE_CONFIG.url ++ toStr (musicSource (withMedia e0 r))))
                ++ ogPlayer (SITE_CONFIG.url ++ toStr (videoSource (withMedia e0 r)))).
  { unfold generateOpenGraphTags, ogWithImage, ogDescription.
    rewrite Hm, Hv. destruct (truthy (waveformImage (withMedia e0 r))); reflexivity. }
  rewrite E.
  destruct (ogVideo_tags (SITE_CONFIG.url ++ toStr (videoSource (withMedia e0 r)))
                         (SITE_CONFIG.url ++ toStr (musicSource (withMedia e0 r))))
    as (T1 & T2 & T3).
  repeat split; apply includes_app_l, includes_app_r; assumption.
Qed.

(** ** The description of a feed item *)

(** Claim C8.  [generateWaveformImage] never throws: it returns the output
    path when every call it makes succeeds (the four commands among them),
    and [false] as soon as one fails.  On [false] the loop goes on with the
    plain cover image for the video and records [null] as the waveform
    image; the loop as a whole never throws, so a run that has its entries
    reaches the sort and the writing of the site whatever the media tools
    did. *)
Theorem waveform_failure_is_not_fatal :
  (forall audioPath outputImagePath coverImage w,
      exists r w' new,
        generateWaveformImage audioPath outputImagePath coverImage w = (Normal r, w')
        /\ trace w' = (trace w ++ new)%list
        /\ ((r = Some outputImagePath
             /\ forallb succeeded new = true
             /\ List.length (filter isExec new) = 4%nat)
            \/ (r = None /\ forallb succeeded new = false)))
  /\ (forall entry w w1,
         eligible entry = true ->
         generateWaveformImage (audioPathOf entry) (waveformPathOf entry)
                               (coverOf entry) w = (Normal None, w1) ->
         exists w2,
           generateVideoFromAudio (audioPathOf entry) (videoPathOf entry)
                                  (coverOf entry) w1 = (Normal tt, w2)
           /\ generateMedia entry w = (Normal (withMedia entry None), w2)
           /\ waveformImage (withMedia entry None) = JNull)
  /\ (forall entries w,
         exists entries' w',
           mapM generateMedia entries w = (Normal entries', w')
           /\ List.length entries' = List.length entries)
  /\ (forall w w1 template postTemplate entries,
         setup w = (Normal (template, postTemplate, entries), w1) ->
         exists entries' w2,
           generateSite w = assemble template postTemplate entries' w2
           /\ Forall2 mediaOf entries entries').
Proof.
  split; [|split; [|split]].
  - intros. apply generateWaveformImage_spec.
  - intros entry w w1 He Hw.
    destruct (generateMedia_run entry w He) as (r & w1' & w2 & Hr & Hv & Hg).
    rewrite Hw in Hr. injection Hr as <- <-.
    exists w2. repeat split; assumption.
  - intros entries w.
    destruct (mapM_generateMedia_inv entries w) as (es & w' & new & Hm & _ & _ & Hall).
    exists es, w'. split; [exact Hm|]. symmetry. eapply Forall2_length; eauto.
  - intros w w1 t pt es Hs. rewrite generateSite_setup, Hs.
    destruct (mapM_generateMedia_inv es w1) as (es' & w2 & new & Hm & _ & _ & Hall).
    exists es', w2. unfold bind. rewrite Hm. split; [reflexivity | exact Hall].
Qed.





(** Claim C6.  On a run that completes, the first file written is
    posts.json; it holds an array with one record for each markdown file of
    the content directory, and the slugs of the records are, up to the
    order, the names of these files without their [.md]. *)
Theorem manifest_one_record_per_post (w w' : World) :
  generateSite w = (Normal tt, w') ->
  exists files records pre rest,
    host_readdir CONTENT_DIR (snd (host_mkdir OUTPUT_DIR (fs w))) = Normal files
    /\ trace w' =
       (trace w ++ pre
          ++ EvWriteFile (path_join OUTPUT_DIR "posts.json")
                         (JSON_text (JsonArray records)) true :: rest)%list
    /\ filter isWrite pre = []
    /\ List.length records = List.length (markdownFilesOf files)
    /\ Permutation (map recordSlug records)
                   (map (fun file => Some (basename file ".md")) (markdownFilesOf files))
    /\ (forall file, In file (markdownFilesOf files) ->
                     endsWith file ".md" = true /\ basename file ".md" ++ ".md" = file).
Proof.
  intros Hrun.
  apply generateSite_normal in Hrun
    as (files & es0 & es & t & pt & pre & objs & pages
        & Hd & Hp & Hm & Hq & Ho & _ & Ht).
  apply postsMetadata_inv in Ho as [_ Ho].
  exists files, (map jsonOfObject objs), pre, (pages ++ closingEvents t (sortEntries es))%list.
  split; [exact Hd|]. split; [exact Ht|]. split; [exact Hq|].
  assert (Hslugs : map recordSlug (map jsonOfObject objs)
                   = map (fun e => Some (slug e)) (sortEntries es)).
  { rewrite map_map. symmetry. apply Forall2_map_eq.
    eapply Forall2_weaken; [|exact Ho].
    intros e o He. cbv beta. symmetry. now apply recordSlug_postMetadata. }
  assert (Hfiles : map (fun e => Some (slug e)) es
                   = map (fun file => Some (basename file ".md")) (markdownFilesOf files)).
  { transitivity (map (fun e => Some (slug e)) es0).
    - symmetry. apply Forall2_map_eq. eapply Forall2_weaken; [|exact Hm].
      intros a b Hab. cbv beta. now rewrite (mediaOf_slug _ _ Hab).
    - symmetry. apply Forall2_map_eq. eapply Forall2_weaken; [|exact Hp].
      intros f e He. cbv beta. destruct He as (_ & -> & _). reflexivity. }
  split; [|split].
  - rewrite length_map, <- (Forall2_length Ho).
    rewrite (Permutation_length (sortEntries_perm es)).
    rewrite <- (Forall2_length Hm). symmetry. apply (Forall2_length Hp).
  - rewrite Hslugs, <- Hfiles. apply Permutation_map, sortEntries_perm.
  - intros f Hf. unfold markdownFilesOf in Hf. apply filter_In in Hf as [_ He].
    split; [exact He | now apply basename_stem].
Qed.

(** Claim C7, as amended.  On a run that completes, the manifest holds one
    record for each sorted entry.  The object built for an entry has the
    eight keys; its record in posts.json keeps those whose value is not
    undefined: date, tags, slug, description and musicSource always
    (musicSource is the [music-source] of the front matter, null when that
    is missing or empty), title when the front matter has one.  The keys
    videoSource and waveformImage carry the fields of the entry: for an
    entry that went through derived-media generation the video path
    derived from its musicSource, and null or the derived waveform path;
    for every other entry what the front matter of the post has under
    these two names, the key being left out when it has nothing. *)
Theorem manifest_record_keys (w w' : World) :
  generateSite w = (Normal tt, w') ->
  exists es objs pre rest,
    trace w' =
      (trace w ++ pre
         ++ EvWriteFile (path_join OUTPUT_DIR "posts.json")
                        (JSON_text (JsonArray (map jsonOfObject objs))) true
         :: rest)%list
    /\ filter isWrite pre = []
    /\ Forall2 (fun e o =>
                  postMetadata e = Normal o
                  /\ map fst o = allKeys
                  /\ keysOf (jsonOfObject o) = recordKeys e
                  /\ recordField "musicSource" (jsonOfObject o)
                     = jsonOfVal (musicSource e)
                  /\ recordField "videoSource" (jsonOfObject o)
                     = jsonOfVal (videoSource e)
                  /\ recordField "waveformImage" (jsonOfObject o)
                     = jsonOfVal (waveformImage e)
                  /\ musicSource e <> JUndefined
                  /\ exists text attributes body,
                      host_readFile (path_join CONTENT_DIR (slug e ++ ".md"))
                                    (snd (host_mkdir OUTPUT_DIR (fs w))) = Normal text
                      /\ frontMatter text = Normal (attributes, body)
                      /\ title e = attr_title attributes
                      /\ musicSource e = jsOr (attr_music_source attributes) JNull
                      /\ (eligible e = true ->
                          videoSource e = JStr (videoSourceOf e)
                          /\ (waveformImage e = JNull
                              \/ waveformImage e = JStr (waveformImageOf e)))
                      /\ (eligible e = false ->
                          videoSource e = attr_videoSource attributes
                          /\ waveformImage e = attr_waveformImage attributes)
                      /\ (truthy (attr_music_source attributes) = false ->
                          recordField "musicSource" (jsonOfObject o) = Some JsonNull)
                      /\ (eligible e = true ->
                          recordField "videoSource" (jsonOfObject o)
                          = Some (JsonString (videoSourceOf e))
                          /\ (recordField "waveformImage" (jsonOfObject o)
                              = Some JsonNull
                              \/ recordField "waveformImage" (jsonOfObject o)
                                 = Some (JsonString (waveformImageOf e))))
                      /\ (eligible e = false ->
                          recordField "videoSource" (jsonOfObject o)
                          = jsonOfVal (attr_videoSource attributes)
                          /\ recordField "waveformImage" (jsonOfObject o)
                             = jsonOfVal (attr_waveformImage attributes)))
               (sortEntries es) objs.
Proof.
  intros Hrun.
  apply generateSite_normal in Hrun
    as (files & es0 & es & t & pt & pre & objs & pages
        & _ & Hp & Hm & Hq & Ho & _ & Ht).
  apply postsMetadata_inv in Ho as [_ Ho].
  exists es, objs, pre, (pages ++ closingEvents t (sortEntries es))%list.
  split; [exact Ht|]. split; [exact Hq|].
  eapply Forall2_strengthen; [|exact Ho].
  intros e o He Heo. cbv beta.
  apply (Permutation_in _ (sortEntries_perm es)) in He.
  destruct (Forall2_In_r _ _ _ _ Hm He) as (e0 & He0 & Hmed).
  destruct (Forall2_In_r _ _ _ _ Hp He0) as (file & Hin & Hfile).
  assert (Hname : slug e ++ ".md" = file).
  { rewrite (mediaOf_slug _ _ Hmed). destruct Hfile as (_ & -> & _).
    apply basename_stem. unfold markdownFilesOf in Hin.
    now apply filter_In in Hin. }
  destruct (mediaOf_fields _ file e0 e Hfile Hmed) as (Hms & Hfields).
  destruct (postMetadata_record e o Hms Heo) as (K1 & K2 & K3 & K4 & K5).
  rewrite Hname.
  repeat (split; [assumption|]).
  destruct Hfields as (text & attributes & body & Hr & Hf & Htitle & Hsrc & Hel & Hnel).
  exists text, attributes, body.
  repeat (split; [assumption|]). split; [|split].
  - intros Hfalsy. rewrite K3, Hsrc. unfold jsOr. now rewrite Hfalsy.
  - intros E. destruct (Hel E) as (Hv & Hw). rewrite K4, K5, Hv. split; [reflexivity|].
    destruct Hw as [-> | ->]; [left | right]; reflexivity.
  - intros E. destruct (Hnel E) as (Hv & Hw). now rewrite K4, K5, Hv, Hw.
Qed.

(** Claim C9, as amended.  The date of a parsed entry is what [Date]
    makes of the date attribute, the invalid date when it cannot read it.
    When one of the parsed entries has the invalid date, the run is stopped
    by the error [toISOString] throws while the manifest records are built:
    the derived media have been dealt with, but no file of the site
    (manifest, pages, home page, feed) is written. *)
Theorem invalid_date_aborts_build (w w1 : World) (template postTemplate : string)
        (entries : list Entry) (entry : Entry) :
  setup w = (Normal (template, postTemplate, entries), w1) ->
  In entry entries ->
  date entry = InvalidDate ->
  (exists text attributes body,
      host_readFile (path_join CONTENT_DIR (filename entry))
                    (snd (host_mkdir OUTPUT_DIR (fs w))) = Normal text
      /\ frontMatter text = Normal (attributes, body)
      /\ Date_new (attr_date attributes) = InvalidDate)
  /\ exists w' new,
      generateSite w = (Throw (mkError "Invalid time value"), w')
      /\ trace w' = (trace w ++ new)%list
      /\ filter isWrite new = [].
Proof.
  intros Hs Hin Hd. split.
  - apply setup_inv in Hs as (files & _ & Hp).
    destruct (Forall2_In_r _ _ _ _ Hp Hin) as (file & _ & Hfile).
    destruct Hfile as (Hname & _ & _ & text & attributes & body
                       & Hr & Hf & Hdate & _).
    exists text, attributes, body. rewrite Hname.
    split; [exact Hr|]. split; [exact Hf|]. now rewrite <- Hdate.
  - apply (generateSite_invalid w w1 template postTemplate entries Hs).
    unfold allValid. apply not_true_is_false. intros Hv.
    rewrite forallb_forall in Hv. specialize (Hv entry Hin).
    rewrite Hd in Hv. discriminate.
Qed.

(** The run completes when the platform lets it: the set-up succeeds,
    every date is valid and the awaited writes succeed. *)
Lemma postsMetadata_valid (l : list Entry) :
  allValid l = true -> exists objs, postsMetadata l = Normal objs.
Proof.
  induction l as [|e l IH]; simpl; intros Hv; [eauto|].
  apply andb_prop in Hv as [He Hl]. destruct (IH Hl) as (objs & ->).
  unfold postMetadata, toISOString. destruct (date e); [eauto | discriminate].
Qed.

Lemma generateSite_completes (w w1 : World) (template postTemplate : string)
      (entries : list Entry) :
  setup w = (Normal (template, postTemplate, entries), w1) ->
  allValid entries = true ->
  (forall path data f, fst (host_writeFile path data f) = Normal tt) ->
  exists w', generateSite w = (Normal tt, w').
Proof.
  intros Hs Hv Hw. rewrite generateSite_setup, Hs.
  destruct (mapM_generateMedia_inv entries w1) as (es & w2 & new & Hm & _ & _ & Hmed).
  unfold bind at 1. rewrite Hm.
  assert (Hv' : allValid (sortEntries es) = true)
    by now rewrite allValid_sort, (mediaOf_allValid _ _ Hmed).
  destruct (postsMetadata_valid _ Hv') as (objs & Ho).
  unfold assemble. unfold bind at 1, liftC. rewrite Ho.
  unfold bind at 1, fs_writeFile at 1.
  match goal with |- context [host_writeFile ?p ?d ?f] =>
    pose proof (Hw p d f) as Hw1; destruct (host_writeFile p d f) as [r1 f1] end.
  cbn [fst] in Hw1. subst r1.
  unfold bind at 1.
  match goal with |- context [mapM _ _ ?w0] =>
    destruct (mapM_renderEntry postTemplate (sortEntries es) w0)
      as (w3 & pages & Hr & _ & _) end.
  rewrite Hr.
  unfold bind at 1, fs_writeFile at 1.
  match goal with |- context [host_writeFile ?p ?d (fs w3)] =>
    pose proof (Hw p d (fs w3)) as Hw2;
    destruct (host_writeFile p d (fs w3)) as [r2 f2] end.
  cbn [fst] in Hw2. subst r2.
  unfold bind at 1, generateRSSFeed, fs_writeFile. cbn [fs trace].
  match goal with |- context [host_writeFile ?p ?d f2] =>
    pose proof (Hw p d f2) as Hw3; destruct (host_writeFile p d f2) as [r3 f3] end.
  cbn [fst] in Hw3. subst r3.
  unfold bind, console_log, emit. eauto.
Qed.

End Run.

(** * Runs on the concrete platform *)

Module Runs.

Import Demo.

(** Claim C1 (the script departs from it).  The music post, on a platform
    where no command can run: the waveform step and the video step both
    fail (no command succeeds, the version query of the video step among
    them), and the entry leaves the loop with [videoSource] set to the path
    of a video that was never made; [waveformImage] is [null], as the claim
    has it. *)
Theorem videoSource_set_after_failed_generation :
  @parseEntry bare "hello.md" bare0 = (Normal helloEntry, bare0)
  /\ eligible helloEntry = true
  /\ exists w,
      @generateMedia bare helloEntry bare0 = (Normal (withMedia helloEntry None), w)
      /\ filter (fun ev => isExec ev && succeeded ev) (@trace bare w) = []
      /\ In (EvExec "ffmpeg -version" false) (@trace bare w)
      /\ videoSource (withMedia helloEntry None) = JStr "/audio/a.mp4"
      /\ waveformImage (withMedia helloEntry None) = JNull.
Proof.
  split; [vm_compute; reflexivity|].
  split; [reflexivity|].
  eexists. split; [vm_compute; reflexivity|].
  split; [reflexivity|].
  split; [do 4 right; left; reflexivity|].
  split; reflexivity.
Qed.



(** A run for claim C6: the same site; two of its three files are posts. *)
Lemma manifest_one_record_per_post_witness :
  @generateSite site site0 = (Normal tt, snd (@generateSite site site0))
  /\ exists files records,
      @host_readdir site CONTENT_DIR
        (snd (@host_mkdir site OUTPUT_DIR (@fs site site0))) = Normal files
      /\ List.length records = List.length (markdownFilesOf files)
      /\ Permutation (map recordSlug records)
                     (map (fun file => Some (basename file ".md"))
                          (markdownFilesOf files)).
Proof.
  assert (Hrun : @generateSite site site0 = (Normal tt, snd (@generateSite site site0)))
    by (vm_compute; reflexivity).
  split; [exact Hrun|].
  destruct (@manifest_one_record_per_post site site0 _ Hrun)
    as (files & records & pre & rest & Hd & _ & _ & Hlen & Hperm & _).
  exists files, records. repeat split; assumption.
Defined.

(** A run for claim C3: the video is newer than the audio, and the version
    query of this platform leaves the files alone. *)
Lemma generateVideoFromAudio_skips_witness :
  @host_stat studio "docs/audio/a.mp3" (@fs studio studio0) = Normal 100%Z
  /\ @host_stat studio "docs/audio/a.mp4" (@fs studio studio0) = Normal 200%Z
  /\ (100 < 200)%Z
  /\ (forall f, snd (@host_exec studio "ffmpeg -version" f) = f)
  /\ exists w' ok logs,
      @generateVideoFromAudio studio "docs/audio/a.mp3" "docs/audio/a.mp4"
                              "./audio-cover.jpg" studio0 = (Normal tt, w')
      /\ @fs studio w' = @fs studio studio0
      /\ @host_stat studio "docs/audio/a.mp4" (@fs studio w') = Normal 200%Z
      /\ @trace studio w'
         = (@trace studio studio0 ++ EvExec "ffmpeg -version" ok :: logs)%list
      /\ forallb isConsole logs = true
      /\ (ok = true -> logs = [EvLog ("Video " ++ "docs/audio/a.mp4" ++ " is up to date")]).
Proof.
  split; [reflexivity|]. split; [reflexivity|]. split; [lia|].
  split; [intros f; reflexivity|].
  apply (@generateVideoFromAudio_skips studio "docs/audio/a.mp3" "docs/audio/a.mp4"
           "./audio-cover.jpg" studio0 100%Z 200%Z).
  - reflexivity.
  - reflexivity.
  - lia.
  - intros f. reflexivity.
Defined.

(** Claim C4 (the script departs from it).  The site of three files on a
    platform where no command can run: the run completes and no command
    has succeeded, so that no video was generated for the music post; the
    entry leaves the loop as a music post with its [videoSource] set, and
    its page is written with og:type video.other and an og:video tag for
    the video that was never made, and without og:type article, which the
    claim asks for. *)
Theorem video_type_after_failed_generation :
  fst (@generateSite site site0) = Normal tt
  /\ filter (fun ev => isExec ev && succeeded ev)
            (@trace site (snd (@generateSite site site0))) = []
  /\ In (EvExec "ffmpeg -version" false) (@trace site (snd (@generateSite site site0)))
  /\ fst (@generateMedia site helloEntry site0) = Normal (withMedia helloEntry None)
  /\ isMusicPost (withMedia helloEntry None) = true
  /\ includes (generateOpenGraphTags (withMedia helloEntry None))
              (metaProperty "og:type" "video.other") = true
  /\ includes (generateOpenGraphTags (withMedia helloEntry None))
              (metaProperty "og:video" "https://words.aubrey.page/audio/a.mp4") = true
  /\ includes (generateOpenGraphTags (withMedia helloEntry None))
              (metaProperty "og:type" "article") = false
  /\ exists page,
      In (EvWriteFile "docs/posts/hello.html" page true)
         (@trace site (snd (@generateSite site site0)))
      /\ includes page (metaProperty "og:type" "video.other") = true
      /\ includes page (metaProperty "og:video" "https://words.aubrey.page/audio/a.mp4")
         = true
      /\ includes page (metaProperty "og:type" "article") = false.
Proof.
  assert (Hmed : mediaOf helloEntry (withMedia helloEntry None))
    by (unfold mediaOf; change (eligible helloEntry) with true; cbv iota;
        exists None; reflexivity).
  destruct (generateOpenGraphTags_after_loop _ _ Hmed) as (Hvideo & _).
  destruct (Hvideo eq_refl) as (_ & T1 & T2 & _).
  split; [vm_compute; reflexivity|]. split; [vm_compute; reflexivity|].
  split; [vm_compute; do 5 right; left; reflexivity|].
  split; [vm_compute; reflexivity|]. split; [reflexivity|].
  split; [exact T1|]. split; [exact T2|]. split; [vm_compute; reflexivity|].
  eexists. split.
  - vm_compute. do 10 right. left. reflexivity.
  - repeat split; vm_compute; reflexivity.
Qed.

(** An entry for claim C5: no description, a short content without
    tags. *)
Lemma rss_description_fallback_witness :
  truthy (description Samples.essay) = false
  /\ @rssDescription Samples.essay = copies 197 "a" ++ "..."
  /\ includes (@rssItem site Samples.essay)
              ("<description><![CDATA[" ++ (copies 197 "a" ++ "...")
                 ++ "]]></description>") = true
  /\ (String.length (@rssDescription Samples.essay) <= 203)%nat.
Proof.
  split; [reflexivity|].
  destruct (@rss_description_fallback site Samples.essay eq_refl)
    as (E & I & _ & L & _).
  split; [exact E|]. split; [exact I | exact L].
Defined.

(** Claim C5 as stated fails on a post whose content opens with a tag:
    the slice is taken from the HTML, so the tag counts among the 200
    characters and 197 characters of text are left, where the first 200
    characters of the stripped content are 200 characters of text. *)
Lemma description_slices_before_stripping :
  truthy (description Samples.essay) = false
  /\ rssDescription Samples.essay = copies 197 "a" ++ "..."
  /\ substring0 200 (stripTags (content Samples.essay)) ++ "..."
     = copies 200 "a" ++ "..."
  /\ rssDescription Samples.essay
     <> substring0 200 (stripTags (content Samples.essay)) ++ "...".
Proof.
  split; [reflexivity|]. split; [vm_compute; reflexivity|].
  split; [vm_compute; reflexivity|]. vm_compute. discriminate.
Qed.

(** An entry for claim C10: an audio file, and no "music" tag. *)
Lemma audio_player_gate_witness :
  truthy (musicSource memo) = true
  /\ arr_includes (tags memo) "music" = false
  /\ includes (generateAudioPlayer memo) (sourceTag "/audio/memo.mp3") = true
  /\ includes (@portfolioItem site memo) (generateAudioPlayer memo) = true
  /\ includes (@rssItem site memo)
              (enclosureTag "https://words.aubrey.page/audio/memo.mp3") = true
  /\ eligible memo = false
  /\ isMusicPost memo = false.
Proof.
  destruct (@audio_player_gate site memo eq_refl)
    as (T1 & T2 & _ & T4 & _ & _ & Hgate).
  destruct (Hgate eq_refl) as (He & Hp & _).
  split; [reflexivity|]. split; [reflexivity|].
  repeat split; assumption.
Defined.

(** A run for claim C7 as amended: the plain post and the post whose front
    matter has a [videoSource] key. *)
Lemma manifest_record_keys_witness :
  @generateSite pinboard pinboard0 = (Normal tt, snd (@generateSite pinboard pinboard0))
  /\ exists es objs,
      Forall2 (fun e o =>
                 @postMetadata pinboard e = Normal o
                 /\ keysOf (jsonOfObject o) = recordKeys e
                 /\ recordField "videoSource" (jsonOfObject o)
                    = jsonOfVal (videoSource e)
                 /\ recordField "waveformImage" (jsonOfObject o)
                    = jsonOfVal (waveformImage e))
              (sortEntries es) objs.
Proof.
  assert (Hrun : @generateSite pinboard pinboard0
                 = (Normal tt, snd (@generateSite pinboard pinboard0)))
    by (vm_compute; reflexivity).
  split; [exact Hrun|].
  destruct (@manifest_record_keys pinboard pinboard0 _ Hrun)
    as (es & objs & pre & rest & _ & _ & Hall).
  exists es, objs. eapply Forall2_weaken; [|exact Hall].
  intros e o (K0 & _ & K1 & _ & K2 & K3 & _). repeat split; assumption.
Defined.

(** A key of the front matter that the script does not read by name stays
    on the entry: the post without audio whose front matter has a
    [videoSource] is not eligible for the loop, and its record in
    posts.json has the key with the value of the front matter. *)
Example front_matter_key_reaches_manifest :
  @parseEntry pinboard "pinned.md" pinboard0 = (Normal pinnedEntry, pinboard0)
  /\ eligible pinnedEntry = false
  /\ exists data,
      nth_error (@trace pinboard (snd (@generateSite pinboard pinboard0))) 1
      = Some (EvWriteFile "docs/posts.json" data true)
      /\ includes data (qq "'videoSource':'/video/intro.mp4'") = true
      /\ includes data "waveformImage" = false.
Proof.
  split; [vm_compute; reflexivity|]. split; [reflexivity|].
  eexists. split; [vm_compute; reflexivity|].
  split; vm_compute; reflexivity.
Qed.

(** Claim C7 as stated fails on the site whose only post has no audio:
    the run completes, and the record of the post in posts.json has a
    musicSource key and neither a videoSource nor a waveformImage key. *)
Lemma manifest_omits_media_keys :
  exists data,
    fst (@generateSite plain plain0) = Normal tt
    /\ nth_error (@trace plain (snd (@generateSite plain plain0))) 1
       = Some (EvWriteFile "docs/posts.json" data true)
    /\ includes data "musicSource" = true
    /\ includes data "videoSource" = false
    /\ includes data "waveformImage" = false.
Proof.
  eexists. split; [vm_compute; reflexivity|].
  split; [vm_compute; reflexivity|].
  repeat split; vm_compute; reflexivity.
Qed.

(** A run for claim C8: the music post on the platform without the
    encoder. *)
Lemma waveform_failure_is_not_fatal_witness :
  eligible helloEntry = true
  /\ @generateWaveformImage bare (@audioPathOf bare helloEntry)
        (@waveformPathOf bare helloEntry) (@coverOf bare helloEntry) bare0
     = (Normal None, afterWaveform)
  /\ exists w2,
      @generateVideoFromAudio bare (@audioPathOf bare helloEntry)
        (@videoPathOf bare helloEntry) (@coverOf bare helloEntry) afterWaveform
      = (Normal tt, w2)
      /\ @generateMedia bare helloEntry bare0 = (Normal (withMedia helloEntry None), w2)
      /\ waveformImage (withMedia helloEntry None) = JNull.
Proof.
  assert (He : eligible helloEntry = true) by reflexivity.
  assert (Hr : @generateWaveformImage bare (@audioPathOf bare helloEntry)
                 (@waveformPathOf bare helloEntry) (@coverOf bare helloEntry) bare0
               = (Normal None, afterWaveform)) by (vm_compute; reflexivity).
  split; [exact He|]. split; [exact Hr|].
  destruct (@waveform_failure_is_not_fatal bare) as (_ & Hcaller & _).
  exact (Hcaller helloEntry bare0 afterWaveform He Hr).
Defined.

(** A run for claim C9 as amended: a site with a post whose date cannot be
    read. *)
Lemma invalid_date_aborts_build_witness :
  @setup draft draft0
  = (Normal (indexTemplate, pageTemplate, [noteEntry; undatedEntry]),
     @mkWorld draft [] [EvMkdir "./docs" true])
  /\ In undatedEntry [noteEntry; undatedEntry]
  /\ date undatedEntry = InvalidDate
  /\ exists w' new,
      @generateSite draft draft0 = (Throw (mkError "Invalid time value"), w')
      /\ @trace draft w' = (@trace draft draft0 ++ new)%list
      /\ filter isWrite new = [].
Proof.
  assert (Hs : @setup draft draft0
               = (Normal (indexTemplate, pageTemplate, [noteEntry; undatedEntry]),
                  @mkWorld draft [] [EvMkdir "./docs" true]))
    by (vm_compute; reflexivity).
  assert (Hin : In undatedEntry [noteEntry; undatedEntry]) by (right; left; reflexivity).
  split; [exact Hs|]. split; [exact Hin|]. split; [reflexivity|].
  exact (proj2 (@invalid_date_aborts_build draft draft0 _ _ _ _ undatedEntry
                  Hs Hin eq_refl)).
Defined.

(** Claim C9 as stated fails on that site: the date of the post is the
    invalid date, the run ends with the error, and nothing of the site has
    been written. *)
Lemma unparseable_date_stops_the_build :
  @Date_new draft (JStr "soon") = InvalidDate
  /\ fst (@generateSite draft draft0) = Throw (mkError "Invalid time value")
  /\ filter isWrite (@trace draft (snd (@generateSite draft draft0))) = [].
Proof. repeat split; vm_compute; reflexivity. Qed.

End Runs.

(** * Further properties *)

(** ** Stripping tags *)

(** What [stripTags] leaves has no tag in it, is no longer than the input, is
    the input itself when that has no tag, and stripping twice changes
    nothing more. *)
Theorem stripTags_leaves_no_tag (s : string) :
  hasTag (stripTags s) = false
  /\ (String.length (stripTags s) <= String.length s)%nat
  /\ (hasTag s = false -> stripTags s = s)
  /\ stripTags (stripTags s) = stripTags s.
Proof.
  unfold stripTags. split; [apply hasTag_stripFrom|].
  split; [apply length_stripFrom|].
  split; [apply stripFrom_without_tag|].
  apply stripFrom_without_tag, hasTag_stripFrom.
Qed.

(** Without a description of its own, an entry gets an Open-Graph
    description of at most 200 characters, free of tags, and a feed
    description that is the same text followed by three dots. *)
Theorem description_fallback_is_bounded (entry : Entry) :
  truthy (description entry) = false ->
  (String.length (ogDescription entry) <= 200)%nat
  /\ hasTag (ogDescription entry) = false
  /\ rssDescription entry = ogDescription entry ++ "..."
  /\ (String.length (rssDescription entry) <= 203)%nat.
Proof.
  intros Hd.
  assert (E : ogDescription entry = stripTags (substring0 200 (content entry))).
  { unfold ogDescription, descriptionOr. now rewrite Hd. }
  assert (L : (String.length (ogDescription entry) <= 200)%nat).
  { rewrite E. unfold stripTags, substring0.
    pose proof (length_stripFrom false (substring 0 200 (content entry))).
    pose proof (length_substring_le 0 200 (content entry)). lia. }
  assert (R : rssDescription entry = ogDescription entry ++ "...").
  { unfold rssDescription, descriptionOr. now rewrite Hd, E. }
  split; [exact L|]. split; [rewrite E; apply hasTag_stripFrom|].
  split; [exact R|]. rewrite R, length_append. cbn [String.length]. lia.
Qed.

(** ** Replacing a marker *)

(** [replace] on a marker, with a replacement that has no dollar sign: a
    text without the marker is returned as it is; otherwise the first
    occurrence of the marker, and only that one, gives way to the
    replacement. *)
Theorem replaceFirst_first_occurrence (s pat r : string) :
  noDollar r = true ->
  (includes s pat = false /\ replaceFirst s pat r = s)
  \/ (exists before after,
        s = before ++ pat ++ after
        /\ (forall k, (k < String.length before)%nat -> prefix pat (drop k s) = false)
        /\ replaceFirst s pat r = before ++ r ++ after).
Proof.
  intros Hr. destruct (findFirst pat s) as [[b a]|] eqn:Ef.
  - right. exists b, a. destruct (findFirst_some _ _ _ _ Ef) as [Hs Hk].
    split; [exact Hs|]. split; [exact Hk|].
    unfold replaceFirst. rewrite Ef. now rewrite expandReplacement_noDollar.
  - left. assert (Hi : includes s pat = false) by now rewrite findFirst_includes, Ef.
    split; [exact Hi | now apply replaceFirst_absent].
Qed.

(** In the replacement a dollar sign is not always itself: with the marker
    found, [$$] gives one dollar, [$&] the marker, [$`] the text before it
    and [$'] the text after it.  A title or a content with such a pair does
    not come out as written. *)
Theorem replaceFirst_dollar_patterns (s pat before after r1 r2 : string) :
  findFirst pat s = Some (before, after) ->
  noDollar r1 = true -> noDollar r2 = true ->
  replaceFirst s pat (r1 ++ "$$" ++ r2) = before ++ (r1 ++ "$" ++ r2) ++ after
  /\ replaceFirst s pat (r1 ++ "$&" ++ r2) = before ++ (r1 ++ pat ++ r2) ++ after
  /\ replaceFirst s pat (r1 ++ "$`" ++ r2) = before ++ (r1 ++ before ++ r2) ++ after
  /\ replaceFirst s pat (r1 ++ "$'" ++ r2) = before ++ (r1 ++ after ++ r2) ++ after.
Proof.
  intros Ef H1 H2. unfold replaceFirst. rewrite Ef.
  repeat split; rewrite expandReplacement_plain by exact H1;
    cbn [append expandReplacement Ascii.eqb Bool.eqb];
    rewrite (expandReplacement_noDollar _ _ _ r2 H2); reflexivity.
Qed.

(** A template without its markers is written out as it is: the home page
    without the two markers has neither cards nor filters, the page of a
    post without the three markers nothing of the post. *)
Theorem templates_without_markers {H : Host} (template : string)
        (entries : list Entry) (entry : Entry) (tagsHTML : string) :
  (includes template "<!-- PORTFOLIO_ITEMS -->" = false ->
   includes template "<!-- TAG_FILTERS -->" = false ->
   indexHTML template entries = template)
  /\ (includes template "<!-- BLOG_ITEM -->" = false ->
      includes template "<!-- BLOG_TITLE -->" = false ->
      includes template "<!-- OG_TAGS -->" = false ->
      postHTML entry template tagsHTML = template).
Proof.
  split.
  - intros H1 H2. unfold indexHTML. cbv zeta.
    rewrite (replaceFirst_absent _ _ _ H1). now apply replaceFirst_absent.
  - intros H1 H2 H3. unfold postHTML. cbv zeta.
    rewrite (replaceFirst_absent _ _ _ H1), (replaceFirst_absent _ _ _ H2).
    now apply replaceFirst_absent.
Qed.

(** ** Extensions *)

Section MediaPaths.

Context {H : Host}.

(** The paths of the derived media follow the audio path: when that ends,
    in any letter case, with [.mp3], [.wav], [.ogg] or [.m4a], the video and
    the waveform image take its stem; when it does not, both paths are the
    audio path itself, so that the commands are asked to write over the
    audio file. *)
Theorem media_paths_follow_the_audio (entry : Entry) :
  (exists stem ext,
      audioPathOf entry = stem ++ "." ++ ext
      /\ String.length ext = 3%nat
      /\ existsb (String.eqb (lowerStr ext)) audioExt = true
      /\ videoPathOf entry = stem ++ ".mp4"
      /\ waveformPathOf entry = stem ++ "-waveform.jpg")
  \/ ((forall stem ext,
          audioPathOf entry = stem ++ "." ++ ext -> String.length ext = 3%nat ->
          existsb (String.eqb (lowerStr ext)) audioExt = false)
      /\ videoPathOf entry = audioPathOf entry
      /\ waveformPathOf entry = audioPathOf entry).
Proof.
  unfold videoPathOf, waveformPathOf.
  destruct (replaceExt_cases true audioExt (audioPathOf entry))
    as [(stem & ext & Hs & Hl & He & Hr)|(Hno & Hr)].
  - left. exists stem, ext. rewrite !Hr. repeat split; assumption.
  - right. rewrite !Hr. repeat split. exact Hno.
Qed.

(** The video field of an entry that went through the loop is its music
    source with the audio extension turned into [.mp4], or the music source
    itself when it has none of the four extensions. *)
Theorem videoSource_follows_musicSource (entry : Entry) (r : option string) :
  (exists stem ext,
      toStr (musicSource entry) = stem ++ "." ++ ext
      /\ String.length ext = 3%nat
      /\ existsb (String.eqb (lowerStr ext)) audioExt = true
      /\ videoSource (withMedia entry r) = JStr (stem ++ ".mp4"))
  \/ ((forall stem ext,
          toStr (musicSource entry) = stem ++ "." ++ ext -> String.length ext = 3%nat ->
          existsb (String.eqb (lowerStr ext)) audioExt = false)
      /\ videoSource (withMedia entry r) = JStr (toStr (musicSource entry))).
Proof.
  cbn [withMedia set_waveformImage set_videoSource videoSource].
  destruct (replaceExt_cases true audioExt (toStr (musicSource entry)))
    as [(stem & ext & Hs & Hl & He & Hr)|(Hno & Hr)].
  - left. exists stem, ext. rewrite Hr. repeat split; assumption.
  - right. rewrite Hr. split; [exact Hno | reflexivity].
Qed.

(** ** The size of the canvas *)

Lemma splitX_noX (cur s : string) :
  noX s = true -> splitX cur s = [cur ++ s].
Proof.
  revert cur. induction s as [|c s IH]; intros cur; cbn [noX splitX].
  - intros _. now rewrite append_nil_r.
  - intros E. apply andb_prop in E as [Ec Es]. apply negb_true_iff in Ec.
    rewrite Ec, (IH _ Es), append_assoc. reflexivity.
Qed.

Lemma splitX_at_x (cur a b : string) :
  noX a = true -> splitX cur (a ++ "x" ++ b) = (cur ++ a) :: splitX EmptyString b.
Proof.
  revert cur. induction a as [|c a IH]; intros cur; cbn [noX].
  - intros _. cbn. now rewrite append_nil_r.
  - intros E. apply andb_prop in E as [Ec Ea]. apply negb_true_iff in Ec.
    cbn [append splitX]. rewrite Ec, (IH _ Ea), append_assoc. reflexivity.
Qed.

(** The canvas of the waveform: when the probe prints a width and a height
    around an [x], each one is used if it is a number other than 0 and
    replaced by 1200 or 630 otherwise; when it prints no [x] the height is
    630, and the width is 1200 unless the whole output is such a number. *)
Theorem targetSize_defaults (dimensions : string) :
  (forall width height,
      String_trim dimensions = width ++ "x" ++ height ->
      noX width = true -> noX height = true ->
      targetSize dimensions
      = (match Number_truthy width with Some t => t | None => "1200" end,
         match Number_truthy height with Some t => t | None => "630" end))
  /\ (noX (String_trim dimensions) = true ->
      targetSize dimensions
      = (match Number_truthy (String_trim dimensions) with
         | Some t => t
         | None => "1200"
         end, "630")).
Proof.
  split.
  - intros width height E Hw Hh. unfold targetSize. rewrite E.
    rewrite (splitX_at_x _ _ _ Hw), (splitX_noX _ _ Hh). reflexivity.
  - intros Hx. unfold targetSize. rewrite (splitX_noX _ _ Hx). reflexivity.
Qed.

End MediaPaths.

(** ** Tags *)

Lemma ascii_compare_lt_trans (a b c : ascii) :
  Ascii.compare a b = Lt -> Ascii.compare b c = Lt -> Ascii.compare a c = Lt.
Proof.
  unfold Ascii.compare. rewrite !N.compare_lt_iff. apply N.lt_trans.
Qed.

Lemma ascii_compare_refl (a : ascii) : Ascii.compare a a = Eq.
Proof. apply N.compare_refl. Qed.

Lemma string_compare_lt_trans (s1 s2 s3 : string) :
  String.compare s1 s2 = Lt -> String.compare s2 s3 = Lt -> String.compare s1 s3 = Lt.
Proof.
  revert s2 s3. induction s1 as [|a s1 IH]; intros [|b s2] [|c s3];
    cbn [String.compare]; try discriminate; try reflexivity.
  destruct (Ascii.compare a b) eqn:Eab; try discriminate;
    destruct (Ascii.compare b c) eqn:Ebc; try discriminate; intros H1 H2.
  - apply Ascii.compare_eq_iff in Eab, Ebc. subst.
    rewrite ascii_compare_refl. eapply IH; eauto.
  - apply Ascii.compare_eq_iff in Eab. subst. now rewrite Ebc.
  - apply Ascii.compare_eq_iff in Ebc. subst. now rewrite Eab.
  - now rewrite (ascii_compare_lt_trans _ _ _ Eab Ebc).
Qed.

Lemma ltb_trans (a b c : string) :
  String.ltb a b = true -> String.ltb b c = true -> String.ltb a c = true.
Proof.
  unfold String.ltb.
  destruct (String.compare a b) eqn:E1; try discriminate.
  destruct (String.compare b c) eqn:E2; try discriminate.
  now rewrite (string_compare_lt_trans _ _ _ E1 E2).
Qed.

Lemma ltb_connected (a b : string) :
  String.ltb a b = false -> a <> b -> String.ltb b a = true.
Proof.
  unfold String.ltb. rewrite (String.compare_antisym b a).
  destruct (String.compare a b) eqn:E; try discriminate; intros _ Hne.
  - apply String.compare_eq_iff in E. contradiction.
  - reflexivity.
Qed.

Lemma arr_includes_In (l : list string) (x : string) :
  arr_includes l x = true <-> In x l.
Proof.
  unfold arr_includes. rewrite existsb_exists. split.
  - intros (y & Hy & E). apply String.eqb_eq in E. now subst.
  - intros Hx. exists x. split; [exact Hx | apply String.eqb_refl].
Qed.

Lemma uniq_In (seen l : list string) (x : string) :
  In x (uniq seen l) <-> In x l /\ ~ In x seen.
Proof.
  revert seen. induction l as [|y l IH]; intros seen; cbn [uniq].
  - cbn. tauto.
  - destruct (arr_includes seen y) eqn:E.
    + apply arr_includes_In in E. rewrite IH. cbn [In]. split.
      * tauto.
      * intros [[->|Hx] Hn]; [contradiction | tauto].
    + assert (Hy : ~ In y seen).
      { intros Hy. apply arr_includes_In in Hy. congruence. }
      cbn [In]. rewrite IH. cbn [In]. split.
      * intros [->|[Hx Hn]]; [tauto|]. split; [tauto|]. tauto.
      * intros [[->|Hx] Hn]; [tauto|].
        destruct (string_dec y x) as [->|Hne]; [tauto|]. right. split; [exact Hx|].
        intros [E'|Hs]; [contradiction | contradiction].
Qed.

Lemma uniq_NoDup (seen l : list string) : NoDup (uniq seen l).
Proof.
  revert seen. induction l as [|y l IH]; intros seen; cbn [uniq]; [constructor|].
  destruct (arr_includes seen y); [apply IH|].
  constructor; [|apply IH]. rewrite uniq_In. cbn [In]. tauto.
Qed.

Lemma insertTag_In (x y : string) (l : list string) :
  In y (insertTag x l) <-> y = x \/ In y l.
Proof.
  induction l as [|z l IH]; cbn [insertTag In].
  - split; [intros [E|[]]; now left | intros [E|[]]; now left].
  - destruct (String.ltb z x); cbn [In]; [rewrite IH|]; intuition congruence.
Qed.

Lemma insertTag_ascending (x : string) (l : list string) :
  ascending l -> ~ In x l -> ascending (insertTag x l).
Proof.
  unfold ascending. intros Hs Hx. induction l as [|z l IH]; cbn [insertTag].
  - repeat constructor.
  - apply StronglySorted_inv in Hs as [Hs Hall].
    destruct (String.ltb z x) eqn:E.
    + constructor; [apply IH; [exact Hs | intros Hi; apply Hx; now right]|].
      rewrite Forall_forall in *. intros y Hy. apply insertTag_In in Hy as [->|Hy];
        [exact E | now apply Hall].
    + assert (Hxz : String.ltb x z = true).
      { apply ltb_connected; [exact E|]. intros ->. apply Hx. now left. }
      constructor; [now constructor|]. constructor; [exact Hxz|].
      rewrite Forall_forall in *. intros y Hy.
      eapply ltb_trans; [exact Hxz | now apply Hall].
Qed.

Lemma sortTags_spec (l : list string) :
  NoDup l ->
  ascending (fold_right insertTag [] l)
  /\ forall x, In x (fold_right insertTag [] l) <-> In x l.
Proof.
  induction 1 as [|x l Hx Hn [IHs IHi]]; cbn [fold_right].
  - split; [constructor | tauto].
  - split.
    + apply insertTag_ascending; [exact IHs | now rewrite IHi].
    + intros y. rewrite insertTag_In, IHi. cbn [In]. intuition congruence.
Qed.

(** The tags of the site are those of its entries, each one once, in
    strictly ascending order of code units. *)
Theorem allTags_sorted_union (entries : list Entry) :
  ascending (allTags entries)
  /\ forall tag,
      In tag (allTags entries) <-> exists entry, In entry entries /\ In tag (tags entry).
Proof.
  unfold allTags.
  destruct (sortTags_spec _ (uniq_NoDup [] (flat_map tags entries))) as [Hs Hi].
  split; [exact Hs|]. intros tag.
  rewrite Hi, uniq_In, in_flat_map. cbn [In]. tauto.
Qed.

(** Badges and filters: an entry has a badge for each of its tags and no
    badge markup at all when it has no tag; the home page has a filter
    button for each tag of the site and no filter markup when the site has
    no tag. *)
Theorem tags_markup (entries : list Entry) (entry : Entry) :
  (tagsHTML entry = EmptyString <-> tags entry = [])
  /\ (forall tag, In tag (tags entry) ->
                  includes (tagsHTML entry) (tagBadge tag) = true)
  /\ (tagFilterHTML (allTags entries) = EmptyString <-> allTags entries = [])
  /\ (forall tag, In tag (allTags entries) ->
                  includes (tagFilterHTML (allTags entries)) (tagButton tag) = true).
Proof.
  split; [|split; [|split]].
  - unfold tagsHTML. destruct (tags entry) as [|t l]; cbn [List.length Nat.ltb Nat.leb].
    + tauto.
    + split; discriminate.
  - intros tag Ht. unfold tagsHTML.
    destruct (tags entry) as [|t l] eqn:E; [contradiction|].
    cbn [List.length Nat.ltb Nat.leb].
    apply includes_app_r, includes_app_l, includes_concat.
    change (In (tagBadge tag) (map tagBadge (t :: l))). now apply in_map.
  - unfold tagFilterHTML. destruct (allTags entries) as [|t l];
      cbn [List.length Nat.ltb Nat.leb].
    + tauto.
    + split; discriminate.
  - intros tag Ht. unfold tagFilterHTML.
    destruct (allTags entries) as [|t l] eqn:E; [contradiction|].
    cbn [List.length Nat.ltb Nat.leb].
    apply includes_app_r, includes_app_l, includes_concat.
    change (In (tagButton tag) (map tagButton (t :: l))). now apply in_map.
Qed.

(** ** The commands of the media steps *)

Section MediaSteps.

Context {H : Host}.

Ltac host_step :=
  match goal with
  | |- context [host_exec ?c ?f] =>
      let r := fresh "r" in let f' := fresh "fs" in let E := fresh "E" in
      destruct (host_exec c f) as [r f'] eqn:E; destruct r
  | |- context [host_mkdir ?c ?f] =>
      let r := fresh "r" in let f' := fresh "fs" in let E := fresh "E" in
      destruct (host_mkdir c f) as [r f'] eqn:E; destruct r
  | |- context [host_unlink ?c ?f] =>
      let r := fresh "r" in let f' := fresh "fs" in let E := fresh "E" in
      destruct (host_unlink c f) as [r f'] eqn:E; destruct r
  end.

Ltac run :=
  unfold bind, tryCatch, ret, console_log, console_error, emit, execAsync,
    fs_mkdir, fs_unlink, fs_stat;
  cbn [fs trace fst snd isNormal].

Ltac close_trace :=
  cbn [fs trace]; repeat rewrite <- app_assoc; cbn [app]; reflexivity.

(** What [generateWaveformImage] does, call by call.  When it returns the
    path it has made the directory, run the probe, the extraction, the
    rendering (on a canvas of the size read from what the probe printed)
    and the composition in this order, and removed the two transient
    files.  When it returns [false], either no transient file has
    been removed, or the four commands had succeeded, the image is
    composed, and it is the removal of a transient file that failed. *)
Theorem generateWaveformImage_steps (audioPath outputImagePath coverImage : string)
        (w : World) :
  exists r w' new,
    generateWaveformImage audioPath outputImagePath coverImage w = (Normal r, w')
    /\ trace w' = (trace w ++ new)%list
    /\ ((r = Some outputImagePath
         /\ exists dimensions,
             fst (host_exec (probeCmd coverImage)
                            (snd (host_mkdir (path_dirname outputImagePath) (fs w))))
             = Normal dimensions
             /\ new =
             [ EvLog ("Generating waveform image for " ++ audioPath ++ "...");
               EvMkdir (path_dirname outputImagePath) true;
               EvExec (probeCmd coverImage) true;
               EvExec (extractCmd audioPath outputImagePath) true;
               EvExec (waveformCmd outputImagePath (fst (targetSize dimensions))
                                   (snd (targetSize dimensions))) true;
               EvExec (compositeCmd outputImagePath coverImage) true;
               EvUnlink (tempWaveformOf outputImagePath) true;
               EvUnlink (tempAudioOf outputImagePath) true;
               EvLog ("✓ Generated waveform image: " ++ outputImagePath
                        ++ " (" ++ fst (targetSize dimensions) ++ "x"
                        ++ snd (targetSize dimensions) ++ ")") ])
        \/ (r = None
            /\ (filter isUnlink new = []
                \/ (filter (fun ev => isExec ev && succeeded ev) new =
                    filter isExec new
                    /\ execs new = 4%nat
                    /\ existsb (fun ev => isUnlink ev && negb (succeeded ev)) new
                       = true)))).
Proof.
  remember (fst (host_exec (probeCmd coverImage)
                           (snd (host_mkdir (path_dirname outputImagePath) (fs w)))))
    as probe eqn:Hprobe.
  unfold generateWaveformImage. run.
  host_step; run.
  2:{ do 3 eexists. split; [reflexivity|]. split; [close_trace|].
      right. split; [reflexivity|]. left. reflexivity. }
  host_step; run.
  2:{ do 3 eexists. split; [reflexivity|]. split; [close_trace|].
      right. split; [reflexivity|]. left. reflexivity. }
  host_step; run.
  2:{ do 3 eexists. split; [reflexivity|]. split; [close_trace|].
      right. split; [reflexivity|]. left. reflexivity. }
  host_step; run.
  2:{ do 3 eexists. split; [reflexivity|]. split; [close_trace|].
      right. split; [reflexivity|]. left. reflexivity. }
  host_step; run.
  2:{ do 3 eexists. split; [reflexivity|]. split; [close_trace|].
      right. split; [reflexivity|]. left. reflexivity. }
  host_step; run.
  2:{ do 3 eexists. split; [reflexivity|]. split; [close_trace|].
      right. split; [reflexivity|]. right. repeat split; reflexivity. }
  host_step; run.
  2:{ do 3 eexists. split; [reflexivity|]. split; [close_trace|].
      right. split; [reflexivity|]. right. repeat split; reflexivity. }
  do 3 eexists. split; [reflexivity|]. split; [close_trace|].
  left. split; [reflexivity|]. eexists. split; [|reflexivity].
  rewrite Hprobe. cbn [snd]. unfold probeCmd.
  match goal with
  | Hp : host_exec ?c ?f = _ |- context [host_exec ?c ?f] => rewrite Hp
  end.
  reflexivity.
Qed.

(** When the version query succeeds and the video is missing, or not newer
    than the audio (equal times included), [generateVideoFromAudio] makes
    the directory of the video and runs the encoder command, once; whatever
    the outcome, it returns normally.  When the directory cannot be made,
    or the encoder fails, what follows is the report of that error and
    nothing else; the success line is printed only after the encoder
    command has succeeded. *)
Theorem generateVideoFromAudio_regenerates
        (audioPath outputVideoPath coverImage : string) (w : World)
        (out : string) (f1 : FS) :
  host_exec "ffmpeg -version" (fs w) = (Normal out, f1) ->
  (forall ta tv, host_stat audioPath f1 = Normal ta ->
                 host_stat outputVideoPath f1 = Normal tv -> (tv <= ta)%Z) ->
  exists w' ok1 rest,
    generateVideoFromAudio audioPath outputVideoPath coverImage w = (Normal tt, w')
    /\ trace w' =
       (trace w
          ++ EvExec "ffmpeg -version" true
          :: EvLog ("Generating video for " ++ audioPath ++ "...")
          :: EvMkdir (path_dirname outputVideoPath) ok1 :: rest)%list
    /\ (ok1 = false ->
        forallb isConsole rest = true
        /\ exists e,
            fst (host_mkdir (path_dirname outputVideoPath) f1) = Throw e
            /\ rest = videoFailure audioPath (message e))
    /\ (ok1 = true ->
        exists ok2 logs,
          rest = EvExec (ffmpegCmd audioPath outputVideoPath coverImage) ok2 :: logs
          /\ forallb isConsole logs = true
          /\ (ok2 = true -> logs = [EvLog ("✓ Generated video: " ++ outputVideoPath)])
          /\ (ok2 = false ->
              exists e,
                fst (host_exec (ffmpegCmd audioPath outputVideoPath coverImage)
                               (snd (host_mkdir (path_dirname outputVideoPath) f1)))
                = Throw e
                /\ logs = videoFailure audioPath (message e)))
    /\ (In (EvLog ("✓ Generated video: " ++ outputVideoPath)) rest ->
        ok1 = true
        /\ rest = [ EvExec (ffmpegCmd audioPath outputVideoPath coverImage) true;
                    EvLog ("✓ Generated video: " ++ outputVideoPath) ]).
Proof.
  intros Ev Hstale.
  assert (Hup : forall w0, fs w0 = f1 ->
                  videoUpToDate audioPath outputVideoPath w0 = (Normal false, w0)).
  { intros w0 Hw0. unfold videoUpToDate. run. rewrite Hw0.
    destruct (host_stat audioPath f1) as [ta|e1] eqn:Ea; [|reflexivity].
    destruct (host_stat outputVideoPath f1) as [tv|e2] eqn:Eo; [|reflexivity].
    specialize (Hstale ta tv eq_refl eq_refl).
    destruct (ta <? tv)%Z eqn:El; [apply Z.ltb_lt in El; lia | reflexivity]. }
  unfold generateVideoFromAudio.
  unfold tryCatch, bind at 1, execAsync. rewrite Ev. cbn [isNormal].
  unfold bind at 1. rewrite Hup by reflexivity.
  run.
  destruct (host_mkdir (path_dirname outputVideoPath) f1) as [r1 f2] eqn:Em.
  destruct r1 as [[]|e]; run.
  - destruct (host_exec (ffmpegCmd audioPath outputVideoPath coverImage) f2)
      as [r2 f3] eqn:Ex.
    destruct r2 as [o|e]; run.
    + do 3 eexists. split; [reflexivity|]. split; [close_trace|].
      split; [discriminate|]. split.
      * intros _. do 2 eexists. split; [reflexivity|]. split; [reflexivity|].
        split; [reflexivity | discriminate].
      * intros _. split; reflexivity.
    + assert (Hlogs : exists logs,
                 logs = videoFailure audioPath (message e)
                 /\ forallb isConsole logs = true
                 /\ ~ In (EvLog ("✓ Generated video: " ++ outputVideoPath)) logs).
      { eexists. split; [reflexivity|]. unfold videoFailure.
        destruct (includes (message e) "ffmpeg"); split; try reflexivity;
          cbn [In]; intros Hin; repeat destruct Hin as [Hin|Hin];
          try discriminate; contradiction. }
      destruct Hlogs as (logs & Hl & Hc & Hn).
      exists (mkWorld f3
                (trace w ++ EvExec "ffmpeg -version" true
                   :: EvLog ("Generating video for " ++ audioPath ++ "...")
                   :: EvMkdir (path_dirname outputVideoPath) true
                   :: EvExec (ffmpegCmd audioPath outputVideoPath coverImage) false
                   :: logs)%list),
             true,
             (EvExec (ffmpegCmd audioPath outputVideoPath coverImage) false :: logs).
      split.
      { rewrite Hl. unfold videoFailure.
        destruct (includes (message e) "ffmpeg"); run; f_equal; f_equal; close_trace. }
      split; [reflexivity|]. split; [discriminate|]. split.
      * intros _. exists false, logs. split; [reflexivity|]. split; [exact Hc|].
        split; [discriminate|]. intros _. exists e. split; [reflexivity | exact Hl].
      * intros [Hin|Hin]; [discriminate | contradiction].
  - assert (Hlogs : exists logs,
               logs = videoFailure audioPath (message e)
               /\ forallb isConsole logs = true
               /\ ~ In (EvLog ("✓ Generated video: " ++ outputVideoPath)) logs).
    { eexists. split; [reflexivity|]. unfold videoFailure.
      destruct (includes (message e) "ffmpeg"); split; try reflexivity;
        cbn [In]; intros Hin; repeat destruct Hin as [Hin|Hin];
        try discriminate; contradiction. }
    destruct Hlogs as (logs & Hl & Hc & Hn).
    exists (mkWorld f2
              (trace w ++ EvExec "ffmpeg -version" true
                 :: EvLog ("Generating video for " ++ audioPath ++ "...")
                 :: EvMkdir (path_dirname outputVideoPath) false :: logs)%list),
           false, logs.
    split.
    { rewrite Hl. unfold videoFailure.
      destruct (includes (message e) "ffmpeg"); run; f_equal; f_equal; close_trace. }
    split; [reflexivity|]. split.
    + intros _. split; [exact Hc|]. exists e. split; [reflexivity | exact Hl].
    + split; [discriminate|]. intros Hin. contradiction.
Qed.

End MediaSteps.

(** ** The cost of the media loop *)

Section MediaCost.

Context {H : Host}.

Lemma execs_app (l1 l2 : list Event) : execs (l1 ++ l2) = (execs l1 + execs l2)%nat.
Proof. unfold execs. now rewrite filter_app, length_app. Qed.

Lemma spends_weaken {A : Type} (n n' : nat) (m : M A) :
  spends n m -> (n <= n')%nat -> spends n' m.
Proof.
  intros Hm Hn w. destruct (Hm w) as (new & Ht & He). exists new. split; [exact Ht | lia].
Qed.

Lemma spends_ret {A : Type} (a : A) : spends 0 (ret a).
Proof. intros w. exists []. split; [symmetry; apply app_nil_r | apply Nat.le_refl]. Qed.

Lemma spends_bind {A B : Type} (n1 n2 : nat) (m : M A) (k : A -> M B) :
  spends n1 m -> (forall a, spends n2 (k a)) -> spends (n1 + n2) (bind m k).
Proof.
  intros Hm Hk w. unfold bind.
  destruct (Hm w) as (l1 & H1 & E1).
  destruct (m w) as [[a|e] w1]; cbn [snd] in *.
  - destruct (Hk a w1) as (l2 & H2 & E2).
    exists (l1 ++ l2)%list. split.
    + rewrite H2, H1. symmetry. apply app_assoc.
    + rewrite execs_app. lia.
  - exists l1. split; [exact H1 | lia].
Qed.

Lemma spends_tryCatch {A : Type} (n1 n2 : nat) (m : M A) (h : JsError -> M A) :
  spends n1 m -> (forall e, spends n2 (h e)) -> spends (n1 + n2) (tryCatch m h).
Proof.
  intros Hm Hh w. unfold tryCatch.
  destruct (Hm w) as (l1 & H1 & E1).
  destruct (m w) as [[a|e] w1]; cbn [snd] in *.
  - exists l1. split; [exact H1 | lia].
  - destruct (Hh e w1) as (l2 & H2 & E2).
    exists (l1 ++ l2)%list. split.
    + rewrite H2, H1. symmetry. apply app_assoc.
    + rewrite execs_app. lia.
Qed.

Lemma spends_emit (ev : Event) : isExec ev = false -> spends 0 (emit ev).
Proof.
  intros Hev w. exists [ev]. split; [reflexivity|].
  unfold execs. cbn [filter]. rewrite Hev. apply Nat.le_refl.
Qed.

Lemma spends_execAsync (cmd : string) : spends 1 (execAsync cmd).
Proof.
  intros w. unfold execAsync. destruct (host_exec cmd (fs w)) as [r f].
  eexists. split; [reflexivity|]. apply Nat.le_refl.
Qed.

Lemma spends_mkdir (path : string) : spends 0 (fs_mkdir path).
Proof.
  intros w. unfold fs_mkdir. destruct (host_mkdir path (fs w)) as [r f].
  eexists. split; [reflexivity|]. apply Nat.le_refl.
Qed.

Lemma spends_unlink (path : string) : spends 0 (fs_unlink path).
Proof.
  intros w. unfold fs_unlink. destruct (host_unlink path (fs w)) as [r f].
  eexists. split; [reflexivity|]. apply Nat.le_refl.
Qed.

Lemma spends_stat (path : string) : spends 0 (fs_stat path).
Proof. intros w. exists []. split; [symmetry; apply app_nil_r | apply Nat.le_refl]. Qed.

Ltac spends_tac :=
  repeat first
    [ apply spends_ret | apply spends_execAsync | apply spends_mkdir
    | apply spends_unlink | apply spends_stat
    | (apply spends_emit; reflexivity)
    | (eapply spends_bind; [| intro])
    | (eapply spends_tryCatch; [| intro]) ].

Lemma generateWaveformImage_spends (audioPath outputImagePath coverImage : string) :
  spends 4 (generateWaveformImage audioPath outputImagePath coverImage).
Proof.
  eapply spends_weaken.
  - unfold generateWaveformImage, console_log, console_error. spends_tac.
  - cbn. lia.
Qed.

Lemma videoUpToDate_spends (audioPath outputVideoPath : string) :
  spends 0 (videoUpToDate audioPath outputVideoPath).
Proof.
  unfold videoUpToDate, console_log.
  apply (spends_tryCatch 0 0); [|intros e; apply spends_ret].
  apply (spends_bind 0 0); [apply spends_stat|]. intros ta.
  apply (spends_bind 0 0); [apply spends_stat|]. intros tv.
  destruct (ta <? tv)%Z; [|apply spends_ret].
  apply (spends_bind 0 0); [apply spends_emit; reflexivity|]. intros _. apply spends_ret.
Qed.

Lemma generateVideoFromAudio_spends (audioPath outputVideoPath coverImage : string) :
  spends 2 (generateVideoFromAudio audioPath outputVideoPath coverImage).
Proof.
  unfold generateVideoFromAudio, console_log, console_error.
  apply (spends_tryCatch 2 0).
  - apply (spends_bind 1 1); [apply spends_execAsync|]. intros _.
    apply (spends_bind 0 1); [apply videoUpToDate_spends|]. intros b.
    destruct b; [eapply spends_weaken; [apply spends_ret | lia]|].
    eapply spends_weaken; [spends_tac | cbn; lia].
  - intros e. apply (spends_bind 0 0); [apply spends_emit; reflexivity|]. intros _.
    destruct (includes (message e) "ffmpeg");
      [apply spends_emit; reflexivity | apply spends_ret].
Qed.

Lemma generateMedia_spends (entry : Entry) :
  spends (if eligible entry then 6 else 0) (generateMedia entry).
Proof.
  unfold generateMedia. destruct (eligible entry); [|apply spends_ret].
  apply (spends_bind 4 2); [apply generateWaveformImage_spends|]. intros r.
  apply (spends_bind 2 0); [apply generateVideoFromAudio_spends|]. intros _.
  apply spends_ret.
Qed.

(** The media loop runs at most six commands for each eligible entry (four
    for the waveform image, two for the video) and none for the other
    entries; it writes no file of the site and never throws. *)
Theorem media_loop_commands (entries : list Entry) (w : World) :
  exists entries' w' new,
    mapM generateMedia entries w = (Normal entries', w')
    /\ trace w' = (trace w ++ new)%list
    /\ (execs new <= 6 * eligibleCount entries)%nat
    /\ filter isWrite new = [].
Proof.
  assert (Hs : spends (6 * eligibleCount entries) (mapM generateMedia entries)).
  { induction entries as [|e l IH]; cbn [mapM]; [apply spends_ret|].
    eapply spends_weaken.
    - eapply spends_bind; [apply generateMedia_spends|]. intros e'.
      eapply spends_bind; [exact IH|]. intros l'. apply spends_ret.
    - unfold eligibleCount. cbn [filter].
      destruct (eligible e); cbn [List.length]; lia. }
  destruct (mapM_generateMedia_inv entries w) as (es & w' & new & Hm & Ht & Hq & _).
  exists es, w', new. split; [exact Hm|]. split; [exact Ht|]. split; [|exact Hq].
  destruct (Hs w) as (new' & Ht' & He). rewrite Hm in Ht'. cbn [snd] in Ht'.
  rewrite Ht in Ht'. apply app_inv_head in Ht'. now subst.
Qed.

End MediaCost.

(** ** Loading the posts *)

Section Loading.

Context {H : Host}.

Lemma parseEntry_world (file : string) (w : World) :
  snd (parseEntry file w) = w.
Proof.
  unfold parseEntry, bind, fs_readFile, liftC, ret.
  destruct (host_readFile (path_join CONTENT_DIR file) (fs w)) as [text|err];
    [|reflexivity].
  destruct (frontMatter text) as [[attributes body]|err]; reflexivity.
Qed.

Lemma mapM_parseEntry_throw (files : list string) (file : string) (w : World) :
  In file files ->
  isNormal (fst (parseEntry file w)) = false ->
  exists e, mapM parseEntry files w = (Throw e, w).
Proof.
  induction files as [|f files IH]; [contradiction|].
  intros Hin Hf. cbn [mapM]. unfold bind at 1.
  pose proof (parseEntry_world f w) as Hw.
  destruct (parseEntry f w) as [[e|err] w1] eqn:Ep; cbn [snd] in Hw; subst w1.
  - destruct Hin as [->|Hin]; [rewrite Ep in Hf; discriminate|].
    destruct (IH Hin Hf) as (e' & Hm). unfold bind at 1. rewrite Hm. eauto.
  - eauto.
Qed.

Lemma basename_injective (f g : string) :
  endsWith f ".md" = true -> endsWith g ".md" = true ->
  basename f ".md" = basename g ".md" -> f = g.
Proof.
  intros Hf Hg E.
  rewrite <- (basename_stem f ".md" Hf), <- (basename_stem g ".md" Hg). now rewrite E.
Qed.

Lemma NoDup_filter {A : Type} (p : A -> bool) (l : list A) :
  NoDup l -> NoDup (filter p l).
Proof.
  induction 1 as [|x l Hx Hn IH]; cbn [filter]; [constructor|].
  destruct (p x); [|exact IH].
  constructor; [|exact IH]. intros Hi. apply filter_In in Hi. tauto.
Qed.

Lemma NoDup_map_on {A B : Type} (f : A -> B) (l : list A) :
  (forall x y, In x l -> In y l -> f x = f y -> x = y) ->
  NoDup l -> NoDup (map f l).
Proof.
  intros Hinj Hn. induction Hn as [|x l Hx Hn IH]; cbn [map]; [constructor|].
  constructor.
  - intros Hi. apply in_map_iff in Hi as (y & Hy & Hyl).
    assert (y = x) by (apply Hinj; [now right | now left | exact Hy]).
    subst. contradiction.
  - apply IH. intros a b Ha Hb. apply Hinj; now right.
Qed.

(** Loading makes one entry for each file of the listing whose name ends
    with [.md], in the order of the listing, and leaves the world as it
    was; the slug of an entry is its file name without the [.md], so that
    distinct file names give distinct slugs. *)
Theorem readEntries_one_entry_per_file (w w' : World) (entries : list Entry) :
  readEntries w = (Normal entries, w') ->
  w' = w
  /\ exists files,
      host_readdir CONTENT_DIR (fs w) = Normal files
      /\ map filename entries = markdownFilesOf files
      /\ (forall entry, In entry entries ->
                        endsWith (filename entry) ".md" = true
                        /\ slug entry ++ ".md" = filename entry)
      /\ (NoDup files -> NoDup (map slug entries)).
Proof.
  intros Hr. apply readEntries_inv in Hr as [-> (files & Hd & Hp)].
  split; [reflexivity|]. exists files. split; [exact Hd|].
  assert (Hnames : map filename entries = markdownFilesOf files).
  { symmetry. rewrite <- (map_id (markdownFilesOf files)).
    apply Forall2_map_eq. eapply Forall2_weaken; [|exact Hp].
    intros f e (Hf & _). now rewrite Hf. }
  assert (Hslug : map slug entries
                  = map (fun f => basename f ".md") (markdownFilesOf files)).
  { symmetry. apply Forall2_map_eq. eapply Forall2_weaken; [|exact Hp].
    intros f e (_ & Hs & _). now rewrite Hs. }
  assert (Hmd : forall f, In f (markdownFilesOf files) -> endsWith f ".md" = true).
  { intros f Hf. unfold markdownFilesOf in Hf. now apply filter_In in Hf. }
  split; [exact Hnames|]. split.
  - intros e He.
    destruct (Forall2_In_r _ _ _ _ Hp He) as (f & Hf & Hn & Hs & _).
    rewrite Hn, Hs. split; [now apply Hmd | apply basename_stem; now apply Hmd].
  - intros Hn. rewrite Hslug. apply NoDup_map_on.
    + intros f g Hf Hg. apply basename_injective; now apply Hmd.
    + now apply NoDup_filter.
Qed.

(** A post that cannot be read or whose front matter is rejected stops the
    run before anything else is done: the output directory has been made,
    no command is run and no file is written. *)
Theorem malformed_post_stops_the_build (w : World) (template postTemplate : string)
        (files : list string) (file : string) :
  fst (host_mkdir OUTPUT_DIR (fs w)) = Normal tt ->
  host_readFile TEMPLATE_PATH (snd (host_mkdir OUTPUT_DIR (fs w))) = Normal template ->
  host_readFile POST_TEMPLATE_PATH (snd (host_mkdir OUTPUT_DIR (fs w)))
  = Normal postTemplate ->
  host_readdir CONTENT_DIR (snd (host_mkdir OUTPUT_DIR (fs w))) = Normal files ->
  In file (markdownFilesOf files) ->
  (forall text,
      host_readFile (path_join CONTENT_DIR file) (snd (host_mkdir OUTPUT_DIR (fs w)))
      = Normal text ->
      isNormal (frontMatter text) = false) ->
  exists e,
    generateSite w
    = (Throw e, mkWorld (snd (host_mkdir OUTPUT_DIR (fs w)))
                        (trace w ++ [EvMkdir OUTPUT_DIR true])).
Proof.
  intros Hm Ht Hpt Hd Hin Hbad.
  rewrite generateSite_setup. unfold setup.
  unfold bind at 1, fs_mkdir.
  destruct (host_mkdir OUTPUT_DIR (fs w)) as [r f1]. cbn [fst snd] in *. subst r.
  cbn [isNormal].
  unfold bind at 1, fs_readFile at 1. cbn [fs]. rewrite Ht.
  unfold bind at 1, fs_readFile at 1. cbn [fs]. rewrite Hpt.
  unfold bind at 1, readEntries. unfold bind at 1, fs_readdir. cbn [fs]. rewrite Hd.
  fold (markdownFilesOf files).
  match goal with |- context [mapM parseEntry _ ?w0] =>
    destruct (mapM_parseEntry_throw (markdownFilesOf files) file w0 Hin) as (e & He) end.
  - unfold parseEntry, bind, fs_readFile, liftC, ret. cbn [fs].
    destruct (host_readFile (path_join CONTENT_DIR file) f1) as [text|err] eqn:Er;
      [|reflexivity].
    specialize (Hbad text eq_refl).
    destruct (frontMatter text) as [[a b]|err]; [discriminate | reflexivity].
  - rewrite He. exists e. reflexivity.
Qed.

Lemma mapM_renderEntry_written (postTemplate : string) (l : list Entry) (w : World) :
  (forall path data f, fst (host_writeFile path data f) = Normal tt) ->
  exists w',
    mapM (renderEntry postTemplate) l w = (Normal (map portfolioItem l), w')
    /\ trace w' =
       (trace w
          ++ map (fun e => EvWriteFile (postPath e)
                                       (postHTML e postTemplate (tagsHTML e)) true) l)%list.
Proof.
  intros Hw. revert w. induction l as [|e l IH]; intros w; cbn [mapM map].
  - exists w. unfold ret. now rewrite app_nil_r.
  - unfold bind at 1. unfold renderEntry at 1.
    unfold bind at 1, detach, writePost, fs_writeFile, ret at 1.
    pose proof (Hw (postPath e) (postHTML e postTemplate (tagsHTML e)) (fs w)) as Hr.
    destruct (host_writeFile (postPath e) (postHTML e postTemplate (tagsHTML e)) (fs w))
      as [r f]. cbn [fst] in Hr. subst r. cbn [snd isNormal].
    match goal with |- context [bind _ _ ?w1] => destruct (IH w1) as (w2 & Hm & Ht) end.
    unfold bind, ret. rewrite Hm. exists w2. split; [reflexivity|].
    rewrite Ht. cbn [trace]. now rewrite <- app_assoc.
Qed.

Lemma filter_isWrite_pages (postTemplate : string) (l : list Entry) :
  filter isWrite
         (map (fun e => EvWriteFile (postPath e)
                                    (postHTML e postTemplate (tagsHTML e)) true) l)
  = map (fun e => EvWriteFile (postPath e)
                              (postHTML e postTemplate (tagsHTML e)) true) l.
Proof. induction l as [|e l IH]; cbn [map filter isWrite]; congruence. Qed.

(** A run completes when the set-up succeeds, every date is valid and the
    platform accepts the writes; the writes it has issued are then, in
    this order, the manifest, one page for each entry in the sorted order,
    the home page and the feed, and nothing else. *)
Theorem build_writes_the_site (w w1 : World) (template postTemplate : string)
        (entries : list Entry) :
  setup w = (Normal (template, postTemplate, entries), w1) ->
  allValid entries = true ->
  (forall path data f, fst (host_writeFile path data f) = Normal tt) ->
  exists w' es manifest,
    generateSite w = (Normal tt, w')
    /\ Forall2 mediaOf entries es
    /\ filter isWrite (trace w') =
       (filter isWrite (trace w)
          ++ EvWriteFile (path_join OUTPUT_DIR "posts.json") manifest true
          :: map (fun e => EvWriteFile (postPath e)
                                       (postHTML e postTemplate (tagsHTML e)) true)
                 (sortEntries es)
          ++ [ EvWriteFile (path_join OUTPUT_DIR "index.html")
                           (indexHTML template (sortEntries es)) true;
               EvWriteFile (path_join OUTPUT_DIR "rss.xml")
                           (rssXML (sortEntries es)) true ])%list.
Proof.
  intros Hs Hv Hw.
  destruct (setup_quiet w) as (n1 & Ht1 & Hq1). rewrite Hs in Ht1. cbn [snd] in Ht1.
  destruct (mapM_generateMedia_inv entries w1) as (es & w2 & new & Hm & Ht2 & Hq2 & Hmed).
  assert (Hv' : allValid (sortEntries es) = true)
    by now rewrite allValid_sort, (mediaOf_allValid _ _ Hmed).
  destruct (postsMetadata_valid _ Hv') as (objs & Ho).
  rewrite generateSite_setup, Hs. unfold bind at 1. rewrite Hm.
  unfold assemble. unfold bind at 1, liftC. rewrite Ho.
  unfold bind at 1, fs_writeFile at 1.
  match goal with |- context [host_writeFile ?p ?d ?f] =>
    pose proof (Hw p d f) as Hw1; destruct (host_writeFile p d f) as [r1 f1] end.
  cbn [fst] in Hw1. subst r1.
  unfold bind at 1.
  match goal with |- context [mapM _ _ ?w0] =>
    destruct (mapM_renderEntry_written postTemplate (sortEntries es) w0 Hw)
      as (w3 & Hre & Ht3) end.
  rewrite Hre.
  unfold bind at 1, fs_writeFile at 1.
  match goal with |- context [host_writeFile ?p ?d (fs w3)] =>
    pose proof (Hw p d (fs w3)) as Hw2;
    destruct (host_writeFile p d (fs w3)) as [r2 f2] end.
  cbn [fst] in Hw2. subst r2.
  unfold bind at 1, generateRSSFeed, fs_writeFile. cbn [fs trace].
  match goal with |- context [host_writeFile ?p ?d f2] =>
    pose proof (Hw p d f2) as Hw3; destruct (host_writeFile p d f2) as [r3 f3] end.
  cbn [fst] in Hw3. subst r3.
  unfold bind, console_log, emit. cbn [fs trace isNormal].
  eexists _, es, (postsJson objs). split; [reflexivity|]. split; [exact Hmed|].
  cbn [trace]. rewrite Ht3. cbn [trace isNormal]. rewrite Ht2, Ht1.
  rewrite !filter_app, Hq1, Hq2, filter_isWrite_pages.
  cbn [filter isWrite]. rewrite !app_nil_r, <- !app_assoc. reflexivity.
Qed.

End Loading.

(** ** The common Open-Graph tags, and the earlier script *)

Section OpenGraph.

Context {H : Host}.

Lemma ogBase_tags (entry : Entry) (description postUrl : string) :
  includes (ogBase entry description postUrl)
           (metaProperty "og:title" (toStr (title entry))) = true
  /\ includes (ogBase entry description postUrl)
              (metaProperty "og:description" description) = true
  /\ includes (ogBase entry description postUrl)
              (metaProperty "og:url" postUrl) = true
  /\ includes (ogBase entry description postUrl)
              (metaProperty "og:site_name" SITE_CONFIG.title) = true
  /\ includes (ogBase entry description postUrl)
              (metaName "twitter:card" "summary_large_image") = true
  /\ includes (ogBase entry description postUrl)
              (metaName "twitter:title" (toStr (title entry))) = true
  /\ includes (ogBase entry description postUrl)
              (metaName "twitter:description" description) = true.
Proof.
  unfold ogBase, metaProperty, metaName.
  split; [|split; [|split; [|split; [|split; [|split]]]]].
  - apply includes_interp; reflexivity.
  - do 2 apply includes_app_r. apply includes_interp; reflexivity.
  - do 4 apply includes_app_r. apply includes_interp; reflexivity.
  - do 6 apply includes_app_r. apply includes_interp; reflexivity.
  - do 8 apply includes_app_r. apply includes_app_l. reflexivity.
  - do 8 apply includes_app_r. apply includes_interp; reflexivity.
  - do 10 apply includes_app_r. apply includes_interp_end; reflexivity.
Qed.

Lemma ogImage_tags (imageUrl : string) :
  includes (ogImage imageUrl) (metaProperty "og:image" imageUrl) = true
  /\ includes (ogImage imageUrl) (metaName "twitter:image" imageUrl) = true.
Proof.
  unfold ogImage, metaProperty, metaName. split.
  - apply includes_interp; reflexivity.
  - do 2 apply includes_app_r. apply includes_interp_end; reflexivity.
Qed.

Lemma generateOpenGraphTags_begins (entry : Entry) :
  exists rest,
    generateOpenGraphTags entry
    = ogBase entry (ogDescription entry) (SITE_CONFIG.url ++ "/posts/" ++ slug entry)
        ++ rest.
Proof.
  unfold generateOpenGraphTags. fold (ogDescription entry). cbv zeta.
  destruct (isMusicPost entry); [|eauto].
  destruct (truthy (waveformImage entry)), (truthy (videoSource entry));
    rewrite ?append_assoc; eauto.
  exists EmptyString. now rewrite append_nil_r.
Qed.

(** Whatever the entry, its Open-Graph block begins with the common tags:
    the title, the description (the entry's own, or the stripped first 200
    characters of its content), the address of its page under [/posts/],
    the name of the site and the large-image card.  A music post with a
    waveform image also gets the image tags, their address being the site
    URL followed by the path of the image. *)
Theorem generateOpenGraphTags_common (entry : Entry) :
  prefix (ogBase entry (ogDescription entry)
                 (SITE_CONFIG.url ++ "/posts/" ++ slug entry))
         (generateOpenGraphTags entry) = true
  /\ includes (generateOpenGraphTags entry)
              (metaProperty "og:title" (toStr (title entry))) = true
  /\ includes (generateOpenGraphTags entry)
              (metaProperty "og:description" (ogDescription entry)) = true
  /\ includes (generateOpenGraphTags entry)
              (metaProperty "og:url" (SITE_CONFIG.url ++ "/posts/" ++ slug entry)) = true
  /\ includes (generateOpenGraphTags entry)
              (metaProperty "og:site_name" SITE_CONFIG.title) = true
  /\ includes (generateOpenGraphTags entry)
              (metaName "twitter:card" "summary_large_image") = true
  /\ (isMusicPost entry = true -> truthy (waveformImage entry) = true ->
      includes (generateOpenGraphTags entry)
               (metaProperty "og:image"
                             (SITE_CONFIG.url ++ toStr (waveformImage entry))) = true
      /\ includes (generateOpenGraphTags entry)
                  (metaName "twitter:image"
                            (SITE_CONFIG.url ++ toStr (waveformImage entry))) = true).
Proof.
  destruct (generateOpenGraphTags_begins entry) as (rest & E).
  destruct (ogBase_tags entry (ogDescription entry)
                        (SITE_CONFIG.url ++ "/posts/" ++ slug entry))
    as (T1 & T2 & T3 & T4 & T5 & _).
  split; [rewrite E; apply prefix_app|].
  split; [rewrite E; now apply includes_app_l|].
  split; [rewrite E; now apply includes_app_l|].
  split; [rewrite E; now apply includes_app_l|].
  split; [rewrite E; now apply includes_app_l|].
  split; [rewrite E; now apply includes_app_l|].
  intros Hm Hw.
  destruct (ogImage_tags (SITE_CONFIG.url ++ toStr (waveformImage entry))) as (I1 & I2).
  assert (E' : exists rest',
             generateOpenGraphTags entry
             = (ogBase entry (ogDescription entry)
                       (SITE_CONFIG.url ++ "/posts/" ++ slug entry)
                  ++ ogImage (SITE_CONFIG.url ++ toStr (waveformImage entry)))
                 ++ rest').
  { unfold generateOpenGraphTags. fold (ogDescription entry). cbv zeta.
    rewrite Hm, Hw. destruct (truthy (videoSource entry)).
    - rewrite (append_assoc (_ ++ ogImage _)). eauto.
    - exists EmptyString. now rewrite append_nil_r. }
  destruct E' as (rest' & E'). rewrite E'.
  split; apply includes_app_l, includes_app_r; assumption.
Qed.

Lemma earlier_ogVideo_tags (videoUrl audioUrl : string) :
  includes (Earlier.ogVideo videoUrl audioUrl)
           (metaProperty "og:type" "video.other") = true
  /\ includes (Earlier.ogVideo videoUrl audioUrl)
              (metaProperty "og:video" videoUrl) = true
  /\ includes (Earlier.ogVideo videoUrl audioUrl)
              (metaProperty "og:audio" audioUrl) = true.
Proof.
  unfold Earlier.ogVideo. split; [|split].
  - apply includes_app_l. reflexivity.
  - unfold metaProperty. apply includes_interp; reflexivity.
  - do 4 apply includes_app_r.
    unfold metaProperty. apply includes_interp; reflexivity.
Qed.

(** The earlier script of the same file gives every entry a type: the
    video block (og:type video.other, og:video, og:audio and the player
    card) when the entry is a music post with a videoSource, and og:type
    article at the end of the block in every other case, a music post
    without a videoSource included.  For an entry that is not a music post
    the two scripts differ in the common tags only. *)
Theorem earlier_open_graph_type (entry : Entry) :
  (isMusicPost entry = true -> truthy (videoSource entry) = true ->
   includes (Earlier.generateOpenGraphTags entry)
            (metaProperty "og:type" "video.other") = true
   /\ includes (Earlier.generateOpenGraphTags entry)
               (metaProperty "og:video" (SITE_CONFIG.url ++ toStr (videoSource entry)))
      = true
   /\ includes (Earlier.generateOpenGraphTags entry)
               (metaProperty "og:audio" (SITE_CONFIG.url ++ toStr (musicSource entry)))
      = true
   /\ includes (Earlier.generateOpenGraphTags entry)
               (metaName "twitter:player" (SITE_CONFIG.url ++ toStr (videoSource entry)))
      = true)
  /\ (isMusicPost entry && truthy (videoSource entry) = false ->
      Earlier.generateOpenGraphTags entry
      = Earlier.ogBase entry (ogDescription entry)
                       (SITE_CONFIG.url ++ "/posts/" ++ slug entry)
          ++ metaProperty "og:type" "article")
  /\ (isMusicPost entry = false ->
      exists base earlierBase,
        generateOpenGraphTags entry = base ++ metaProperty "og:type" "article"
        /\ Earlier.generateOpenGraphTags entry
           = earlierBase ++ metaProperty "og:type" "article").
Proof.
  split; [|split].
  - intros Hm Hv.
    destruct (earlier_ogVideo_tags (SITE_CONFIG.url ++ toStr (videoSource entry))
                                   (SITE_CONFIG.url ++ toStr (musicSource entry)))
      as (T1 & T2 & T3).
    unfold Earlier.generateOpenGraphTags. cbv zeta. rewrite Hm, Hv. cbn [andb].
    split; [|split; [|split]];
      try (apply includes_app_l, includes_app_r; assumption).
    apply includes_app_r. unfold Earlier.ogPlayer, metaName.
    apply includes_interp_end; reflexivity.
  - intros Hc. unfold Earlier.generateOpenGraphTags, ogDescription. cbv zeta.
    rewrite Hc. reflexivity.
  - intros Hm. eexists _, _. split.
    + unfold generateOpenGraphTags. cbv zeta. rewrite Hm. reflexivity.
    + unfold Earlier.generateOpenGraphTags. cbv zeta. rewrite Hm. reflexivity.
Qed.

End OpenGraph.

(** ** Sorting entries that are already in order *)

Lemma insertEntry_head (x : Entry) (l : list Entry) :
  validDate (date x) = true -> allValid l = true ->
  Forall (fun y => (time y <= time x)%Z) l ->
  insertEntry x l = x :: l.
Proof.
  intros Hx Hl Hall. destruct l as [|y l]; [reflexivity|].
  cbn [insertEntry]. simpl in Hl. apply andb_prop in Hl as [Hy _].
  rewrite (sortCompare_valid x y Hx Hy).
  apply Forall_inv in Hall.
  destruct (0 <? time y - time x)%Z eqn:Hc; [|reflexivity].
  apply Z.ltb_lt in Hc. lia.
Qed.

Lemma sortEntries_sorted (l : list Entry) :
  allValid l = true -> descending l -> sortEntries l = l.
Proof.
  intros Hv Hs. induction Hs as [|x l Hs IH Hall]; [reflexivity|].
  simpl in Hv. apply andb_prop in Hv as [Hx Hl].
  cbn [sortEntries fold_right]. fold (sortEntries l). rewrite (IH Hl).
  now apply insertEntry_head.
Qed.

(** With valid dates, entries that are already in descending order of
    date are left as they are by the sort, and so sorting a second time
    changes nothing. *)
Theorem sortEntries_keeps_sorted_input (entries : list Entry) :
  allValid entries = true ->
  (descending entries -> sortEntries entries = entries)
  /\ sortEntries (sortEntries entries) = sortEntries entries.
Proof.
  intros Hv. split.
  - now apply sortEntries_sorted.
  - apply sortEntries_sorted.
    + apply (allValid_perm entries); [symmetry; apply sortEntries_perm | exact Hv].
    + now apply sortEntries_descending.
Qed.

(** ** The items of the feed *)

Section Feed.

Context {H : Host}.

(** Each of the first twenty entries has its item in the feed; the link
    and the permanent guid of the item are the address of the entry's page
    (the site URL, [/posts/] and the slug, without extension), its
    publication date is the UTC string of the entry's date, and its full
    content is in [content:encoded].  The channel gives the time of the
    build as its last build date. *)
Theorem feed_items (entries : list Entry) (entry : Entry) :
  In entry (firstn 20 entries) ->
  includes (rssXML entries) (rssItem entry) = true
  /\ includes (rssItem entry)
              ("<link>" ++ (SITE_CONFIG.url ++ "/posts/" ++ slug entry) ++ "</link>")
     = true
  /\ includes (rssItem entry)
              (qq "<guid isPermaLink='true'>"
                  ++ (SITE_CONFIG.url ++ "/posts/" ++ slug entry) ++ "</guid>") = true
  /\ includes (rssItem entry)
              ("<pubDate>" ++ toUTCString (date entry) ++ "</pubDate>") = true
  /\ includes (rssItem entry)
              ("<content:encoded><![CDATA[" ++ content entry ++ "]]></content:encoded>")
     = true
  /\ includes (rssXML entries)
              ("<lastBuildDate>" ++ toUTCString Date_now ++ "</lastBuildDate>") = true.
Proof.
  intros Hin. split; [|split; [|split; [|split; [|split]]]].
  - unfold rssXML, feedEntries. cbv zeta.
    do 13 apply includes_app_r. apply includes_app_l, includes_concat.
    now apply in_map.
  - unfold rssItem. cbv zeta. do 6 apply includes_app_r.
    apply includes_interp; reflexivity.
  - unfold rssItem. cbv zeta. do 8 apply includes_app_r.
    apply includes_interp; reflexivity.
  - unfold rssItem. cbv zeta. do 10 apply includes_app_r.
    apply includes_interp; reflexivity.
  - unfold rssItem. cbv zeta. do 4 apply includes_app_r.
    apply includes_interp; reflexivity.
  - unfold rssXML. cbv zeta. do 6 apply includes_app_r.
    apply includes_interp; reflexivity.
Qed.

End Feed.

(** * Further runs *)

Module MoreRuns.

Import Demo Samples.

(** Text without a tag goes through [stripTags] unchanged. *)
Lemma stripTags_leaves_no_tag_witness :
  hasTag "Hello, world." = false /\ stripTags "Hello, world." = "Hello, world.".
Proof.
  split; [reflexivity|].
  exact (proj1 (proj2 (proj2 (stripTags_leaves_no_tag "Hello, world."))) eq_refl).
Defined.

(** The long post without a description. *)
Lemma description_fallback_is_bounded_witness :
  truthy (description essay) = false
  /\ (String.length (ogDescription essay) <= 200)%nat
  /\ hasTag (ogDescription essay) = false
  /\ rssDescription essay = ogDescription essay ++ "..."
  /\ (String.length (rssDescription essay) <= 203)%nat.
Proof.
  split; [reflexivity|]. apply (description_fallback_is_bounded essay). reflexivity.
Defined.

(** The title of a page. *)
Lemma replaceFirst_first_occurrence_witness :
  noDollar "Hello" = true
  /\ ((includes pageTemplate "<!-- BLOG_TITLE -->" = false
       /\ replaceFirst pageTemplate "<!-- BLOG_TITLE -->" "Hello" = pageTemplate)
      \/ (exists before after,
            pageTemplate = before ++ "<!-- BLOG_TITLE -->" ++ after
            /\ (forall k, (k < String.length before)%nat ->
                          prefix "<!-- BLOG_TITLE -->" (drop k pageTemplate) = false)
            /\ replaceFirst pageTemplate "<!-- BLOG_TITLE -->" "Hello"
               = before ++ "Hello" ++ after)).
Proof.
  split; [reflexivity|].
  apply (replaceFirst_first_occurrence pageTemplate "<!-- BLOG_TITLE -->" "Hello").
  reflexivity.
Defined.

(** A title with a price in it. *)
Lemma replaceFirst_dollar_patterns_witness :
  findFirst "<!-- BLOG_TITLE -->" "<h1><!-- BLOG_TITLE --></h1>" = Some ("<h1>", "</h1>")
  /\ replaceFirst "<h1><!-- BLOG_TITLE --></h1>" "<!-- BLOG_TITLE -->" "Cost: $$5"
     = "<h1>Cost: $5</h1>"
  /\ replaceFirst "<h1><!-- BLOG_TITLE --></h1>" "<!-- BLOG_TITLE -->" "Cost: $&5"
     = "<h1>Cost: <!-- BLOG_TITLE -->5</h1>".
Proof.
  assert (Hf : findFirst "<!-- BLOG_TITLE -->" "<h1><!-- BLOG_TITLE --></h1>"
               = Some ("<h1>", "</h1>")) by reflexivity.
  split; [exact Hf|].
  destruct (replaceFirst_dollar_patterns
              "<h1><!-- BLOG_TITLE --></h1>" "<!-- BLOG_TITLE -->" "<h1>" "</h1>"
              "Cost: " "5" Hf eq_refl eq_refl) as (E1 & E2 & _).
  split; [exact E1 | exact E2].
Defined.

(** A template that has lost its markers. *)
Lemma templates_without_markers_witness :
  includes "<main></main>" "<!-- PORTFOLIO_ITEMS -->" = false
  /\ includes "<main></main>" "<!-- TAG_FILTERS -->" = false
  /\ @indexHTML bare "<main></main>" [helloEntry; noteEntry] = "<main></main>".
Proof.
  split; [reflexivity|]. split; [reflexivity|].
  exact (proj1 (@templates_without_markers bare "<main></main>" [helloEntry; noteEntry]
                  helloEntry EmptyString) eq_refl eq_refl).
Defined.

(** The probe of a cover image of 800 by 600, and one with no width. *)
Lemma targetSize_defaults_witness :
  @String_trim bare ("800x600" ++ nl) = "800" ++ "x" ++ "600"
  /\ @targetSize bare ("800x600" ++ nl) = ("800", "600")
  /\ @targetSize bare ("0x600" ++ nl) = ("1200", "600")
  /\ @targetSize bare "N/A" = ("1200", "630").
Proof.
  split; [reflexivity|]. split; [|split].
  - exact (proj1 (@targetSize_defaults bare ("800x600" ++ nl))
                 "800" "600" eq_refl eq_refl eq_refl).
  - exact (proj1 (@targetSize_defaults bare ("0x600" ++ nl))
                 "0" "600" eq_refl eq_refl eq_refl).
  - exact (proj2 (@targetSize_defaults bare "N/A") eq_refl).
Defined.

(** The badges of a post with two tags. *)
Lemma tags_markup_witness :
  In "life" (tags essay)
  /\ includes (tagsHTML essay) (tagBadge "life") = true
  /\ In "words" (allTags [essay; helloEntry])
  /\ includes (tagFilterHTML (allTags [essay; helloEntry])) (tagButton "words") = true.
Proof.
  assert (H1 : In "life" (tags essay)) by (right; left; reflexivity).
  assert (H2 : In "words" (allTags [essay; helloEntry]))
    by (vm_compute; right; right; left; reflexivity).
  destruct (tags_markup [essay; helloEntry] essay) as (_ & B & _ & F).
  split; [exact H1|]. split; [exact (B _ H1)|]. split; [exact H2 | exact (F _ H2)].
Defined.

(** The video is older than the audio: it is made again. *)
Lemma generateVideoFromAudio_regenerates_witness :
  @host_exec studio "ffmpeg -version" (@fs studio stale0)
  = (Normal EmptyString, @fs studio stale0)
  /\ @host_stat studio "docs/audio/a.mp3" (@fs studio stale0) = Normal 200%Z
  /\ @host_stat studio "docs/audio/a.mp4" (@fs studio stale0) = Normal 100%Z
  /\ exists w' rest,
      @generateVideoFromAudio studio "docs/audio/a.mp3" "docs/audio/a.mp4"
                              "./audio-cover.jpg" stale0 = (Normal tt, w')
      /\ In (EvExec (ffmpegCmd "docs/audio/a.mp3" "docs/audio/a.mp4"
                               "./audio-cover.jpg") true) rest
      /\ @trace studio w' = (@trace studio stale0 ++ rest)%list.
Proof.
  assert (Hq : @host_exec studio "ffmpeg -version" (@fs studio stale0)
               = (Normal EmptyString, @fs studio stale0)) by reflexivity.
  assert (Hstale : forall ta tv,
             @host_stat studio "docs/audio/a.mp3" (@fs studio stale0) = Normal ta ->
             @host_stat studio "docs/audio/a.mp4" (@fs studio stale0) = Normal tv ->
             (tv <= ta)%Z).
  { intros ta tv Ha Hv. vm_compute in Ha, Hv.
    injection Ha as <-. injection Hv as <-. lia. }
  split; [exact Hq|]. split; [reflexivity|]. split; [reflexivity|].
  destruct (@generateVideoFromAudio_regenerates studio
              "docs/audio/a.mp3" "docs/audio/a.mp4" "./audio-cover.jpg"
              stale0 _ _ Hq Hstale)
    as (w' & ok1 & rest & Hrun & Ht & _).
  exists w', (EvExec "ffmpeg -version" true
                :: EvLog ("Generating video for " ++ "docs/audio/a.mp3" ++ "...")
                :: EvMkdir (@path_dirname studio "docs/audio/a.mp4") ok1 :: rest).
  split; [exact Hrun|]. split; [|exact Ht].
  vm_compute in Hrun. injection Hrun as <-. vm_compute in Ht.
  injection Ht as <- <-. vm_compute. do 3 right. left. reflexivity.
Defined.

(** The site of the examples: two of its three files are posts. *)
Lemma readEntries_one_entry_per_file_witness :
  @readEntries site site0 = (Normal [helloEntry; noteEntry], site0)
  /\ map slug [helloEntry; noteEntry] = ["hello"; "note"]
  /\ exists files,
      @host_readdir site CONTENT_DIR (@fs site site0) = Normal files
      /\ map filename [helloEntry; noteEntry] = markdownFilesOf files
      /\ (NoDup files -> NoDup (map slug [helloEntry; noteEntry])).
Proof.
  assert (Hr : @readEntries site site0 = (Normal [helloEntry; noteEntry], site0))
    by (vm_compute; reflexivity).
  split; [exact Hr|]. split; [reflexivity|].
  destruct (@readEntries_one_entry_per_file site site0 _ _ Hr)
    as (_ & files & Hd & Hn & _ & Hu).
  exists files. split; [exact Hd|]. split; [exact Hn | exact Hu].
Defined.

(** A site with a post that front-matter rejects: the run stops after the
    output directory. *)
Lemma malformed_post_stops_the_build_witness :
  In "torn.md" (markdownFilesOf ["hello.md"; "torn.md"; "note.md"])
  /\ @frontMatter Broken.site "torn"
     = Throw (mkError "bad indentation of a mapping entry")
  /\ exists e,
      @generateSite Broken.site Broken.site0
      = (Throw e, @mkWorld Broken.site [] [EvMkdir OUTPUT_DIR true]).
Proof.
  assert (Hin : In "torn.md" (markdownFilesOf ["hello.md"; "torn.md"; "note.md"]))
    by (right; left; reflexivity).
  split; [exact Hin|]. split; [reflexivity|].
  refine (@malformed_post_stops_the_build Broken.site Broken.site0
            indexTemplate pageTemplate ["hello.md"; "torn.md"; "note.md"] "torn.md"
            eq_refl eq_refl eq_refl eq_refl Hin _).
  intros text Ht. vm_compute in Ht. injection Ht as <-. reflexivity.
Defined.

(** The site of the examples, built: four writes for two posts. *)
Lemma build_writes_the_site_witness :
  @setup site site0
  = (Normal (indexTemplate, pageTemplate, [helloEntry; noteEntry]),
     @mkWorld site [] [EvMkdir "./docs" true])
  /\ exists w' es,
      @generateSite site site0 = (Normal tt, w')
      /\ List.length es = 2%nat
      /\ map (fun ev => match ev with EvWriteFile p _ _ => p | _ => EmptyString end)
             (filter isWrite (@trace site w'))
         = @path_join site OUTPUT_DIR "posts.json"
             :: (map (@postPath site) (sortEntries es)
                   ++ [@path_join site OUTPUT_DIR "index.html";
                       @path_join site OUTPUT_DIR "rss.xml"])%list.
Proof.
  assert (Hs : @setup site site0
               = (Normal (indexTemplate, pageTemplate, [helloEntry; noteEntry]),
                  @mkWorld site [] [EvMkdir "./docs" true]))
    by (vm_compute; reflexivity).
  split; [exact Hs|].
  destruct (@build_writes_the_site site site0 _ _ _ _ Hs eq_refl)
    as (w' & es & manifest & Hrun & Hmed & Ht).
  { intros path data f. reflexivity. }
  exists w', es. split; [exact Hrun|].
  split; [symmetry; exact (Forall2_length Hmed)|].
  rewrite Ht. cbn [trace site0 start filter app map].
  rewrite map_app, map_map. reflexivity.
Defined.

(** Two posts already in order, the newer one first. *)
Lemma sortEntries_keeps_sorted_input_witness :
  allValid [noteEntry; helloEntry] = true
  /\ sortEntries (sortEntries [helloEntry; noteEntry]) = sortEntries [helloEntry; noteEntry]
  /\ sortEntries [helloEntry; noteEntry] = [noteEntry; helloEntry].
Proof.
  split; [reflexivity|]. split; [|reflexivity].
  exact (proj2 (sortEntries_keeps_sorted_input [helloEntry; noteEntry] eq_refl)).
Defined.

(** The item of the music post in the feed of the examples. *)
Lemma feed_items_witness :
  In helloEntry (firstn 20 [noteEntry; helloEntry])
  /\ includes (@rssXML bare [noteEntry; helloEntry]) (@rssItem bare helloEntry) = true
  /\ includes (@rssItem bare helloEntry)
              "<link>https://words.aubrey.page/posts/hello</link>" = true.
Proof.
  assert (Hin : In helloEntry (firstn 20 [noteEntry; helloEntry]))
    by (right; left; reflexivity).
  destruct (@feed_items bare [noteEntry; helloEntry] helloEntry Hin) as (F1 & F2 & _).
  split; [exact Hin|]. split; [exact F1 | exact F2].
Defined.

(** A music post with its waveform image. *)
Lemma generateOpenGraphTags_common_witness :
  isMusicPost track = true
  /\ truthy (waveformImage track) = true
  /\ includes (generateOpenGraphTags track)
              (metaProperty "og:image" "https://words.aubrey.page/audio/a-waveform.jpg")
     = true.
Proof.
  split; [reflexivity|]. split; [reflexivity|].
  destruct (generateOpenGraphTags_common track) as (_ & _ & _ & _ & _ & _ & I).
  exact (proj1 (I eq_refl eq_refl)).
Defined.

(** A music post without a video: the earlier script calls it an
    article. *)
Lemma earlier_open_graph_type_witness :
  isMusicPost silent && truthy (videoSource silent) = false
  /\ isMusicPost silent = true
  /\ includes (Earlier.generateOpenGraphTags silent)
              (metaProperty "og:type" "article") = true
  /\ includes (generateOpenGraphTags silent) (metaProperty "og:type" "article") = false.
Proof.
  split; [reflexivity|]. split; [reflexivity|]. split; [|vm_compute; reflexivity].
  rewrite (proj1 (proj2 (earlier_open_graph_type silent)) eq_refl).
  apply includes_app_r, includes_refl.
Defined.

End MoreRuns.
